(** * Retry bookkeeping, worker accounting and environment loading

    A shallow embedding of the orchestration glue of the Playwright/Cucumber
    automation framework:

    - [RetryHelpers]       (src/utils/RetryHelpers.ts),
    - [ParallelHelpers]    (src/utils/ParallelHelpers.ts),
    - [EnvironmentManager] (src/config/EnvironmentConfig.ts),
    - [RetryScript]        (scripts/retry-failed-tests.sh, the script that
                            starts at "Retry Failed Tests Script"),
    - [RetryPolicy], [RetrySettings], [ParallelReport], [EnvironmentAccess]
                           (the remaining helpers of the three classes),
    - [EnvironmentLoaderScript] (src/config/environment-loader.js),
    - [ParallelScript]     (scripts/parallel-test.sh),

    followed by the properties established about them.

    JavaScript values are the JSON values the code reads from disk plus
    [undefined]; exceptions are explicit results; the file system, the
    console and the process environment are explicit state. *)

From Stdlib Require Import ZArith Floats.SpecFloat.
From stdpp Require Import gmap strings list fin_maps pretty.

#[local] Set Warnings "-register-all".
#[local] Open Scope Z_scope.

(* ===================================================================== *)
(** ** The JavaScript fragment used by the sources                        *)
(* ===================================================================== *)

Module JS.

(** What [JSON.parse] can produce.  Line numbers, attempt counters and
    the counts of the retry summary are the only numbers the sources read
    or write as JSON, so numbers are integers. *)
Inductive json :=
| JNull
| JBool (b : bool)
| JNum (z : Z)
| JStr (s : string)
| JArr (l : list json)
| JObj (kvs : list (string * json)).

(** A JavaScript value: a JSON value, or [undefined] ([None]). *)
Definition jsval := option json.

Inductive exn :=
| TypeError
| SyntaxError
| ReferenceError
| RangeError
| IOError
| Error_ (msg : string).

(** Completion of an evaluation: a value, or a thrown exception. *)
Inductive res (A : Type) :=
| Ok (a : A)
| Throw (e : exn).
Arguments Ok {A} a.
Arguments Throw {A} e.

Definition bind {A B} (m : res A) (k : A -> res B) : res B :=
  match m with
  | Ok a => k a
  | Throw e => Throw e
  end.

(** [try { m } catch (error) { h }] *)
Definition try_catch {A} (m : res A) (h : exn -> A) : A :=
  match m with
  | Ok a => a
  | Throw e => h e
  end.

Definition is_throw {A} (m : res A) : bool :=
  match m with
  | Ok _ => false
  | Throw _ => true
  end.

(** ToBoolean. *)
Definition truthy (v : jsval) : bool :=
  match v with
  | None => false
  | Some JNull => false
  | Some (JBool b) => b
  | Some (JNum z) => negb (z =? 0)
  | Some (JStr s) => negb (String.eqb s "")
  | Some (JArr _) => true
  | Some (JObj _) => true
  end.

(** [a || b] *)
Definition or_else (a b : jsval) : jsval :=
  if truthy a then a else b.

Fixpoint assoc (k : string) (kvs : list (string * json)) : jsval :=
  match kvs with
  | [] => None
  | (k', v) :: rest => if String.eqb k k' then Some v else assoc k rest
  end.

(** [v.k] for the property names the sources read ([elements], [steps],
    [result], [status], [error_message], [name], [uri], [line],
    [scenarioName], [featureFile], [environment] and the entries of the
    retry summary): none of them is a builtin property of a string, a
    number, a boolean or an array, so only objects can carry them;
    reading a property of [null] or [undefined] throws. *)
Definition prop (v : jsval) (k : string) : res jsval :=
  match v with
  | None => Throw TypeError
  | Some JNull => Throw TypeError
  | Some (JObj kvs) => Ok (assoc k kvs)
  | Some _ => Ok None
  end.

(** The names every object inherits from [Object.prototype]: [prop] is for
    the other names. *)
Definition Object_prototype_names : list string :=
  ["constructor"; "__defineGetter__"; "__defineSetter__"; "hasOwnProperty";
   "__lookupGetter__"; "__lookupSetter__"; "isPrototypeOf"; "propertyIsEnumerable";
   "toString"; "valueOf"; "__proto__"; "toLocaleString"].

Definition inherited (k : string) : bool :=
  existsb (String.eqb k) Object_prototype_names.

(** [v.length]: the number of elements of an array, of characters of a
    string (of bytes here: only whether it is zero is ever asked), or the
    [length] entry of an object. *)
Definition length_prop (v : jsval) : res jsval :=
  match v with
  | None => Throw TypeError
  | Some JNull => Throw TypeError
  | Some (JArr l) => Ok (Some (JNum (Z.of_nat (length l))))
  | Some (JStr s) => Ok (Some (JNum (Z.of_nat (String.length s))))
  | Some (JObj kvs) => Ok (assoc "length" kvs)
  | Some _ => Ok None
  end.

(** [v?.k] *)
Definition opt_prop (v : jsval) (k : string) : res jsval :=
  match v with
  | None => Ok None
  | Some JNull => Ok None
  | _ => prop v k
  end.

(** The receiver of [.forEach], [.some], [.find], [.map], [.push]: only
    arrays have these methods; on anything else the call throws. *)
Definition as_array (v : jsval) : res (list json) :=
  match v with
  | Some (JArr l) => Ok l
  | _ => Throw TypeError
  end.

(** [a === b].  Objects and arrays compare by identity; two values that
    come out of [JSON.parse] are never the same object. *)
Definition strict_eq (a b : jsval) : bool :=
  match a, b with
  | None, None => true
  | Some JNull, Some JNull => true
  | Some (JBool x), Some (JBool y) => Bool.eqb x y
  | Some (JNum x), Some (JNum y) => x =? y
  | Some (JStr x), Some (JStr y) => String.eqb x y
  | _, _ => false
  end.

(** [arr.some(p)]: stops at the first element for which [p] holds; an
    exception raised by [p] before that point propagates. *)
Fixpoint array_some (p : json -> res bool) (l : list json) : res bool :=
  match l with
  | [] => Ok false
  | x :: rest =>
      bind (p x) (fun b => if b then Ok true else array_some p rest)
  end.

(** [arr.find(p)] *)
Fixpoint array_find (p : json -> res bool) (l : list json) : res jsval :=
  match l with
  | [] => Ok None
  | x :: rest =>
      bind (p x) (fun b => if b then Ok (Some x) else array_find p rest)
  end.

(** [arr.forEach(f)] for a callback that threads an accumulator. *)
Fixpoint for_each {S : Type} (f : S -> json -> res S) (l : list json) (s : S)
  : res S :=
  match l with
  | [] => Ok s
  | x :: rest => bind (f s x) (for_each f rest)
  end.

(** [s.replace(/c/g, '')] for a single character [c]. *)
Fixpoint remove_char (c : Ascii.ascii) (s : string) : string :=
  match s with
  | EmptyString => EmptyString
  | String a rest =>
      if Ascii.eqb a c then remove_char c rest
      else String a (remove_char c rest)
  end.

End JS.

Export JS.

(** JavaScript numbers are IEEE-754 binary64 values; their arithmetic is
    the one specified in [SpecFloat], at precision 53 and maximal exponent
    1024. *)
Module JSNumber.

Definition double : Type := spec_float.

(** The double nearest to an integer (the integer itself below 2^53). *)
Definition to_double (z : Z) : double := binary_normalize 53 1024 z 0 false.

Definition double_sub : double -> double -> double := SFsub 53 1024.
Definition double_div : double -> double -> double := SFdiv 53 1024.
Definition double_mul : double -> double -> double := SFmul 53 1024.

(** The integer [n] for which [n / 100] is closest to [m * 2^e], the
    larger one when two are equally close. *)
Definition nearest_hundredths (m : positive) (e : Z) : Z :=
  if 0 <=? e then 100 * Z.pos m * 2 ^ e
  else (200 * Z.pos m + 2 ^ (- e)) / (2 * 2 ^ (- e)).

(** [n] hundredths written with two decimals. *)
Definition show_hundredths (n : Z) : string :=
  pretty (n / 100) +:+ "." +:+
  (if n mod 100 <? 10 then "0" else "") +:+ pretty (n mod 100).

(** [x.toFixed(2)] (Number.prototype.toFixed) for [|x| < 10^21], which
    covers every quotient of two array lengths times 100. *)
Definition toFixed2 (x : double) : string :=
  match x with
  | S754_nan => "NaN"
  | S754_infinity true => "-Infinity"
  | S754_infinity false => "Infinity"
  | S754_zero _ => "0.00"
  | S754_finite s m e =>
      (if s then "-" else "") +:+ show_hundredths (nearest_hundredths m e)
  end.

End JSNumber.

Export JSNumber.

(** [x ← m; k] sequences two evaluations, an exception in [m] skipping
    [k]. *)
#[export] Instance res_bind : MBind res := fun A B k m => bind m k.
#[export] Instance res_ret : MRet res := @Ok.

(* ===================================================================== *)
(** ** Files, console, clock                                              *)
(* ===================================================================== *)

Module Fs.

(** The text of a file is identified with what [JSON.parse] makes of it:
    [Some v] when the text is a JSON document denoting [v], [None] when
    [JSON.parse] rejects it.  [JSON.stringify] writes a text that parses
    back to the value it was given. *)
Abbreviation text := (option json).

Definition JSON_parse (t : text) : res json :=
  match t with
  | Some v => Ok v
  | None => Throw SyntaxError
  end.

Definition JSON_stringify (v : json) : text := Some v.

Inductive log_line :=
| Info (msg : string)
| Warn (msg : string)
| Error (msg : string).

(** Regular files by path, the directories that exist, and what has
    been printed so far.  Permissions and device errors are outside the
    model. *)
Record world := World {
  files : gmap string text;
  dirs : gset string;
  console : list log_line
}.

Definition existsSync (w : world) (p : string) : bool :=
  bool_decide (is_Some (files w !! p)) || bool_decide (p ∈ dirs w).

Definition readFileSync (w : world) (p : string) : res text :=
  match files w !! p with
  | Some t => Ok t
  | None => Throw IOError
  end.

Definition writeFileSync (w : world) (p : string) (t : text) : world :=
  World (<[p := t]> (files w)) (dirs w) (console w).

(** [path.dirname(p)] for a relative path whose segments are separated by
    single separators: what precedes the last separator, [.] when there is
    none. *)
Fixpoint before_last_separator (p : string) : option string :=
  match p with
  | EmptyString => None
  | String a rest =>
      match before_last_separator rest with
      | Some d => Some (String a d)
      | None => if Nat.eqb (Ascii.nat_of_ascii a) 47 then Some EmptyString else None
      end
  end.

Definition path_dirname (p : string) : string :=
  match before_last_separator p with
  | Some EmptyString => "/"
  | Some d => d
  | None => "."
  end.

(** A directory: the working directory, or a path that was made a
    directory and holds no regular file. *)
Definition is_directory (w : world) (p : string) : bool :=
  String.eqb p "."
  || (bool_decide (p ∈ dirs w) && negb (bool_decide (is_Some (files w !! p)))).

(** [fs.writeFileSync(p, t)] where the caller catches its errors: a
    regular file is overwritten; otherwise the call throws when [p] is a
    directory, and when there is no directory to create [p] in (the parent is
    missing, or is a regular file). *)
Definition writeFileSync_checked (w : world) (p : string) (t : text) : res world :=
  if bool_decide (is_Some (files w !! p)) then Ok (writeFileSync w p t)
  else if bool_decide (p ∈ dirs w) then Throw IOError
  else if is_directory w (path_dirname p) then Ok (writeFileSync w p t)
  else Throw IOError.

Definition unlinkSync (w : world) (p : string) : res world :=
  match files w !! p with
  | Some _ => Ok (World (delete p (files w)) (dirs w) (console w))
  | None => Throw IOError
  end.

Definition mkdirSync (w : world) (d : string) : world :=
  World (files w) ({[d]} ∪ dirs w) (console w).

Definition print (w : world) (l : log_line) : world :=
  World (files w) (dirs w) (console w ++ [l]).

(** An effectful evaluation: it runs in a world and leaves a world
    behind, also when it throws. *)
Definition eff (A : Type) : Type := world -> res A * world.

Definition eff_ret {A} (a : A) : eff A := fun w => (Ok a, w).

Definition eff_bind {A B} (m : eff A) (k : A -> eff B) : eff B :=
  fun w =>
    match m w with
    | (Ok a, w') => k a w'
    | (Throw e, w') => (Throw e, w')
    end.

(** A pure evaluation inside an effectful one. *)
Definition lift {A} (r : res A) : eff A := fun w => (r, w).

(** [try { m } catch (error) { h error }] *)
Definition catch {A} (m : eff A) (h : exn -> eff A) : eff A :=
  fun w =>
    match m w with
    | (Ok a, w') => (Ok a, w')
    | (Throw e, w') => h e w'
    end.

Definition fs_exists (p : string) : eff bool :=
  fun w => (Ok (existsSync w p), w).
Definition fs_read (p : string) : eff text :=
  fun w => (readFileSync w p, w).
Definition fs_write (p : string) (t : text) : eff unit :=
  fun w => (Ok tt, writeFileSync w p t).
Definition fs_write_checked (p : string) (t : text) : eff unit :=
  fun w =>
    match writeFileSync_checked w p t with
    | Ok w' => (Ok tt, w')
    | Throw e => (Throw e, w)
    end.
Definition fs_unlink (p : string) : eff unit :=
  fun w =>
    match unlinkSync w p with
    | Ok w' => (Ok tt, w')
    | Throw e => (Throw e, w)
    end.
Definition fs_mkdir (d : string) : eff unit :=
  fun w => (Ok tt, mkdirSync w d).
Definition log (l : log_line) : eff unit :=
  fun w => (Ok tt, print w l).

End Fs.

Export Fs.

#[export] Instance eff_mbind : MBind eff := fun A B k m => eff_bind m k.
#[export] Instance eff_mret : MRet eff := @eff_ret.

(* ===================================================================== *)
(** ** Strings, numbers and directories                                   *)
(* ===================================================================== *)

Module JSText.

(** [s.toLowerCase()] on ASCII text: the letters A to Z are mapped to a to
    z, every other character is kept. *)
Definition lower (a : Ascii.ascii) : Ascii.ascii :=
  let n := Ascii.nat_of_ascii a in
  if ((65 <=? n) && (n <=? 90))%nat then Ascii.ascii_of_nat (n + 32) else a.

Fixpoint toLowerCase (s : string) : string :=
  match s with
  | EmptyString => EmptyString
  | String a rest => String (lower a) (toLowerCase rest)
  end.

(** [s.includes(sub)] *)
Fixpoint includes (s sub : string) : bool :=
  String.prefix sub s
  || match s with
     | EmptyString => false
     | String _ rest => includes rest sub
     end.

(** [s.endsWith(suffix)] *)
Fixpoint endsWith (s suffix : string) : bool :=
  String.eqb s suffix
  || match s with
     | EmptyString => false
     | String _ rest => endsWith rest suffix
     end.

(** What is left of [s] once its first [n] characters are dropped. *)
Fixpoint drop_chars (n : nat) (s : string) : string :=
  match n, s with
  | S n', String _ rest => drop_chars n' rest
  | _, _ => s
  end.

(** [s.replace(pattern, '')] for a pattern that is a string: the first
    occurrence is removed. *)
Fixpoint remove_first (s pattern : string) : string :=
  if String.prefix pattern s then drop_chars (String.length pattern) s
  else match s with
       | EmptyString => EmptyString
       | String a rest => String a (remove_first rest pattern)
       end.

(** ToString of a JSON value, where it can throw.  The conversion of an
    object calls its [toString]; an object that holds an entry of that name
    hides the inherited method behind something that cannot be called, and
    the conversion throws.  The elements of an array are converted one after
    the other and joined with commas. *)
Fixpoint string_of (v : json) : res string :=
  match v with
  | JNull => Ok "null"
  | JBool true => Ok "true"
  | JBool false => Ok "false"
  | JNum z => Ok (pretty z)
  | JStr s => Ok s
  | JArr l =>
      parts ← (fix elements (l : list json) : res (list string) :=
                 match l with
                 | [] => Ok []
                 | x :: rest =>
                     s ← match x with JNull => Ok "" | _ => string_of x end;
                     ss ← elements rest;
                     Ok (s :: ss)
                 end) l;
      Ok (String.concat "," parts)
  | JObj kvs =>
      match assoc "toString" kvs with
      | Some _ => Throw TypeError
      | None => Ok "[object Object]"
      end
  end.

(** [String(v)] and the conversion of a template literal. *)
Definition to_string_value (v : jsval) : res string :=
  match v with
  | None => Ok "undefined"
  | Some j => string_of j
  end.

(** [v.toString()] *)
Definition toString_method (v : jsval) : res string :=
  match v with
  | None | Some JNull => Throw TypeError
  | Some j => string_of j
  end.

(** The conversion [Array.prototype.join] applies to an element. *)
Definition join_element (v : jsval) : res string :=
  match v with
  | None | Some JNull => Ok ""
  | Some j => string_of j
  end.

(** [l.join(sep)] *)
Definition array_join (sep : string) (l : list jsval) : res string :=
  parts ← mapM join_element l;
  Ok (String.concat sep parts).

End JSText.

Export JSText.

Module JSMath.

(** The signed integer [n] for which a finite double is [n * 2^e]. *)
Definition signed (s : bool) (m : positive) : Z :=
  if s then Z.neg m else Z.pos m.

(** The double of integral value [n] obtained from a finite double that has
    a fractional part; a zero keeps the sign of the argument. *)
Definition integral (s : bool) (n : Z) : double :=
  if n =? 0 then S754_zero s else to_double n.

(** [Math.floor(x)] *)
Definition Math_floor (x : double) : double :=
  match x with
  | S754_finite s m e =>
      if 0 <=? e then x else integral s (signed s m / 2 ^ (- e))
  | _ => x
  end.

(** [Math.ceil(x)] *)
Definition Math_ceil (x : double) : double :=
  match x with
  | S754_finite s m e =>
      if 0 <=? e then x else integral s (- ((- signed s m) / 2 ^ (- e)))
  | _ => x
  end.

(** [Math.round(x)]: the integer nearest to [x], the larger one when two
    are equally near. *)
Definition Math_round (x : double) : double :=
  match x with
  | S754_finite s m e =>
      if 0 <=? e then x
      else integral s ((2 * signed s m + 2 ^ (- e)) / (2 * 2 ^ (- e)))
  | _ => x
  end.

(** [x > y] and [x === y] on numbers. *)
Definition number_gt (x y : double) : bool := SFltb y x.
Definition number_eq (x y : double) : bool := SFeqb x y.

(** ToBoolean on a number: [NaN] and the two zeros are falsy. *)
Definition number_truthy (x : double) : bool :=
  match x with
  | S754_nan | S754_zero _ => false
  | _ => true
  end.

(** The integer a double holds, when it holds one. *)
Definition integer_value (x : double) : option Z :=
  match x with
  | S754_zero _ => Some 0
  | S754_finite s m e =>
      if 0 <=? e then Some (signed s m * 2 ^ e)
      else if Z.pos m mod 2 ^ (- e) =? 0 then Some (signed s m / 2 ^ (- e))
      else None
  | _ => None
  end.

(** How an integer [n] compares with a double [x]: the comparison of [n]
    with the number [x] stands for, which is what [<=], [===] and [>=] decide
    between two numbers when one of them is the integer [n] held exactly;
    [None] when [x] is [NaN]. *)
Definition compare_integer (n : Z) (x : double) : option comparison :=
  match x with
  | S754_nan => None
  | S754_infinity s => Some (if s then Gt else Lt)
  | S754_zero _ => Some (n ?= 0)
  | S754_finite s m e =>
      if 0 <=? e then Some (n ?= signed s m * 2 ^ e)
      else Some (n * 2 ^ (- e) ?= signed s m)
  end.

(** [n <= x], [n >= x] and [n === x] for an integer [n]. *)
Definition integer_le (n : Z) (x : double) : bool :=
  match compare_integer n x with
  | Some Lt | Some Eq => true
  | _ => false
  end.

Definition integer_ge (n : Z) (x : double) : bool :=
  match compare_integer n x with
  | Some Gt | Some Eq => true
  | _ => false
  end.

Definition integer_eq (n : Z) (x : double) : bool :=
  match compare_integer n x with
  | Some Eq => true
  | _ => false
  end.

(** [Math.pow(2, j)] for an integer [j]: the power itself, or [Infinity]
    when it is too large for a double. *)
Definition Math_pow2 (j : Z) : double := binary_normalize 53 1024 1 j false.

(** ToLength: the integer part of [x], not below 0 and not above
    2^53 - 1. *)
Definition ToLength (x : double) : Z :=
  match x with
  | S754_finite false m e =>
      Z.min (if 0 <=? e then Z.pos m * 2 ^ e else Z.pos m / 2 ^ (- e)) (2 ^ 53 - 1)
  | S754_infinity false => 2 ^ 53 - 1
  | _ => 0
  end.

(** [n % d] for an integer [n] that is not negative, when the remainder
    is an integer ([None] when it has a fractional part or is [NaN]).  The
    remainder of a division of doubles is exact; it has the sign of [n], and
    is [n] itself when [d] is infinite. *)
Definition integer_remainder (n : Z) (d : double) : option Z :=
  match d with
  | S754_finite _ m e =>
      if 0 <=? e then Some (n mod (Z.pos m * 2 ^ e))
      else
        let r := (n * 2 ^ (- e)) mod Z.pos m in
        if r mod 2 ^ (- e) =? 0 then Some (r / 2 ^ (- e)) else None
  | S754_infinity _ => Some n
  | _ => None
  end.

(** The delay of the timer [setTimeout(f, ms)] starts: the integer part
    of [ms] when [ms] is at least 1 and at most 2^31 - 1, and 1 otherwise
    ([NaN] included). *)
Definition timer_delay (ms : double) : Z :=
  if integer_le 1 ms && integer_ge (2 ^ 31 - 1) ms then ToLength ms else 1.

(** The literals [0.5] and [1.5]. *)
Definition half : double := double_div (to_double 1) (to_double 2).
Definition one_and_a_half : double := double_div (to_double 3) (to_double 2).

End JSMath.

Export JSMath.

Module FsDir.

(** [p] without the prefix [pre], when it starts with it. *)
Fixpoint strip (pre p : string) : option string :=
  match pre with
  | EmptyString => Some p
  | String a pre' =>
      match p with
      | EmptyString => None
      | String b p' => if Ascii.eqb a b then strip pre' p' else None
      end
  end.

(** The name under which path [p] is an entry of directory [d]: [p] is
    [d/name] and [name] has no further separator. *)
Definition entry_name (d p : string) : option string :=
  match strip (d +:+ "/") p with
  | Some name =>
      if String.eqb name "" || includes name "/" then None else Some name
  | None => None
  end.

(** [fs.readdirSync(d)]: the names of the files and directories right
    below [d], in no order one can rely on; it throws when [d] is not a
    directory. *)
Definition readdirSync (w : world) (d : string) : res (list string) :=
  if bool_decide (d ∈ dirs w) then
    Ok (omap (entry_name d) ((map_to_list (files w)).*1 ++ elements (dirs w)))
  else Throw IOError.

End FsDir.

Export FsDir.

(* ===================================================================== *)
(** ** src/utils/RetryHelpers.ts                                          *)
(* ===================================================================== *)

Module RetryHelpers.

(** [interface FailedTest].  The four fields copied out of a report hold
    whatever the report holds there. *)
Record FailedTest := {
  scenarioName : jsval;
  featureFile : jsval;
  line : jsval;
  error : jsval;
  timestamp : string;
  attempt : Z
}.

Definition FAILED_TESTS_FILE : string := "test-results/failed-tests.json".
Definition RETRY_REPORT_FILE : string := "reports/retry-report.json".
(** [path.dirname] of the two paths above. *)
Definition FAILED_TESTS_DIR : string := "test-results".

(** The object [JSON.stringify] writes for a record: properties whose
    value is [undefined] are left out. *)
Definition field (k : string) (v : jsval) : list (string * json) :=
  match v with
  | Some j => [(k, j)]
  | None => []
  end.

Definition to_json (t : FailedTest) : json :=
  JObj (field "scenarioName" (scenarioName t)
        ++ field "featureFile" (featureFile t)
        ++ field "line" (line t)
        ++ field "error" (error t)
        ++ [("timestamp", JStr (timestamp t)); ("attempt", JNum (attempt t))]).

(** [getFailedTests()]: the parsed registry, whatever JSON it holds; the
    empty array when the file is absent or unreadable. *)
Definition getFailedTests : eff json :=
  catch
    (present ← fs_exists FAILED_TESTS_FILE;
     if (present : bool) then
       content ← fs_read FAILED_TESTS_FILE;
       lift (JSON_parse content)
     else mret (JArr []))
    (fun _ =>
       _ ← log (Warn "Could not read failed tests file:");
       mret (JArr [])).

(** [saveFailedTest(failedTest)] *)
Definition saveFailedTest (failedTest : FailedTest) : eff unit :=
  catch
    (existingFailed ← getFailedTests;
     l ← lift (as_array (Some existingFailed));
     let existingFailed' := JArr (l ++ [to_json failedTest]) in
     present ← fs_exists FAILED_TESTS_DIR;
     _ ← (if (present : bool) then mret tt else fs_mkdir FAILED_TESTS_DIR);
     _ ← fs_write_checked FAILED_TESTS_FILE (JSON_stringify existingFailed');
     name ← lift (to_string_value (scenarioName failedTest));
     log (Info ("Saved failed test: " +:+ name)))
    (fun _ => log (Error "Failed to save failed test information:")).

(** [clearFailedTests()] *)
Definition clearFailedTests : eff unit :=
  catch
    (present ← fs_exists FAILED_TESTS_FILE;
     if (present : bool) then
       _ ← fs_unlink FAILED_TESTS_FILE;
       log (Info "Cleared failed tests list")
     else mret tt)
    (fun _ => log (Error "Failed to clear failed tests:")).

(** The double-quote character. *)
Definition dquote_char : Ascii.ascii := Eval cbv in Ascii.ascii_of_nat 34.
Definition dquote : string := String dquote_char EmptyString.

(** [[...new Set(l)]]: first occurrences, in order.  Set membership
    coincides with [===] on everything JSON can hold. *)
Definition uniq (l : list jsval) : list jsval :=
  fold_left
    (fun seen v => if existsb (strict_eq v) seen then seen else seen ++ [v])
    l [].

(** [generateRetryCommand()]: [null] is [None]. *)
Definition generateRetryCommand : eff (option string) :=
  failedTests ← getFailedTests;
  len ← lift (length_prop (Some failedTests));
  if strict_eq len (Some (JNum 0)) then
    _ ← log (Info "No failed tests to retry");
    mret None
  else
    tests ← lift (as_array (Some failedTests));
    files ← lift (mapM (fun test => prop (Some test) "featureFile") tests);
    let featureFiles := uniq files in
    quoted ← lift (mapM (fun test =>
                           name ← prop (Some test) "scenarioName";
                           name ← to_string_value name;
                           mret (dquote +:+ name +:+ dquote)) tests);
    let scenarios := String.concat " " quoted in
    features ← lift (array_join " " featureFiles);
    mret (Some ("cucumber-js " +:+ features +:+ " --name " +:+ dquote
                +:+ remove_char dquote_char scenarios +:+ dquote)).

(** [step.result?.status === 'failed'] *)
Definition step_failed (step : json) : res bool :=
  result ← prop (Some step) "result";
  status ← opt_prop result "status";
  mret (strict_eq status (Some (JStr "failed"))).

(** The body of the inner [forEach] callback: one scenario of one
    feature, [failedTests] being the array filled so far. *)
Definition scan_scenario (now : string) (feature : json)
    (failedTests : list FailedTest) (scenario : json) : res (list FailedTest) :=
  steps ← prop (Some scenario) "steps";
  hasFailedSteps ←
    match steps with
    | None | Some JNull => mret false
    | _ => l ← as_array steps; array_some step_failed l
    end;
  if (hasFailedSteps : bool) then
    steps' ← prop (Some scenario) "steps";
    l ← as_array steps';
    failedStep ← array_find step_failed l;
    name ← prop (Some scenario) "name";
    uri ← prop (Some feature) "uri";
    file ← (if truthy uri then mret uri else prop (Some feature) "name");
    ln ← prop (Some scenario) "line";
    result ← opt_prop failedStep "result";
    message ← opt_prop result "error_message";
    mret (failedTests ++
            [{| scenarioName := name;
                featureFile := file;
                line := or_else ln (Some (JNum 0));
                error := or_else message (Some (JStr "Unknown error"));
                timestamp := now;
                attempt := 1 |}])
  else mret failedTests.

(** The body of the outer [forEach] callback. *)
Definition scan_feature (now : string) (failedTests : list FailedTest)
    (feature : json) : res (list FailedTest) :=
  elements ← prop (Some feature) "elements";
  match elements with
  | None | Some JNull => mret failedTests
  | _ => l ← as_array elements; for_each (scan_scenario now feature) l failedTests
  end.

(** [reportData.forEach(...)] starting from an empty [failedTests]. *)
Definition scan_report (now : string) (reportData : json) : res (list FailedTest) :=
  features ← as_array (Some reportData);
  for_each (scan_feature now) features [].

(** [parseFailedTestsFromReport(reportPath)]; [now] is what
    [new Date().toISOString()] yields. *)
Definition parseFailedTestsFromReport (now : string) (reportPath : string)
  : eff (list FailedTest) :=
  catch
    (present ← fs_exists reportPath;
     if negb present then
       _ ← log (Warn ("Report file not found: " +:+ reportPath));
       mret []
     else
       content ← fs_read reportPath;
       reportData ← lift (JSON_parse content);
       lift (scan_report now reportData))
    (fun _ =>
       _ ← log (Error "Failed to parse report for failed tests:");
       mret []).

(** The object literal [retryReport]. *)
Record RetryReport := {
  report_timestamp : string;
  originalFailures : Z;
  retriedTests : Z;
  stillFailing : Z;
  recovered : Z;
  successRate : string;
  details_originalFailed : list FailedTest;
  details_retryResults : list FailedTest;
  details_recovered : list FailedTest
}.

(** [((a.length - b.length) / a.length * 100).toFixed(2)] on IEEE-754
    doubles. *)
Definition success_rate (originalLength retryLength : Z) : string :=
  toFixed2
    (double_mul
       (double_div (double_sub (to_double originalLength) (to_double retryLength))
                   (to_double originalLength))
       (to_double 100)).

Definition retryReport (now : string) (originalFailed retryResults : list FailedTest)
  : RetryReport :=
  let n := Z.of_nat (length originalFailed) in
  let m := Z.of_nat (length retryResults) in
  {| report_timestamp := now;
     originalFailures := n;
     retriedTests := n;
     stillFailing := m;
     recovered := n - m;
     successRate := success_rate n m;
     details_originalFailed := originalFailed;
     details_retryResults := retryResults;
     details_recovered :=
       List.filter
         (fun original =>
            negb (existsb
                    (fun retry => strict_eq (scenarioName retry) (scenarioName original))
                    retryResults))
         originalFailed |}.



End RetryHelpers.

(** The helpers of the same file that do not touch the registry:
    [retryWithBackoff], [shouldRetryTest], [getRetryStatistics]. *)
Module RetryPolicy.

Import RetryHelpers.

(** What [retryWithBackoff] does besides calling the operation: the line
    [Retry attempt ${attempt}/${maxRetries} in ${delay}ms...] on the console,
    and a pause whose timer is started with so many milliseconds. *)
Inductive effect :=
| Announced (attempt : Z) (maxRetries delay : double)
| Slept (ms : Z).

Section RetryWithBackoff.

Context {St T E : Type}.

(** The operation is a closure: it runs in the state [St] of its free
    variables and of whatever it acts on, and resolves with a value or
    rejects with an error. *)
Variable operation : St -> (T + E) * St.
Variables maxRetries baseDelay : double.

(** [attempt++]: the counter is an integer held exactly up to 2^53, where
    adding 1 no longer changes it. *)
Definition increment (attempt : Z) : Z :=
  if attempt <? 2 ^ 53 then attempt + 1 else attempt.

(** The [for] loop of [retryWithBackoff] from the test [attempt <=
    maxRetries] on; [lastError] is [None] while the variable is unassigned.
    The loop need not end (an operation that fails for ever, with
    [maxRetries] infinite): [fuel] bounds the number of tests made, and the
    result is [None] when it runs out. *)
Fixpoint backoff_loop (fuel : nat) (attempt : Z) (lastError : option E)
    (st : St) (done : list effect) : option ((T + option E) * St * list effect) :=
  match fuel with
  | O => None
  | S fuel' =>
      if integer_le attempt maxRetries then
        match operation st with
        | (inl value, st') => Some (inl value, st', done)
        | (inr error, st') =>
            if integer_eq attempt maxRetries then Some (inr (Some error), st', done)
            else
              let delay := double_mul baseDelay (Math_pow2 (attempt - 1)) in
              backoff_loop fuel' (increment attempt) (Some error) st'
                (done ++ [Announced attempt maxRetries delay; Slept (timer_delay delay)])
        end
      else Some (inr lastError, st, done)
  end.

End RetryWithBackoff.

(** [retryWithBackoff(operation, maxRetries = 3, baseDelay = 1000)]: the
    completion ([inr None] is [throw undefined]), the state the operation is
    left in, and what was printed and slept, in order. *)
Definition retryWithBackoff {St T E : Type} (operation : St -> (T + E) * St)
    (maxRetries baseDelay : option double) (fuel : nat) (st : St)
  : option ((T + option E) * St * list effect) :=
  let maxRetries := default (to_double 3) maxRetries in
  let baseDelay := default (to_double 1000) baseDelay in
  backoff_loop operation maxRetries baseDelay fuel 1 None st [].

Definition retryableErrors : list string :=
  ["timeout"; "network"; "connection"; "element not found"; "page crash";
   "browser disconnect"].

(** [shouldRetryTest(error)] *)
Definition shouldRetryTest (error : string) : bool :=
  existsb (fun retryableError => includes (toLowerCase error) retryableError)
    retryableErrors.

(** The object [getRetryStatistics] returns.  The three counts are what
    the summary holds under their names, the rate is a number. *)
Record RetryStatistics := {
  totalRetries : jsval;
  successfulRetries : jsval;
  permanentFailures : jsval;
  retrySuccessRate : double
}.

Definition no_statistics : RetryStatistics :=
  {| totalRetries := Some (JNum 0);
     successfulRetries := Some (JNum 0);
     permanentFailures := Some (JNum 0);
     retrySuccessRate := to_double 0 |}.

Section GetRetryStatistics.

(** The builtin [parseFloat]. *)
Variable parseFloat : jsval -> double.

(** [getRetryStatistics()] *)
Definition getRetryStatistics : eff RetryStatistics :=
  found ← catch
    (present ← fs_exists RETRY_REPORT_FILE;
     if (present : bool) then
       content ← fs_read RETRY_REPORT_FILE;
       retryData ← lift (JSON_parse content);
       retried ← lift (prop (Some retryData) "retriedTests");
       recovered ← lift (prop (Some retryData) "recovered");
       still ← lift (prop (Some retryData) "stillFailing");
       rate ← lift (prop (Some retryData) "successRate");
       mret (Some {| totalRetries := or_else retried (Some (JNum 0));
                     successfulRetries := or_else recovered (Some (JNum 0));
                     permanentFailures := or_else still (Some (JNum 0));
                     retrySuccessRate :=
                       if number_truthy (parseFloat rate) then parseFloat rate
                       else to_double 0 |})
     else mret None)
    (fun _ =>
       _ ← log (Warn "Could not read retry statistics:");
       mret None);
  mret (default no_statistics found).

End GetRetryStatistics.

End RetryPolicy.

(* ===================================================================== *)
(** ** src/utils/ParallelHelpers.ts                                       *)
(* ===================================================================== *)

Module ParallelHelpers.

(** What the functions read from [os] and [process.env]: the number of
    logical CPUs, total and free memory in bytes, and the environment
    variables that are set. *)
Record machine := {
  cpuCount : Z;
  totalmem : Z;
  freemem : Z;
  env : gmap string string
}.

(** A JavaScript number that is an integer or [NaN] ([None]). *)
Definition int_or_nan := option Z.

Definition code (a : Ascii.ascii) : Z := Z.of_nat (Ascii.nat_of_ascii a).

(** White space skipped by [parseInt]: tab, line feed, vertical tab,
    form feed, carriage return, space. *)
Definition is_space (a : Ascii.ascii) : bool :=
  ((9 <=? code a) && (code a <=? 13)) || (code a =? 32).

Fixpoint skip_spaces (s : string) : string :=
  match s with
  | String a rest => if is_space a then skip_spaces rest else s
  | EmptyString => s
  end.

Definition digit (a : Ascii.ascii) : option Z :=
  if (48 <=? code a) && (code a <=? 57) then Some (code a - 48) else None.

(** The value of the longest prefix of decimal digits, [acc] being the
    value read so far ([None]: no digit yet). *)
Fixpoint digits (s : string) (acc : option Z) : option Z :=
  match s with
  | String a rest =>
      match digit a with
      | Some d => digits rest (Some (10 * default 0 acc + d))
      | None => acc
      end
  | EmptyString => acc
  end.

(** [parseInt(s, 10)] on ASCII text: leading white space, an optional
    sign, then as many decimal digits as there are; [NaN] when there is none.
    The digits give the exact integer, as they do in JavaScript up to 2^53.
    (In other text the builtin skips the white space of Unicode too, and it
    rounds a larger value to a double: the statements about [parseInt10] are
    for ASCII text and for values up to 2^53.) *)
Definition parseInt10 (s : string) : int_or_nan :=
  match skip_spaces s with
  | String a rest =>
      if code a =? 45 then Z.opp <$> digits rest None
      else if code a =? 43 then digits rest None
      else digits (String a rest) None
  | EmptyString => None
  end.

(** [process.env.X], and the truthiness of such a value: set and not
    empty. *)
Definition getenv (m : machine) (x : string) : option string := env m !! x.

Definition is_set (v : option string) : bool :=
  match v with
  | Some s => negb (String.eqb s "")
  | None => false
  end.

(** [a || b] on environment values. *)
Definition first_set (a b : option string) : option string :=
  if is_set a then a else b.

(** [getOptimalWorkerCount()].  [cpuCount * 0.5], the division of the
    byte count by 2^30 and the division by 0.5 are exact on doubles
    (scalings by powers of two), so the two [Math.floor] calls are the
    integer quotients by 2 and by 2^29. *)
Definition getOptimalWorkerCount (m : machine) : Z :=
  let workers := Z.max 1 (cpuCount m / 2) in
  let maxWorkersByMemory := totalmem m / 2 ^ 29 in
  let workers := Z.min workers maxWorkersByMemory in
  Z.min workers 8.

(** [getWorkerCount()] *)
Definition getWorkerCount (m : machine) : Z :=
  let envWorkers :=
    first_set (getenv m "CUCUMBER_WORKERS") (getenv m "PLAYWRIGHT_WORKERS") in
  if is_set envWorkers then
    match parseInt10 (default "" envWorkers) with
    | None => getOptimalWorkerCount m
    | Some count => Z.max 1 count
    end
  else getOptimalWorkerCount m.

(** [isCI()] *)
Definition isCI (m : machine) : bool :=
  is_set (getenv m "CI") || is_set (getenv m "GITHUB_ACTIONS")
  || is_set (getenv m "JENKINS_URL") || is_set (getenv m "BUILDKITE")
  || is_set (getenv m "CIRCLECI").

(** [getCIWorkerCount()]: [Math.max(1, NaN)] is [NaN]. *)
Definition getCIWorkerCount (m : machine) : int_or_nan :=
  let ciWorkers := getenv m "CI_WORKERS" in
  if is_set ciWorkers then Z.max 1 <$> parseInt10 (default "" ciWorkers)
  else Some 2.

(** [getRecommendedWorkerCount()] *)
Definition getRecommendedWorkerCount (m : machine) : int_or_nan :=
  if isCI m then getCIWorkerCount m else Some (getWorkerCount m).

(** The body of the [forEach] callback of [splitScenariosAcrossWorkers]:
    [chunks[workerIndex]] is [undefined] when [index % workerCount] is no
    index of the array ([NaN], a fraction, or beyond its end), and then
    nothing is pushed. *)
Definition push_scenario {T} (workerCount : double) (chunks : list (list T))
    (entry : nat * T) : list (list T) :=
  let '(index, scenario) := entry in
  match integer_remainder (Z.of_nat index) workerCount with
  | Some workerIndex =>
      match chunks !! Z.to_nat workerIndex with
      | Some chunk => <[Z.to_nat workerIndex := chunk ++ [scenario]]> chunks
      | None => chunks
      end
  | None => chunks
  end.

(** [splitScenariosAcrossWorkers(scenarios, workerCount)].
    [Array.from({ length: workerCount }, () => [])] makes ToLength of
    [workerCount] empty chunks, and throws when that is beyond the largest
    length of an array, 2^32 - 1. *)
Definition splitScenariosAcrossWorkers {T} (scenarios : list T) (workerCount : double)
  : res (list (list T)) :=
  let len := ToLength workerCount in
  if 2 ^ 32 <=? len then Throw RangeError
  else
    let chunks := replicate (Z.to_nat len) [] in
    let chunks :=
      fold_left (push_scenario workerCount)
                (zip (seq 0 (length scenarios)) scenarios) chunks in
    Ok (filter (fun chunk => (0 < length chunk)%nat) chunks).

End ParallelHelpers.

(** The estimates and checks of the same file: [calculateTimeReduction],
    [getSystemInfo], [validateWorkerConfig]. *)
Module ParallelReport.

Import ParallelHelpers.

(** A number that is an integer or [NaN], as a double. *)
Definition number (n : int_or_nan) : double :=
  match n with
  | Some z => to_double z
  | None => S754_nan
  end.

(** The object [calculateTimeReduction] returns. *)
Record TimeReduction := {
  estimatedReduction : double;
  parallelTime : double;
  sequentialTime : double
}.

(** [calculateTimeReduction(totalScenarios, workerCount)] *)
Definition calculateTimeReduction (totalScenarios workerCount : double) : TimeReduction :=
  let avgScenarioTime := to_double 30 in
  let sequentialTime := double_mul totalScenarios avgScenarioTime in
  let parallelTime :=
    double_mul (Math_ceil (double_div totalScenarios workerCount)) avgScenarioTime in
  let estimatedReduction :=
    double_mul (double_div (double_sub sequentialTime parallelTime) sequentialTime)
      (to_double 100) in
  {| estimatedReduction := Math_round estimatedReduction;
     parallelTime := parallelTime;
     sequentialTime := sequentialTime |}.

(** The object [getSystemInfo] returns. *)
Record SystemInfo := {
  cpuCount : Z;
  totalMemoryGB : double;
  freeMemoryGB : double;
  platform : string;
  recommendedWorkers : int_or_nan
}.

(** [Math.round(bytes / (1024 * 1024 * 1024) * 100) / 100] *)
Definition gigabytes (bytes : Z) : double :=
  double_div
    (Math_round
       (double_mul (double_div (to_double bytes) (to_double (1024 * 1024 * 1024)))
          (to_double 100)))
    (to_double 100).

(** [getSystemInfo()], [os_platform] being what [os.platform()] yields. *)
Definition getSystemInfo (os_platform : string) (m : machine) : SystemInfo :=
  {| cpuCount := ParallelHelpers.cpuCount m;
     totalMemoryGB := gigabytes (totalmem m);
     freeMemoryGB := gigabytes (freemem m);
     platform := os_platform;
     recommendedWorkers := getRecommendedWorkerCount m |}.

(** The messages of [validateWorkerConfig]: each stands for its template,
    and carries the numbers the template interpolates. *)
Inductive warning :=
| ExceedsCpuCores (workerCount : double) (cpuCount : Z)
| ExceedsFreeMemory (estimatedMemoryUsage freeMemoryGB : double)
| VeryHighWorkerCount (workerCount : double)
| SingleWorker.

Inductive recommendation :=
| ReduceToCpuCores (cpuCount : Z)
| ReduceToMemory (workers : double)
| CapAtEight
| UseRecommended (recommendedWorkers : int_or_nan).

Record Validation := {
  isValid : bool;
  warnings : list warning;
  recommendations : list recommendation
}.

(** [validateWorkerConfig(workerCount)] *)
Definition validateWorkerConfig (os_platform : string) (m : machine)
    (workerCount : double) : Validation :=
  let systemInfo := getSystemInfo os_platform m in
  let v := {| isValid := true; warnings := []; recommendations := [] |} in
  let v :=
    if number_gt workerCount (to_double (cpuCount systemInfo)) then
      {| isValid := isValid v;
         warnings := warnings v ++ [ExceedsCpuCores workerCount (cpuCount systemInfo)];
         recommendations := recommendations v ++ [ReduceToCpuCores (cpuCount systemInfo)] |}
    else v in
  let estimatedMemoryUsage := double_mul workerCount half in
  let v :=
    if number_gt estimatedMemoryUsage (freeMemoryGB systemInfo) then
      {| isValid := false;
         warnings :=
           warnings v ++ [ExceedsFreeMemory estimatedMemoryUsage (freeMemoryGB systemInfo)];
         recommendations :=
           recommendations v
           ++ [ReduceToMemory (Math_floor (double_div (freeMemoryGB systemInfo) half))] |}
    else v in
  let v :=
    if number_gt workerCount (to_double 8) then
      {| isValid := isValid v;
         warnings := warnings v ++ [VeryHighWorkerCount workerCount];
         recommendations := recommendations v ++ [CapAtEight] |}
    else v in
  if number_eq workerCount (to_double 1) then
    {| isValid := isValid v;
       warnings := warnings v ++ [SingleWorker];
       recommendations :=
         recommendations v ++ [UseRecommended (recommendedWorkers systemInfo)] |}
  else v.

End ParallelReport.

(* ===================================================================== *)
(** ** src/config/EnvironmentConfig.ts                                    *)
(* ===================================================================== *)

Module EnvironmentManager.

(** The singleton's two private fields, with the process environment
    and the world the loader reads its files from.  [config] is [None]
    while the field is [null]. *)
Record state := State {
  config : option json;
  currentEnvironment : string;
  process_env : gmap string string;
  io : world
}.

(** The state right after [getInstance()] built the singleton. *)
Definition initial (penv : gmap string string) (w : world) : state :=
  State None "dev" penv w.

(** [path.join(__dirname, 'environments', name + '.json')], as the
    plain concatenation of its segments. *)
Definition config_path (dirname name : string) : string :=
  dirname +:+ "/environments/" +:+ name +:+ ".json".

(** [loadConfigFile(filePath)] *)
Definition loadConfigFile (w : world) (filePath : string) : res json :=
  if negb (existsSync w filePath) then
    Throw (Error_ ("Configuration file not found: " +:+ filePath))
  else
    content ← readFileSync w filePath;
    JSON_parse content.

(** The own enumerable properties of a value, as [{ ...v }] and
    [for (key in v)] see them: the entries of an object, the indexed
    elements of an array, the indexed characters of a string, nothing
    otherwise. *)
Definition own_props (v : jsval) : list (string * json) :=
  match v with
  | Some (JObj kvs) => kvs
  | Some (JArr l) => imap (fun i x => (pretty i, x)) l
  | Some (JStr s) =>
      imap (fun i c => (pretty i, JStr (String c EmptyString))) (String.list_ascii_of_string s)
  | _ => []
  end.

(** [o[k] = v] on the property list of [o]. *)
Fixpoint assign (k : string) (v : json) (o : list (string * json))
  : list (string * json) :=
  match o with
  | [] => [(k, v)]
  | (k', v') :: rest =>
      if String.eqb k k' then (k, v) :: rest else (k', v') :: assign k v rest
  end.

(** [{ ...a, ...b }] *)
Definition spread2 (a b : jsval) : list (string * json) :=
  fold_left (fun o kv => assign kv.1 kv.2 o) (own_props b) (own_props a).

(** [typeof v === 'object' && !Array.isArray(v)] *)
Definition plain_object (v : json) : bool :=
  match v with
  | JNull | JObj _ => true
  | _ => false
  end.

(** What the setter of [Object.prototype.__proto__] does with [value]: an
    object or an array becomes the prototype of [merged], any other value is
    ignored.  [merged] is kept as what its properties read as: its own
    entries first, then those of its prototype, then [__proto__] itself. *)
Definition set_prototype (value : json) (merged : list (string * json))
  : list (string * json) :=
  match value with
  | JObj kvs => merged ++ kvs ++ [("__proto__", value)]
  | JArr l =>
      merged ++ own_props (Some value)
        ++ [("length", JNum (Z.of_nat (length l))); ("__proto__", value)]
  | _ => merged
  end.

(** [merged[key] = value]: an entry of [merged] is made or replaced; for
    the key [__proto__], when [merged] has no entry of that name, the
    inherited setter runs instead. *)
Definition set_entry (key : string) (value : json) (merged : list (string * json))
  : list (string * json) :=
  match assoc key merged with
  | None => if String.eqb key "__proto__" then set_prototype value merged
            else assign key value merged
  | Some _ => assign key value merged
  end.

(** The loop of [mergeConfigs] over the properties of [override]. *)
Definition merge_into (merged : list (string * json)) (override : json)
  : list (string * json) :=
  fold_left
    (fun merged kv =>
       let '(key, value) := kv in
       if plain_object value then
         set_entry key (JObj (spread2 (assoc key merged) (Some value))) merged
       else set_entry key value merged)
    (own_props (Some override)) merged.

(** [mergeConfigs(base, override)].  The loop calls
    [override.hasOwnProperty]: an override object that has an entry of that
    name hides the inherited method, and the call throws. *)
Definition mergeConfigs (base override : json) : res json :=
  match override with
  | JObj kvs =>
      match assoc "hasOwnProperty" kvs with
      | Some _ => Throw TypeError
      | None => Ok (JObj (merge_into (own_props (Some base)) override))
      end
  | _ => Ok (JObj (merge_into (own_props (Some base)) override))
  end.

(** [a || b] on optional strings. *)
Definition nonempty (v : option string) : bool :=
  match v with
  | Some s => negb (String.eqb s "")
  | None => false
  end.

(** [environment || process.env.TEST_ENV || process.env.NODE_ENV || 'dev'] *)
Definition resolve (environment : option string) (penv : gmap string string)
  : string :=
  if nonempty environment then default "" environment
  else if nonempty (penv !! "TEST_ENV") then default "" (penv !! "TEST_ENV")
  else if nonempty (penv !! "NODE_ENV") then default "" (penv !! "NODE_ENV")
  else "dev".

Section Loader.

(** [__dirname] of the compiled module. *)
Variable dirname : string.

(** The statements of the [try] block, from the state in which
    [currentEnvironment] is already assigned: the completion and the
    state at that point. *)
Definition load_body (env : string) (st : state) : res json * state :=
  match loadConfigFile (io st) (config_path dirname "base") with
  | Throw e => (Throw e, st)
  | Ok baseConfig =>
      match loadConfigFile (io st) (config_path dirname env) with
      | Throw e => (Throw e, st)
      | Ok envConfig =>
          match mergeConfigs baseConfig envConfig with
          | Throw e => (Throw e, st)
          | Ok merged =>
              let st1 :=
                State (Some merged) (currentEnvironment st) (process_env st) (io st) in
              match (e ← prop (Some merged) "environment";
                     name ← prop e "name";
                     to_string_value name) with
              | Throw e => (Throw e, st1)
              | Ok name =>
                  (Ok merged,
                   State (Some merged) (currentEnvironment st) (process_env st)
                     (print (io st)
                        (Info ("Loaded environment: " +:+ name
                               +:+ " (" +:+ env +:+ ")"))))
              end
          end
      end
  end.

(** [loadEnvironment(environment?)] *)
Definition loadEnvironment (environment : option string) (st : state)
  : res json * state :=
  let env := resolve environment (process_env st) in
  let st0 := State (config st) env (process_env st) (io st) in
  match load_body env st0 with
  | (Ok c, st') => (Ok c, st')
  | (Throw _, st') =>
      (Throw (Error_ ("Environment configuration not found for: " +:+ env)),
       State (config st') (currentEnvironment st') (process_env st')
         (print (io st')
            (Error ("Failed to load environment config for '" +:+ env +:+ "':"))))
  end.

(** [getConfig()] *)
Definition getConfig (st : state) : res json * state :=
  match config st with
  | None => loadEnvironment None st
  | Some c => (Ok c, st)
  end.

(** [getCurrentEnvironment()] *)
Definition getCurrentEnvironment (st : state) : string :=
  currentEnvironment st.

End Loader.

End EnvironmentManager.

(** The accessors of the same class, and [getAvailableEnvironments]. *)
Module EnvironmentAccess.

Import EnvironmentManager.

(** [entries.filter(file => file.endsWith('.json') && file !== 'base.json')
            .map(file => file.replace('.json', ''))] *)
Definition environment_names (entries : list string) : list string :=
  map (fun file => remove_first file ".json")
    (List.filter (fun file => endsWith file ".json" && negb (String.eqb file "base.json"))
       entries).

Section Loader.

Variable dirname : string.

(** [this.getConfig().section] *)
Definition config_section (section : string) (st : state) : res jsval * state :=
  match getConfig dirname st with
  | (Ok c, st') => (prop (Some c) section, st')
  | (Throw e, st') => (Throw e, st')
  end.

(** [this.getConfig().section.field] *)
Definition config_field (section field : string) (st : state) : res jsval * state :=
  match config_section section st with
  | (Ok s, st') => (prop s field, st')
  | (Throw e, st') => (Throw e, st')
  end.

Definition getBaseUrl := config_field "application" "baseUrl".
Definition getSearchUrl := config_field "application" "searchUrl".
Definition getApiUrl := config_field "application" "apiUrl".
Definition getDefaultUser := config_field "users" "defaultUser".
Definition getTestUsers := config_field "users" "testUsers".
Definition getBrowserConfig := config_section "browser".
Definition getTestConfig := config_section "test".
Definition getLoggingConfig := config_section "logging".

(** [getAvailableEnvironments()] *)
Definition getAvailableEnvironments (st : state) : list string * state :=
  let envDir := dirname +:+ "/environments" in
  match readdirSync (io st) envDir with
  | Ok entries => (environment_names entries, st)
  | Throw _ =>
      (["dev"; "staging"; "prod"],
       State (config st) (currentEnvironment st) (process_env st)
         (print (io st) (Warn "Could not read environments directory:")))
  end.

End Loader.

End EnvironmentAccess.

(** [RetryHelpers.getRetryConfig], which reads the configuration through
    the manager. *)
Module RetrySettings.

Import EnvironmentManager.

(** [interface RetryConfig].  Each field is what the configuration holds,
    or the literal on the right of [||]; the literal [1.5] is no JSON value
    of the model, so the field that can hold it is a JSON value or a
    number. *)
Record RetryConfig := {
  maxRetries : jsval;
  retryDelay : jsval;
  retryOnlyFailures : jsval;
  retryTimeoutMultiplier : json + double;
  failFast : jsval
}.

(** [config.test.k] *)
Definition test_entry (config : json) (k : string) : res jsval :=
  test ← prop (Some config) "test";
  prop test k.

Section Loader.

Variable dirname : string.

(** [getRetryConfig()] *)
Definition getRetryConfig (st : state) : res RetryConfig * state :=
  match getConfig dirname st with
  | (Throw e, st') => (Throw e, st')
  | (Ok config, st') =>
      (retries ← test_entry config "retries";
       retryDelay ← test_entry config "retryDelay";
       retryOnlyFailures ← test_entry config "retryOnlyFailures";
       retryTimeoutMultiplier ← test_entry config "retryTimeoutMultiplier";
       failFast ← test_entry config "failFast";
       mret {| maxRetries := or_else retries (Some (JNum 2));
               retryDelay := or_else retryDelay (Some (JNum 1000));
               retryOnlyFailures := or_else retryOnlyFailures (Some (JBool true));
               retryTimeoutMultiplier :=
                 match retryTimeoutMultiplier with
                 | Some v =>
                     if truthy retryTimeoutMultiplier then inl v else inr one_and_a_half
                 | None => inr one_and_a_half
                 end;
               failFast := or_else failFast (Some (JBool false)) |},
       st')
  end.

End Loader.

End RetrySettings.

(* ===================================================================== *)
(** ** src/config/environment-loader.js                                   *)
(* ===================================================================== *)

Module EnvironmentLoader.

(** How an evaluation inside the script ends: with a value, with an
    exception, or with [process.exit]. *)
Inductive completion (A : Type) :=
| Done (a : A)
| Raised (e : exn)
| Exited (code : Z).
Arguments Done {A} a.
Arguments Raised {A} e.
Arguments Exited {A} code.

(** The process the script runs in: its environment variables, and the
    files and console it sees. *)
Record process := Process {
  variables : gmap string string;
  stdio : world
}.

Definition proc (A : Type) : Type := process -> completion A * process.

Definition proc_ret {A} (a : A) : proc A := fun p => (Done a, p).

Definition proc_bind {A B} (m : proc A) (k : A -> proc B) : proc B :=
  fun p =>
    match m p with
    | (Done a, p') => k a p'
    | (Raised e, p') => (Raised e, p')
    | (Exited code, p') => (Exited code, p')
    end.

(** A pure evaluation. *)
Definition pure {A} (r : res A) : proc A :=
  fun p => (match r with Ok a => Done a | Throw e => Raised e end, p).

(** [process.env[k] = v]: the value is converted to a string. *)
Definition setenv (k : string) (v : jsval) : proc unit :=
  fun p =>
    match to_string_value v with
    | Ok s => (Done tt, Process (<[k := s]> (variables p)) (stdio p))
    | Throw e => (Raised e, p)
    end.

Definition say (l : log_line) : proc unit :=
  fun p => (Done tt, Process (variables p) (print (stdio p) l)).

(** [process.exit(code)] *)
Definition exit {A} (code : Z) : proc A := fun p => (Exited code, p).

End EnvironmentLoader.

#[export] Instance proc_mbind : MBind EnvironmentLoader.proc :=
  fun A B k m => EnvironmentLoader.proc_bind m k.
#[export] Instance proc_mret : MRet EnvironmentLoader.proc :=
  @EnvironmentLoader.proc_ret.

Module EnvironmentLoaderScript.

Import EnvironmentManager EnvironmentAccess EnvironmentLoader.

Section Script.

(** [__dirname] of the script. *)
Variable dirname : string.

(** [getAvailableEnvironments()]: the chain of the manager's function of
    that name, without the warning. *)
Definition getAvailableEnvironments : proc (list string) :=
  fun p =>
    (Done match readdirSync (stdio p) (dirname +:+ "/environments") with
          | Ok entries => environment_names entries
          | Throw _ => ["dev"; "staging"; "prod"]
          end, p).

(** [config.a.b] *)
Definition entry (config : json) (a b : string) : proc jsval :=
  pure (x ← prop (Some config) a; prop x b).

(** [loadEnvironmentConfig(env)].  Of the lines it prints the text is kept;
    the list of environments, which the console prints in its own notation,
    is given by its names. *)
Definition loadEnvironmentConfig (env : string) : proc json :=
  let configPath := config_path dirname env in
  present ← (fun p => (Done (existsSync (stdio p) configPath), p));
  _ ← (if negb present then
         _ ← say (Error ("Environment configuration not found: " +:+ env));
         available ← getAvailableEnvironments;
         _ ← say (Info ("Available environments: " +:+ String.concat ", " available));
         exit 1
       else mret tt);
  config ← (fun p => pure (content ← readFileSync (stdio p) configPath;
                           JSON_parse content) p);
  _ ← setenv "TEST_ENV" (Some (JStr env));
  baseUrl ← entry config "application" "baseUrl";
  _ ← setenv "BASE_URL" baseUrl;
  searchUrl ← entry config "application" "searchUrl";
  _ ← setenv "SEARCH_URL" searchUrl;
  apiUrl ← entry config "application" "apiUrl";
  _ ← setenv "API_URL" apiUrl;
  headless ← entry config "browser" "headless";
  headless ← pure (toString_method headless);
  _ ← setenv "HEADLESS" (Some (JStr headless));
  workers ← entry config "test" "workers";
  workers ← pure (toString_method workers);
  _ ← setenv "CUCUMBER_WORKERS" (Some (JStr workers));
  timeout ← entry config "test" "timeout";
  timeout ← pure (toString_method timeout);
  _ ← setenv "TEST_TIMEOUT" (Some (JStr timeout));
  retries ← entry config "test" "retries";
  retries ← pure (toString_method retries);
  _ ← setenv "RETRIES" (Some (JStr retries));
  level ← entry config "logging" "level";
  _ ← setenv "LOG_LEVEL" level;
  name ← entry config "environment" "name";
  name ← pure (to_string_value name);
  _ ← say (Info ("Loaded environment: " +:+ name +:+ " (" +:+ env +:+ ")"));
  baseUrl ← entry config "application" "baseUrl";
  baseUrl ← pure (to_string_value baseUrl);
  _ ← say (Info ("Base URL: " +:+ baseUrl));
  workers ← entry config "test" "workers";
  workers ← pure (to_string_value workers);
  _ ← say (Info ("Workers: " +:+ workers));
  defaultUser ← entry config "users" "defaultUser";
  defaultUser ← pure (to_string_value defaultUser);
  _ ← say (Info ("Default User: " +:+ defaultUser));
  mret config.

(** [printUsage()] *)
Definition printUsage : proc unit :=
  _ ← say (Info "Environment Configuration Loader");
  _ ← say (Info "Usage: node src/config/environment-loader.js [environment]");
  _ ← say (Info "Available environments:");
  available ← getAvailableEnvironments;
  _ ← (fun p =>
         (Done tt,
          Process (variables p)
            (fold_left (fun w env => print w (Info ("  - " +:+ env))) available (stdio p))));
  say (Info "Example: node src/config/environment-loader.js staging").

(** The main block, [args] being [process.argv.slice(2)]. *)
Definition main_block (args : list string) : proc unit :=
  if existsb (String.eqb "--help") args || existsb (String.eqb "-h") args then
    _ ← printUsage;
    exit 0
  else
    environment ←
      (fun p =>
         (Done (if nonempty (head args) then default "" (head args)
                else if nonempty (variables p !! "TEST_ENV")
                     then default "" (variables p !! "TEST_ENV")
                     else "dev"), p));
    _ ← loadEnvironmentConfig environment;
    mret tt.

(** The exit status of [node src/config/environment-loader.js args]: 0
    when the script runs to its end, 1 when it dies of an uncaught
    exception, the argument of [process.exit] otherwise. *)
Definition status (args : list string) (p : process) : Z :=
  match (main_block args p).1 with
  | Done _ => 0
  | Raised _ => 1
  | Exited code => code
  end.

End Script.

End EnvironmentLoaderScript.

(* ===================================================================== *)
(** ** scripts/retry-failed-tests.sh                                      *)
(* ===================================================================== *)

Module RetryScript.

Import RetryHelpers.

(** The variables set by the option parser, with their defaults. *)
Record options := {
  ENVIRONMENT : string;
  MAX_RETRIES : nat;
  RETRY_DELAY : nat;
  REPORT_PATH : string;
  CLEAR_FAILED : bool;
  SHOW_STATS : bool
}.

Definition defaults : options :=
  {| ENVIRONMENT := "dev";
     MAX_RETRIES := 3;
     RETRY_DELAY := 2;
     REPORT_PATH := "reports/cucumber-report.json";
     CLEAR_FAILED := false;
     SHOW_STATS := false |}.

(** How a shell function ends under [set -e]: it returns a status to
    its caller, or the whole script exits with one. *)
Inductive outcome :=
| Return (status : Z)
| Exit (status : Z).

(** [[[ -f p ]]] *)
Definition is_file (w : world) (p : string) : bool :=
  bool_decide (is_Some (files w !! p)).

(** [rm p] on a regular file. *)
Definition rm (w : world) (p : string) : world :=
  World (delete p (files w)) (dirs w) (console w).

(** [clear_failed_tests] *)
Definition clear_failed_tests (w : world) : world :=
  let w := if is_file w FAILED_TESTS_FILE then rm w FAILED_TESTS_FILE else w in
  if is_file w RETRY_REPORT_FILE then rm w RETRY_REPORT_FILE else w.

(** The exit status of a [node -e] script that runs to its end or dies
    of an uncaught exception. *)
Definition node_status {A} (r : res A) : Z :=
  match r with
  | Ok _ => 0
  | Throw _ => 1
  end.

(** [show_retry_stats] *)
Definition show_retry_stats (w : world) : outcome :=
  if is_file w RETRY_REPORT_FILE then
    let script :=
      content ← readFileSync w RETRY_REPORT_FILE;
      data ← JSON_parse content;
      _ ← prop (Some data) "originalFailures";
      _ ← prop (Some data) "recovered";
      _ ← prop (Some data) "stillFailing";
      _ ← prop (Some data) "successRate";
      prop (Some data) "timestamp" in
    if node_status script =? 0 then Return 0 else Exit (node_status script)
  else Return 0.

(** A path that stands for itself between the single quotes of a
    JavaScript string literal: it holds no quote, no backslash and no line
    break. *)
Definition plain_path (p : string) : bool :=
  forallb (fun a => negb (existsb (Nat.eqb (Ascii.nat_of_ascii a)) [39; 92; 10; 13])%nat)
    (String.list_ascii_of_string p).

(** The script [extract_failed_tests] hands to [node -e], [$REPORT_PATH]
    being pasted into it by the shell. *)
Definition extract_script (report_path : string) : string :=
  "    const fs = require('fs');
    const path = require('path');
    
    try {
        const reportData = JSON.parse(fs.readFileSync('" +:+ report_path +:+ "', 'utf8'));
        const failedTests = [];
        
        reportData.forEach(feature => {
            feature.elements?.forEach(scenario => {
                const hasFailedSteps = scenario.steps?.some(step => 
                    step.result?.status === 'failed'
                );
                
                if (hasFailedSteps) {
                    const failedStep = scenario.steps.find(step => 
                        step.result?.status === 'failed'
                    );
                    
                    failedTests.push({
                        scenarioName: scenario.name,
                        featureFile: feature.uri || feature.name,
                        line: scenario.line || 0,
                        error: failedStep?.result?.error_message || 'Unknown error',
                        timestamp: new Date().toISOString(),
                        attempt: 1
                    });
                }
            });
        });
        
        // Save failed tests
        if (failedTests.length > 0) {
            const dir = path.dirname('test-results/failed-tests.json');
            if (!fs.existsSync(dir)) {
                fs.mkdirSync(dir, { recursive: true });
            }
            fs.writeFileSync('test-results/failed-tests.json', JSON.stringify(failedTests, null, 2));
            console.log(`Found ${failedTests.length} failed tests`);
        } else {
            console.log('No failed tests found');
        }
        
        process.exit(failedTests.length > 0 ? 1 : 0);
    } catch (error) {
        console.error('Error parsing report:', error.message);
        process.exit(1);
    }".

(** The command line the template literal of the generator spells. *)
Definition command_line (scenarios attempt : string) : string :=
  "cucumber-js --config cucumber.config.js --name " +:+ dquote +:+ scenarios
  +:+ dquote +:+ " --format json:reports/retry-" +:+ attempt +:+ ".json".

(** Reading an identifier in a scope: an unbound one throws. *)
Definition identifier (scope : list (string * string)) (x : string) : res string :=
  match list_find (fun b => b.1 = x) scope with
  | Some (_, b) => Ok b.2
  | None => Throw ReferenceError
  end.

(** The [node -e] script that prints the retry command.  The shell text
    escapes every dollar of the template literal, so node receives both
    placeholders unsubstituted: [scenarios] is a constant of the script,
    [attempt] is the shell's loop variable and is bound nowhere in it.
    When the registry holds something that is not an array, either the test
    [failedTests.length > 0] fails or [failedTests.map] is missing and the
    script dies: nothing is printed in both cases. *)
Definition retry_command_script (w : world) : res string :=
  if existsSync w FAILED_TESTS_FILE then
    content ← readFileSync w FAILED_TESTS_FILE;
    failedTests ← JSON_parse content;
    match failedTests with
    | JArr (test :: tests) =>
        names ← mapM (fun test => prop (Some test) "scenarioName") (test :: tests);
        scenarios ← array_join "|" names;
        let scope := [("scenarios", scenarios)] in
        s ← identifier scope "scenarios";
        a ← identifier scope "attempt";
        mret (command_line s a)
    | JArr [] => mret ""
    | JNull => Throw TypeError
    | _ => mret ""
    end
  else mret "".

(** [$(node -e ...)]: what the script printed; nothing when it died. *)
Definition retry_command (w : world) (attempt : nat) : string :=
  try_catch (retry_command_script w) (fun _ => "").

(** The scan of the retry report: the names of the scenarios with a
    failed step. *)
Definition still_failing_scenario (stillFailing : list jsval) (scenario : json)
  : res (list jsval) :=
  steps ← prop (Some scenario) "steps";
  hasFailedSteps ←
    match steps with
    | None | Some JNull => mret false
    | _ => l ← as_array steps; array_some step_failed l
    end;
  if (hasFailedSteps : bool) then
    name ← prop (Some scenario) "name";
    mret (stillFailing ++ [name])
  else mret stillFailing.

Definition still_failing_feature (stillFailing : list jsval) (feature : json)
  : res (list jsval) :=
  elements ← prop (Some feature) "elements";
  match elements with
  | None | Some JNull => mret stillFailing
  | _ => l ← as_array elements; for_each still_failing_scenario l stillFailing
  end.

Definition scan_still_failing (reportData : json) : res (list jsval) :=
  features ← as_array (Some reportData);
  for_each still_failing_feature features [].

(** [extract_failed_tests_from_retry retry_report] *)
Definition extract_failed_tests_from_retry (retry_report : string) (w : world) : Z :=
  if negb (is_file w retry_report) then 1
  else
    match (content ← readFileSync w retry_report;
           reportData ← JSON_parse content;
           scan_still_failing reportData) with
    | Ok [] => 0
    | Ok _ => 1
    | Throw _ => 1
    end.

Section Script.

(** The programs the script runs without the model looking into them: the
    environment loader [src/config/environment-loader.js] (its exit status)
    and a command line (its exit status and the files it leaves), which is
    the one handed to [eval] or, for a report path that is not plain, [node]
    with the script above. *)
Variable environment_loader : string -> world -> Z.
Variable eval : string -> world -> Z * world.
Variable now : string.

(** [extract_failed_tests].  For a plain report path the script reads the
    report at that path: its scan is the one of [parseFailedTestsFromReport];
    the registry is rewritten when failures are found, and the status tells
    whether there are any.  Whatever goes wrong inside the script, a write
    that fails included, is caught and gives status 1. *)
Definition extract_failed_tests (o : options) (w : world) : outcome * world :=
  if negb (is_file w (REPORT_PATH o)) then (Exit 1, w)
  else if negb (plain_path (REPORT_PATH o)) then
    let '(status, w1) := eval ("node -e " +:+ extract_script (REPORT_PATH o)) w in
    (Return status, w1)
  else
    match (content ← readFileSync w (REPORT_PATH o);
           reportData ← JSON_parse content;
           scan_report now reportData) with
    | Ok [] => (Return 0, w)
    | Ok failedTests =>
        let w1 :=
          if existsSync w FAILED_TESTS_DIR then w else mkdirSync w FAILED_TESTS_DIR in
        match writeFileSync_checked w1 FAILED_TESTS_FILE
                (JSON_stringify (JArr (map to_json failedTests))) with
        | Ok w2 => (Return 1, w2)
        | Throw _ => (Return 1, w1)
        end
    | Throw _ => (Return 1, w)
    end.

(** The [for] loop of [retry_failed_tests], for any way [generate] of
    producing the command of an attempt; [remaining] attempts are
    left, the next one is numbered [attempt].  The [sleep] between two
    attempts changes nothing that is modelled.  The function is run as a
    plain command of [main], so [set -e] is in force in its body: a failing
    environment loader, and a non-zero status of
    [extract_failed_tests_from_retry], end the script there and then. *)
Fixpoint retry_loop (generate : world -> nat -> string) (o : options)
    (remaining attempt : nat) (w : world) : outcome * world :=
  match remaining with
  | O => (Return 0, w)
  | S remaining' =>
      let loaded := environment_loader (ENVIRONMENT o) w in
      if negb (loaded =? 0) then (Exit loaded, w)
      else
        let retry_command := generate w attempt in
        if negb (String.eqb retry_command "") then
          let '(status, w1) := eval retry_command w in
          if status =? 0 then
            let still_failing :=
              extract_failed_tests_from_retry
                ("reports/retry-" +:+ pretty attempt +:+ ".json") w1 in
            if still_failing =? 0 then (Return 0, w1)
            else (Exit still_failing, w1)
          else
            retry_loop generate o remaining' (S attempt) w1
        else (Return 0, w)
  end.

(** [retry_failed_tests] *)
Definition retry_failed_tests (o : options) (w : world) : outcome * world :=
  if negb (is_file w FAILED_TESTS_FILE) then (Return 0, w)
  else retry_loop retry_command o (MAX_RETRIES o) 1%nat w.

(** [main]: the exit status of the script and the world it leaves.  When
    [retry_failed_tests] returns a status other than 0, [set -e] ends the
    script with it; otherwise the closing [echo] is the last command. *)
Definition main (o : options) (w : world) : Z * world :=
  if SHOW_STATS o then
    match show_retry_stats w with
    | Exit status => (status, w)
    | Return _ => (0, w)
    end
  else
    let w := if CLEAR_FAILED o then clear_failed_tests w else w in
    match extract_failed_tests o w with
    | (Exit status, w1) => (status, w1)
    | (Return 0, w1) => (0, w1)
    | (Return _, w1) =>
        match retry_failed_tests o w1 with
        | (Exit status, w2) => (status, w2)
        | (Return status, w2) => (status, w2)
        end
    end.

End Script.

End RetryScript.

(** [node src/config/environment-loader.js "$ENVIRONMENT"] as the retry
    script runs it, from the root of the repository and in the environment
    [penv] of the shell: its exit status. *)
Definition run_environment_loader (penv : gmap string string) (environment : string)
    (w : world) : Z :=
  EnvironmentLoaderScript.status "src/config" [environment]
    (EnvironmentLoader.Process penv w).

(* ===================================================================== *)
(** ** scripts/parallel-test.sh                                           *)
(* ===================================================================== *)

Module ParallelScript.

Import ParallelHelpers RetryScript.

(** [[[ "$1" =~ ^[0-9]+$ ]]] *)
Definition all_digits (s : string) : bool :=
  negb (String.eqb s "")
  && forallb (fun a => bool_decide (is_Some (digit a))) (String.list_ascii_of_string s).

(** The value of a string of decimal digits. *)
Definition decimal (s : string) : Z := default 0 (digits s None).

(** The largest integer [test] can read. *)
Definition INTMAX : Z := 2 ^ 63 - 1.

(** [[ "$1" -lt n ]] and [[ "$1" -gt n ]] on a string of digits: beyond
    [INTMAX] the operand is no integer expression for [test], which then
    ends with status 2, and a status other than 0 makes the condition
    false. *)
Definition test_lt (s : string) (n : Z) : bool :=
  (decimal s <=? INTMAX) && (decimal s <? n).
Definition test_gt (s : string) (n : Z) : bool :=
  (decimal s <=? INTMAX) && (n <? decimal s).

(** [validate_workers] *)
Definition validate_workers (arg : string) : outcome :=
  if negb (all_digits arg) || test_lt arg 1 || test_gt arg 10 then Exit 1
  else Return 0.

End ParallelScript.

(* ===================================================================== *)
(** ** Vocabulary of the statements                                       *)
(* ===================================================================== *)

(** Well-formed structured reports: features holding scenarios holding
    steps, every step carrying a result with a status and possibly an
    error message. *)
Module Report.

Import RetryHelpers.

Record step := {
  st_status : string;
  st_error_message : option string
}.

Record scenario := {
  sc_name : string;
  sc_line : Z;
  sc_steps : list step
}.

Record feature := {
  ft_uri : string;
  ft_name : string;
  ft_elements : list scenario
}.

(** The JSON document of a report. *)
Definition encode_step (s : step) : json :=
  JObj [("result",
         JObj (("status", JStr (st_status s))
               :: match st_error_message s with
                  | Some m => [("error_message", JStr m)]
                  | None => []
                  end))].

Definition encode_scenario (sc : scenario) : json :=
  JObj [("name", JStr (sc_name sc));
        ("line", JNum (sc_line sc));
        ("steps", JArr (map encode_step (sc_steps sc)))].

Definition encode_feature (f : feature) : json :=
  JObj [("uri", JStr (ft_uri f));
        ("name", JStr (ft_name f));
        ("elements", JArr (map encode_scenario (ft_elements f)))].

Definition encode (r : list feature) : json := JArr (map encode_feature r).

(** Reading a report from a JSON document.  A feature is an object with
    the strings [uri] and [name] and the array [elements]; a scenario is an
    object with the string [name], the number [line] and the array [steps]; a
    step is an object whose [result] is an object with a string [status] and,
    when it has one, a string [error_message].  Whatever else these objects
    hold (keywords, tags, durations, ...) is not looked at. *)
Definition decode_step (v : json) : option step :=
  match v with
  | JObj kvs =>
      match assoc "result" kvs with
      | Some (JObj result) =>
          match assoc "status" result with
          | Some (JStr status) =>
              match assoc "error_message" result with
              | None => Some {| st_status := status; st_error_message := None |}
              | Some (JStr m) =>
                  Some {| st_status := status; st_error_message := Some m |}
              | Some _ => None
              end
          | _ => None
          end
      | _ => None
      end
  | _ => None
  end.

Definition decode_scenario (v : json) : option scenario :=
  match v with
  | JObj kvs =>
      match assoc "name" kvs, assoc "line" kvs, assoc "steps" kvs with
      | Some (JStr name), Some (JNum line), Some (JArr steps) =>
          steps ← mapM decode_step steps;
          Some {| sc_name := name; sc_line := line; sc_steps := steps |}
      | _, _, _ => None
      end
  | _ => None
  end.

Definition decode_feature (v : json) : option feature :=
  match v with
  | JObj kvs =>
      match assoc "uri" kvs, assoc "name" kvs, assoc "elements" kvs with
      | Some (JStr uri), Some (JStr name), Some (JArr elements) =>
          elements ← mapM decode_scenario elements;
          Some {| ft_uri := uri; ft_name := name; ft_elements := elements |}
      | _, _, _ => None
      end
  | _ => None
  end.

Definition decode (v : json) : option (list feature) :=
  match v with
  | JArr features => mapM decode_feature features
  | _ => None
  end.

(** A step failed when its status is the string [failed]; a scenario
    failed when one of its steps did. *)
Definition failed (s : step) : bool := String.eqb (st_status s) "failed".

Definition has_failed_step (sc : scenario) : bool := existsb failed (sc_steps sc).

(** The error message of the first failing step, in document order. *)
Definition first_error_message (sc : scenario) : option string :=
  match List.find failed (sc_steps sc) with
  | Some s => st_error_message s
  | None => None
  end.

(** That message when there is one and it is not empty, and the fixed
    text otherwise. *)
Definition error_summary (sc : scenario) : string :=
  match first_error_message sc with
  | Some m => if String.eqb m "" then "Unknown error" else m
  | None => "Unknown error"
  end.

Definition source_file (f : feature) : string :=
  if String.eqb (ft_uri f) "" then ft_name f else ft_uri f.

(** The record expected for a failing scenario of a feature. *)
Definition failure (now : string) (f : feature) (sc : scenario) : FailedTest :=
  {| scenarioName := Some (JStr (sc_name sc));
     featureFile := Some (JStr (source_file f));
     line := Some (JNum (sc_line sc));
     error := Some (JStr (error_summary sc));
     timestamp := now;
     attempt := 1 |}.

Definition scenarios (r : list feature) : list scenario :=
  flat_map ft_elements r.

(** One record per failing scenario, in document order. *)
Definition failures (now : string) (r : list feature) : list FailedTest :=
  flat_map (fun f => map (failure now f) (List.filter has_failed_step (ft_elements f))) r.

End Report.

(** The registry as a list of entries: empty when the file is absent,
    undefined when the file holds anything but an array. *)
Definition registry (w : world) : option (list json) :=
  match files w !! RetryHelpers.FAILED_TESTS_FILE with
  | None => Some []
  | Some (Some (JArr l)) => Some l
  | Some _ => None
  end.

(** A registry that can be written: it is a regular file, or it is absent,
    no directory stands in its place and [test-results] is no regular
    file. *)
Definition registry_writable (w : world) : Prop :=
  is_Some (files w !! RetryHelpers.FAILED_TESTS_FILE)
  \/ ((RetryHelpers.FAILED_TESTS_FILE ∉ dirs w)
      /\ files w !! RetryHelpers.FAILED_TESTS_DIR = None).

(** A failure record whose fields are all defined, and the entry of the
    registry that stands for it. *)
Definition failed_test (name file ln message : json) (time : string) (n : Z)
  : RetryHelpers.FailedTest :=
  {| RetryHelpers.scenarioName := Some name;
     RetryHelpers.featureFile := Some file;
     RetryHelpers.line := Some ln;
     RetryHelpers.error := Some message;
     RetryHelpers.timestamp := time;
     RetryHelpers.attempt := n |}.

Definition registry_entry (name file ln message : json) (time : string) (n : Z) : json :=
  JObj [("scenarioName", name); ("featureFile", file); ("line", ln);
        ("error", message); ("timestamp", JStr time); ("attempt", JNum n)].

(** A world whose registry holds the given records and nothing else. *)
Definition registry_world (l : list RetryHelpers.FailedTest) : world :=
  World {[RetryHelpers.FAILED_TESTS_FILE := Some (JArr (map RetryHelpers.to_json l))]} ∅ [].

(** A failure record with the given scenario name and feature file. *)
Definition named (name file : string) : RetryHelpers.FailedTest :=
  {| RetryHelpers.scenarioName := Some (JStr name);
     RetryHelpers.featureFile := Some (JStr file);
     RetryHelpers.line := Some (JNum 1);
     RetryHelpers.error := Some (JStr "Unknown error");
     RetryHelpers.timestamp := "2024-12-01T21:30:15.000Z";
     RetryHelpers.attempt := 1 |}.

(** [(n - m) / n * 100] rounded to hundredths in exact arithmetic, halves
    upwards and halves to even, written with two decimals. *)
Definition exact_rate_half_up (n m : Z) : string :=
  show_hundredths ((20000 * (n - m) + n) / (2 * n)).

Definition exact_rate_half_even (n m : Z) : string :=
  let q := 10000 * (n - m) / n in
  let r := 10000 * (n - m) mod n in
  show_hundredths
    (if 2 * r <? n then q
     else if n <? 2 * r then q + 1
     else if Z.even q then q else q + 1).

(** The hundredths [toFixed(2)] prints for the double-precision rate, when
    that rate is a finite number that is not negative. *)
Definition rate_hundredths (n m : Z) : option Z :=
  match double_mul
          (double_div (double_sub (to_double n) (to_double m)) (to_double n))
          (to_double 100) with
  | S754_zero _ => Some 0
  | S754_finite false mant e => Some (nearest_hundredths mant e)
  | _ => None
  end.

(** The double-precision rate of [n] originals and [m] still failing is
    the exact rate rounded half up, as a check that runs. *)
Definition rate_agrees (n m : Z) : bool :=
  match rate_hundredths n m with
  | Some h => h =? (20000 * (n - m) + n) / (2 * n)
  | None => false
  end.

(** Dealing round-robin to [w] workers: the scenario at position [index]
    goes to the end of chunk [index mod w]. *)
Definition deal {T} (w : nat) (chunks : list (list T)) (entry : nat * T)
  : list (list T) :=
  let '(index, scenario) := entry in
  match chunks !! (index mod w)%nat with
  | Some chunk => <[(index mod w)%nat := chunk ++ [scenario]]> chunks
  | None => chunks
  end.

Definition dealt {T} (l : list T) (w : nat) : list (list T) :=
  fold_left (deal w) (zip (seq 0 (length l)) l) (replicate w []).

(** The chunks that are not empty. *)
Definition round_robin {T} (l : list T) (w : nat) : list (list T) :=
  filter (fun chunk => (0 < length chunk)%nat) (dealt l w).

(** Chunk number [c] once the scenarios [l] have been dealt to [w] workers:
    its size, and the input position of each of its elements. *)
Definition chunk_ok {T} (l : list T) (w c : nat) (chunk : list T) : Prop :=
  length chunk
  = (length l / w + (if decide (c < length l mod w) then 1 else 0))%nat
  /\ forall j : nat, chunk !! j = l !! (c + j * w)%nat.

(** A configuration file the loader cannot use: absent, or not JSON. *)
Definition unloadable (w : world) (p : string) : Prop :=
  existsSync w p = false ∨ files w !! p = Some None.

(** The first [n] calls of an operation made one after the other: what
    each of them gave, and the state after the last. *)
Fixpoint calls {St T E : Type} (operation : St -> (T + E) * St) (n : nat) (st : St)
  : list (T + E) * St :=
  match n with
  | O => ([], st)
  | S n' =>
      let '(r, st1) := operation st in
      let '(rs, st2) := calls operation n' st1 in
      (r :: rs, st2)
  end.

(** The delay [baseDelay * Math.pow(2, attempt - 1)], and what
    [retryWithBackoff] prints and sleeps after the failed attempt numbered
    [attempt], and after the first [n] failed attempts. *)
Definition backoff_delay (baseDelay : double) (attempt : Z) : double :=
  double_mul baseDelay (Math_pow2 (attempt - 1)).

Definition pause (maxRetries baseDelay : double) (attempt : Z)
  : list RetryPolicy.effect :=
  [RetryPolicy.Announced attempt maxRetries (backoff_delay baseDelay attempt);
   RetryPolicy.Slept (timer_delay (backoff_delay baseDelay attempt))].

Definition pauses (maxRetries baseDelay : double) (n : nat) : list RetryPolicy.effect :=
  flat_map (fun i => pause maxRetries baseDelay (Z.of_nat (S i))) (seq 0 n).

(** The time slept in a run, in milliseconds. *)
Definition total_sleep (run : list RetryPolicy.effect) : Z :=
  foldr (fun e acc =>
           match e with
           | RetryPolicy.Slept ms => ms + acc
           | RetryPolicy.Announced _ _ _ => acc
           end) 0 run.

(** Text made of ASCII characters only. *)
Definition ascii_text (s : string) : Prop :=
  Forall (fun a => (Ascii.nat_of_ascii a < 128)%nat) (String.list_ascii_of_string s).

(** The calls a client can make on the environment manager, and the state
    after a sequence of them. *)
Inductive call :=
| LoadEnvironment (environment : option string)
| GetConfig
| GetSection (section : string)
| GetField (section field : string).

Definition perform (dirname : string) (c : call) (st : EnvironmentManager.state)
  : EnvironmentManager.state :=
  match c with
  | LoadEnvironment environment =>
      (EnvironmentManager.loadEnvironment dirname environment st).2
  | GetConfig => (EnvironmentManager.getConfig dirname st).2
  | GetSection section => (EnvironmentAccess.config_section dirname section st).2
  | GetField section field => (EnvironmentAccess.config_field dirname section field st).2
  end.

Definition after (dirname : string) (calls : list call) (st : EnvironmentManager.state)
  : EnvironmentManager.state :=
  fold_left (fun st c => perform dirname c st) calls st.

(** The value an override entry gives a key whose earlier value is [old]. *)
Definition overridden (old : jsval) (value : json) : json :=
  if EnvironmentManager.plain_object value
  then JObj (EnvironmentManager.spread2 old (Some value))
  else value.

(** A configuration that is the merge of the base file and of the file of
    some environment, as the two are on disk. *)
Definition merge_of_files (dirname : string) (w : world) (c : json) : Prop :=
  exists env base envConfig,
    EnvironmentManager.loadConfigFile w (EnvironmentManager.config_path dirname "base")
    = Ok base
    /\ EnvironmentManager.loadConfigFile w (EnvironmentManager.config_path dirname env)
       = Ok envConfig
    /\ EnvironmentManager.mergeConfigs base envConfig = Ok c.

(** What every call on the manager keeps. *)
Definition manager_invariant (dirname : string) (penv : gmap string string) (w : world)
    (st : EnvironmentManager.state) : Prop :=
  EnvironmentManager.getCurrentEnvironment st <> ""
  /\ files (EnvironmentManager.io st) = files w
  /\ dirs (EnvironmentManager.io st) = dirs w
  /\ EnvironmentManager.process_env st = penv
  /\ match EnvironmentManager.config st with
     | Some c => merge_of_files dirname w c
     | None => True
     end.

(** Equality of doubles as data. *)
Definition same_double (x y : double) : bool :=
  match x, y with
  | S754_zero s, S754_zero s' => Bool.eqb s s'
  | S754_infinity s, S754_infinity s' => Bool.eqb s s'
  | S754_nan, S754_nan => true
  | S754_finite s m e, S754_finite s' m' e' => Bool.eqb s s' && Pos.eqb m m' && (e =? e')
  | _, _ => false
  end.

(** The time estimate in exact arithmetic, for [t] scenarios and [w]
    workers: the scenarios the busiest worker runs, and the saving in
    percent rounded to the nearest integer, halves upwards. *)
Definition rounds (t w : Z) : Z := (t + w - 1) / w.

Definition exact_reduction (t w : Z) : Z :=
  (200 * (t - rounds t w) + t) / (2 * t).

(** The estimate computed on doubles is the exact one, as a check that
    runs. *)
Definition estimate_agrees (t w : Z) : bool :=
  let r := ParallelReport.calculateTimeReduction (to_double t) (to_double w) in
  same_double (ParallelReport.sequentialTime r) (to_double (30 * t))
  && same_double (ParallelReport.parallelTime r) (to_double (30 * rounds t w))
  && same_double (ParallelReport.estimatedReduction r) (to_double (exact_reduction t w))
  && (0 <=? exact_reduction t w) && (exact_reduction t w <? 100).

Import RetryHelpers ParallelHelpers RetryScript.
Import Report.

(** *** Sample inputs *)

(** A report with five scenarios of which two fail, the second of them in
    two steps, read from the default report path. *)
Definition sample_report : list feature :=
  let passed := {| st_status := "passed"; st_error_message := None |} in
  let skipped := {| st_status := "skipped"; st_error_message := None |} in
  let timeout :=
    {| st_status := "failed"; st_error_message := Some "TimeoutError: 30000ms" |} in
  let crash := {| st_status := "failed"; st_error_message := Some "Page crashed" |} in
  [ {| ft_uri := "src/features/search.feature"; ft_name := "Search";
       ft_elements :=
         [ {| sc_name := "Open the application"; sc_line := 5; sc_steps := [passed] |};
           {| sc_name := "Search for user A"; sc_line := 9;
              sc_steps := [passed; timeout; skipped] |};
           {| sc_name := "Pending scenario"; sc_line := 15; sc_steps := [skipped] |} ] |};
    {| ft_uri := "src/features/repos.feature"; ft_name := "Repositories";
       ft_elements :=
         [ {| sc_name := "Navigate to repos B"; sc_line := 4;
              sc_steps := [crash; timeout] |};
           {| sc_name := "List repositories"; sc_line := 11;
              sc_steps := [passed; passed] |} ] |} ].

Definition sample_world : world :=
  World {["reports/cucumber-report.json" := Some (encode sample_report)]} ∅ [].

(** A report as the formatter of the test runner writes it, with the
    entries the scan does not look at: one scenario, whose second step
    failed. *)
Definition sample_document : json :=
  JArr
    [JObj
       [("description", JStr "");
        ("elements",
          JArr
            [JObj
               [("id", JStr "search;search-for-user-a");
                ("keyword", JStr "Scenario");
                ("line", JNum 9);
                ("name", JStr "Search for user A");
                ("steps",
                  JArr
                    [JObj [("keyword", JStr "Given ");
                           ("line", JNum 10);
                           ("name", JStr "I am on the search page");
                           ("result", JObj [("status", JStr "passed");
                                            ("duration", JNum 1200000)])];
                     JObj [("keyword", JStr "When ");
                           ("line", JNum 11);
                           ("name", JStr "I search for user A");
                           ("result", JObj [("status", JStr "failed");
                                            ("duration", JNum 30000000000);
                                            ("error_message",
                                              JStr "TimeoutError: 30000ms")])]]);
                ("tags", JArr []);
                ("type", JStr "scenario")]]);
        ("id", JStr "search");
        ("keyword", JStr "Feature");
        ("line", JNum 1);
        ("name", JStr "Search");
        ("tags", JArr []);
        ("uri", JStr "src/features/search.feature")]].

Definition sample_document_report : list feature :=
  [ {| ft_uri := "src/features/search.feature"; ft_name := "Search";
       ft_elements :=
         [ {| sc_name := "Search for user A"; sc_line := 9;
              sc_steps :=
                [ {| st_status := "passed"; st_error_message := None |};
                  {| st_status := "failed";
                     st_error_message := Some "TimeoutError: 30000ms" |} ] |} ] |} ].

(** The operation of the demonstration in TestRetryDemo: it counts its
    attempts and fails the first two. *)
Definition flaky (attempt : Z) : (string + string) * Z :=
  let attempt := attempt + 1 in
  if attempt <? 3 then (inr "Simulated network timeout", attempt)
  else (inl "success", attempt).

(** An operation that fails whenever it is tried. *)
Definition unreachable (attempt : Z) : (string + string) * Z :=
  (inr ("Connection refused, attempt " +:+ pretty (attempt + 1)), attempt + 1).

(** A base configuration and a staging configuration that overrides two of
    its entries. *)
Definition sample_base : json :=
  JObj [("environment", JObj [("name", JStr "Base")]);
        ("application",
          JObj [("baseUrl", JStr "http://localhost:3000");
                ("searchUrl", JStr "http://localhost:3000/search");
                ("apiUrl", JStr "https://api.github.com")]);
        ("browser", JObj [("headless", JBool true)]);
        ("test", JObj [("workers", JNum 4); ("timeout", JNum 30000); ("retries", JNum 0);
                       ("retryOnlyFailures", JBool false)]);
        ("logging", JObj [("level", JStr "info")]);
        ("users", JObj [("defaultUser", JStr "octocat");
                        ("testUsers", JArr [JStr "octocat"; JStr "torvalds"])])].

Definition sample_staging : json :=
  JObj [("environment", JObj [("name", JStr "Staging")]);
        ("application", JObj [("baseUrl", JStr "https://staging.example.com")]);
        ("users", JObj [("testUsers", JArr [JStr "defunkt"])])].

(** A development configuration that has every section of its own. *)
Definition sample_dev : json :=
  JObj [("environment", JObj [("name", JStr "Development")]);
        ("application",
          JObj [("baseUrl", JStr "http://localhost:3000");
                ("searchUrl", JStr "http://localhost:3000/search");
                ("apiUrl", JStr "https://api.github.com")]);
        ("browser", JObj [("headless", JBool false)]);
        ("test", JObj [("workers", JNum 2); ("timeout", JNum 60000); ("retries", JNum 1)]);
        ("logging", JObj [("level", JStr "debug")]);
        ("users", JObj [("defaultUser", JStr "octocat")])].

Definition sample_config_world : world :=
  World {["src/config/environments/base.json" := Some sample_base;
          "src/config/environments/dev.json" := Some sample_dev;
          "src/config/environments/staging.json" := Some sample_staging]}
    {["src/config/environments"]} [].

(** A machine of a continuous integration service whose worker count is
    given as a word, and a machine with a quarter of a gigabyte. *)
Definition sample_ci_machine : ParallelHelpers.machine :=
  {| ParallelHelpers.cpuCount := 8;
     ParallelHelpers.totalmem := 16 * 2 ^ 30;
     ParallelHelpers.freemem := 8 * 2 ^ 30;
     ParallelHelpers.env := {["CI" := "true"; "CI_WORKERS" := "many"]} |}.

Definition sample_small_machine : ParallelHelpers.machine :=
  {| ParallelHelpers.cpuCount := 4;
     ParallelHelpers.totalmem := 2 ^ 28;
     ParallelHelpers.freemem := 2 ^ 27;
     ParallelHelpers.env := ∅ |}.

(** *** Proof steps *)

(** Reduction of the sequencing of pure evaluations. *)
Ltac js_simpl := cbn [mbind res_bind bind mret res_ret as_array].

(** Unfolding of the sequencing of effectful evaluations. *)
Ltac eff_unfold :=
  unfold catch, lift, fs_exists, fs_read, fs_write, fs_write_checked, fs_unlink,
    fs_mkdir, log;
  unfold mbind, eff_mbind, eff_bind, mret, eff_mret, eff_ret.

(** Unfolding of the sequencing of the evaluations of the loader script. *)
Ltac proc_unfold :=
  unfold EnvironmentLoaderScript.entry, EnvironmentLoader.pure, EnvironmentLoader.setenv,
    EnvironmentLoader.say, EnvironmentLoader.exit;
  unfold mbind, proc_mbind, EnvironmentLoader.proc_bind, mret, proc_mret,
    EnvironmentLoader.proc_ret.

(* ===================================================================== *)
(** ** Extraction of failures from a report (parseFailedTestsFromReport)  *)
(* ===================================================================== *)

Lemma step_failed_decode (v : json) (s : step) :
  decode_step v = Some s -> step_failed v = Ok (failed s).
Proof.
  unfold decode_step, step_failed, failed.
  destruct v as [| | | | |kvs]; try discriminate. cbn [prop].
  destruct (assoc "result" kvs) as [[| | | | |result]|]; try discriminate.
  js_simpl. cbn [opt_prop prop].
  destruct (assoc "status" result) as [[| | |status| |]|]; try discriminate.
  js_simpl. cbn [strict_eq].
  destruct (assoc "error_message" result) as [[| | |m| |]|]; try discriminate;
    by intros [= <-].
Qed.

(** The error message the code reads off a step. *)
Lemma error_message_decode (v : json) (s : step) :
  decode_step v = Some s ->
  (result ← opt_prop (Some v) "result"; opt_prop result "error_message")
  = Ok (JStr <$> st_error_message s).
Proof.
  unfold decode_step.
  destruct v as [| | | | |kvs]; try discriminate. cbn [opt_prop prop].
  destruct (assoc "result" kvs) as [[| | | | |result]|]; try discriminate.
  js_simpl. cbn [opt_prop prop].
  destruct (assoc "status" result) as [[| | |status| |]|]; try discriminate.
  destruct (assoc "error_message" result) as [[| | |m| |]|]; try discriminate;
    by intros [= <-].
Qed.

Lemma array_some_decode (l : list json) (steps : list step) :
  mapM decode_step l = Some steps ->
  array_some step_failed l = Ok (existsb failed steps).
Proof.
  intros H%mapM_Some. induction H as [|v s l steps Hv _ IH]; [reflexivity|].
  cbn [array_some existsb]. rewrite (step_failed_decode v s Hv). cbn [bind].
  destruct (failed s); [reflexivity|exact IH].
Qed.

Lemma array_find_decode (l : list json) (steps : list step) :
  mapM decode_step l = Some steps ->
  exists found,
    array_find step_failed l = Ok found
    /\ option_Forall2 (fun v s => decode_step v = Some s) found (List.find failed steps).
Proof.
  intros H%mapM_Some. induction H as [|v s l steps Hv _ IH].
  - exists None. split; [reflexivity|constructor].
  - cbn [array_find List.find]. rewrite (step_failed_decode v s Hv). cbn [bind].
    destruct (failed s); [|exact IH].
    exists (Some v). split; [reflexivity|by constructor].
Qed.

Lemma scan_scenario_decode now (fv : json) (f : feature) acc (v : json) (sc : scenario) :
  prop (Some fv) "uri" = Ok (Some (JStr (ft_uri f))) ->
  prop (Some fv) "name" = Ok (Some (JStr (ft_name f))) ->
  decode_scenario v = Some sc ->
  scan_scenario now fv acc v
  = Ok (acc ++ (if has_failed_step sc then [failure now f sc] else [])).
Proof.
  intros Huri Hname. unfold decode_scenario, scan_scenario.
  remember (Some fv) as feat eqn:Hfeat.
  destruct v as [| | | | |kvs]; try discriminate. cbn [prop].
  destruct (assoc "name" kvs) as [[| | |name| |]|]; try discriminate.
  destruct (assoc "line" kvs) as [[| |ln| | |]|]; try discriminate.
  destruct (assoc "steps" kvs) as [[| | | |l|]|]; try discriminate.
  destruct (mapM decode_step l) as [steps|] eqn:Hsteps; [|discriminate].
  intros [= <-]. js_simpl.
  rewrite (array_some_decode l steps Hsteps). unfold has_failed_step. cbn [sc_steps].
  destruct (existsb failed steps) eqn:Hf; js_simpl.
  2: { rewrite app_nil_r. reflexivity. }
  destruct (array_find_decode l steps Hsteps) as (found & -> & Hfound). js_simpl.
  rewrite Huri.
  assert ((result ← opt_prop found "result"; opt_prop result "error_message")
          = Ok (JStr <$> first_error_message
                           {| sc_name := name; sc_line := ln; sc_steps := steps |}))
    as Hmessage.
  { unfold first_error_message. cbn [sc_steps].
    destruct Hfound as [v s Hv|]; [by apply error_message_decode|reflexivity]. }
  js_simpl.
  cbn [truthy].
  destruct (String.eqb (ft_uri f) "") eqn:Hu; cbn [negb]; [rewrite Hname|]; js_simpl;
    (destruct (opt_prop found "result") as [result|]; [|discriminate Hmessage]);
    cbn [mbind res_bind bind] in Hmessage |- *; rewrite Hmessage; js_simpl;
    do 3 f_equal; unfold failure, error_summary, source_file; rewrite Hu;
    cbn [sc_name sc_line];
    (assert (or_else (Some (JNum ln)) (Some (JNum 0)) = Some (JNum ln)) as ->;
     [unfold or_else, truthy; destruct (ln =? 0) eqn:Hz; cbn [negb];
      [by apply Z.eqb_eq in Hz as ->|reflexivity]|]);
    f_equal;
    (destruct (first_error_message _) as [m|]; cbn [fmap option_fmap option_map];
     [|reflexivity]; unfold or_else, truthy; by destruct (String.eqb m "")).
Qed.

Lemma for_each_scan_scenario_decode now (fv : json) (f : feature) (l : list json)
    (scs : list scenario) acc :
  prop (Some fv) "uri" = Ok (Some (JStr (ft_uri f))) ->
  prop (Some fv) "name" = Ok (Some (JStr (ft_name f))) ->
  mapM decode_scenario l = Some scs ->
  for_each (scan_scenario now fv) l acc
  = Ok (acc ++ map (failure now f) (List.filter has_failed_step scs)).
Proof.
  intros Huri Hname H%mapM_Some. revert acc.
  induction H as [|v sc l scs Hv _ IH]; intros acc.
  - cbn. by rewrite app_nil_r.
  - cbn [for_each List.filter].
    rewrite (scan_scenario_decode now fv f acc v sc Huri Hname Hv). cbn [bind].
    rewrite IH. destruct (has_failed_step sc); cbn [map].
    + by rewrite <- app_assoc.
    + by rewrite app_nil_r.
Qed.

Lemma scan_feature_decode now acc (v : json) (f : feature) :
  decode_feature v = Some f ->
  scan_feature now acc v
  = Ok (acc ++ map (failure now f) (List.filter has_failed_step (ft_elements f))).
Proof.
  unfold decode_feature, scan_feature.
  destruct v as [| | | | |kvs]; try discriminate.
  destruct (assoc "uri" kvs) as [[| | |uri| |]|] eqn:Huri; try discriminate.
  destruct (assoc "name" kvs) as [[| | |name| |]|] eqn:Hname; try discriminate.
  destruct (assoc "elements" kvs) as [[| | | |l|]|] eqn:Hel; try discriminate.
  destruct (mapM decode_scenario l) as [scs|] eqn:Hscs; [|discriminate].
  intros [= <-]. cbn [prop]. rewrite Hel. js_simpl. cbn [ft_elements].
  apply for_each_scan_scenario_decode; [| |exact Hscs]; cbn [prop ft_uri ft_name];
    by f_equal.
Qed.

Lemma for_each_scan_feature_decode now (l : list json) (r : list feature) acc :
  mapM decode_feature l = Some r ->
  for_each (scan_feature now) l acc = Ok (acc ++ failures now r).
Proof.
  intros H%mapM_Some. revert acc. induction H as [|v f l r Hv _ IH]; intros acc.
  - cbn. by rewrite app_nil_r.
  - cbn [for_each]. rewrite (scan_feature_decode now acc v f Hv). cbn [bind].
    rewrite IH. unfold failures. cbn [flat_map]. by rewrite <- app_assoc.
Qed.

(** The scan of a well-formed report finds its failures. *)
Lemma scan_report_decode now (v : json) (r : list feature) :
  decode v = Some r -> scan_report now v = Ok (failures now r).
Proof.
  unfold decode, scan_report. destruct v as [| | | |l|]; try discriminate.
  intros H. js_simpl. exact (for_each_scan_feature_decode now l r [] H).
Qed.

(** The document [encode] writes is read back as the report it was written
    from. *)
Lemma decode_encode (r : list feature) : decode (encode r) = Some r.
Proof.
  assert (forall s, decode_step (encode_step s) = Some s) as Hstep.
  { intros [status [m|]]; reflexivity. }
  assert (forall l, mapM decode_step (map encode_step l) = Some l) as Hsteps.
  { induction l as [|s l IH]; [reflexivity|].
    cbn [map mapM]. rewrite Hstep, IH. reflexivity. }
  assert (forall sc, decode_scenario (encode_scenario sc) = Some sc) as Hsc.
  { intros [name ln steps]. unfold decode_scenario, encode_scenario.
    cbn [assoc String.eqb Ascii.eqb Bool.eqb sc_name sc_line sc_steps].
    by rewrite Hsteps. }
  assert (forall l, mapM decode_scenario (map encode_scenario l) = Some l) as Hscs.
  { induction l as [|s l IH]; [reflexivity|].
    cbn [map mapM]. rewrite Hsc, IH. reflexivity. }
  assert (forall f, decode_feature (encode_feature f) = Some f) as Hf.
  { intros [uri name els]. unfold decode_feature, encode_feature.
    cbn [assoc String.eqb Ascii.eqb Bool.eqb ft_uri ft_name ft_elements].
    by rewrite Hscs. }
  unfold decode, encode. induction r as [|f r IH]; [reflexivity|].
  cbn [map mapM]. rewrite Hf, IH. reflexivity.
Qed.

Lemma scan_report_encode now (r : list feature) :
  scan_report now (encode r) = Ok (failures now r).
Proof.
  apply scan_report_decode, decode_encode.
Qed.

(** What [parseFailedTestsFromReport] does on each kind of path. *)


Lemma parse_present now path w t :
  files w !! path = Some t ->
  parseFailedTestsFromReport now path w
  = match v ← JSON_parse t; scan_report now v with
    | Ok l => (Ok l, w)
    | Throw _ => (Ok [], print w (Error "Failed to parse report for failed tests:"))
    end.
Proof.
  intros H.
  assert (existsSync w path = true) as He.
  { unfold existsSync. rewrite H. apply orb_true_iff. left.
    apply bool_decide_eq_true. eauto. }
  unfold parseFailedTestsFromReport. eff_unfold.
  rewrite He. cbn [negb]. unfold readFileSync. rewrite H. cbn.
  destruct t as [v|]; cbn; [|reflexivity].
  destruct (scan_report now v); reflexivity.
Qed.


Lemma failures_fields {A} (g : FailedTest -> A) (h : scenario -> A) now r :
  (forall f sc, g (failure now f sc) = h sc) ->
  map g (failures now r) = map h (List.filter has_failed_step (scenarios r)).
Proof.
  intros Hgh. unfold failures, scenarios.
  induction r as [|f r IH]; [reflexivity|].
  cbn [flat_map]. rewrite List.filter_app, !map_app, IH. f_equal.
  rewrite map_map. apply map_ext. intros sc. apply Hgh.
Qed.

Lemma failures_none now r :
  forallb (fun sc => negb (has_failed_step sc)) (scenarios r) = true ->
  failures now r = [].
Proof.
  unfold failures, scenarios.
  induction r as [|f r IH]; [reflexivity|].
  cbn [flat_map]. rewrite forallb_app. intros [Hf Hr]%andb_true_iff.
  rewrite (IH Hr), app_nil_r.
  induction (ft_elements f) as [|sc l IHl]; [reflexivity|].
  cbn in Hf. apply andb_true_iff in Hf as [Hsc Hl].
  cbn [List.filter]. destruct (has_failed_step sc); [discriminate|].
  exact (IHl Hl).
Qed.

(** C1, as amended.  For every well-formed structured report,
    [parseFailedTestsFromReport] returns exactly one record per scenario that
    has a step whose status is [failed], in document order (one per scenario,
    whatever the number of failing steps); the [error] field is the first
    failing step's error message when that message is present and not empty,
    and the text [Unknown error] otherwise; a report none of whose scenarios
    has a failed step yields the empty list; a status other than [failed]
    never counts as a failure. *)
Theorem parse_failed_tests_of_report now path w (v : json) (r : list feature) :
  decode v = Some r ->
  files w !! path = Some (Some v) ->
  parseFailedTestsFromReport now path w = (Ok (failures now r), w)
  /\ map scenarioName (failures now r)
     = map (fun sc => Some (JStr (sc_name sc)))
         (List.filter has_failed_step (scenarios r))
  /\ map error (failures now r)
     = map (fun sc => Some (JStr (error_summary sc)))
         (List.filter has_failed_step (scenarios r))
  /\ (forallb (fun sc => negb (has_failed_step sc)) (scenarios r) = true ->
      failures now r = []).
Proof.
  intros Hv H. split; [|split; [|split]].
  - rewrite (parse_present now path w _ H). cbn [JSON_parse mbind res_bind bind].
    by rewrite (scan_report_decode now v r Hv).
  - by apply failures_fields.
  - by apply failures_fields.
  - apply failures_none.
Qed.

Lemma parse_failed_tests_of_report_witness :
  let w := World {["reports/cucumber-report.json" := Some sample_document]} ∅ [] in
  (parseFailedTestsFromReport "t0" "reports/cucumber-report.json" w).1
  = Ok (failures "t0" sample_document_report)
  /\ map scenarioName (failures "t0" sample_document_report)
     = [Some (JStr "Search for user A")]
  /\ map error (failures "t0" sample_document_report)
     = [Some (JStr "TimeoutError: 30000ms")].
Proof.
  cbv zeta.
  destruct (parse_failed_tests_of_report "t0" "reports/cucumber-report.json"
              (World {["reports/cucumber-report.json" := Some sample_document]} ∅ [])
              sample_document sample_document_report) as (Hp & Hn & He & _).
  - reflexivity.
  - reflexivity.
  - rewrite Hp, Hn, He. repeat split; reflexivity.
Defined.

(** C1, as stated, fails: the first failing step of the scenario carries the
    empty error message, and the record's [error] is another text. *)
Lemma parse_failed_tests_error_counterexample :
  let sc :=
    {| sc_name := "Search for user A"; sc_line := 9;
       sc_steps := [{| st_status := "failed"; st_error_message := Some "" |}] |} in
  let r := [{| ft_uri := "a.feature"; ft_name := "A"; ft_elements := [sc] |}] in
  let w := World {["report.json" := Some (encode r)]} ∅ [] in
  first_error_message sc = Some ""
  /\ (parseFailedTestsFromReport "t0" "report.json" w).1
     = Ok [{| scenarioName := Some (JStr "Search for user A");
              featureFile := Some (JStr "a.feature");
              line := Some (JNum 9);
              error := Some (JStr "Unknown error");
              timestamp := "t0";
              attempt := 1 |}].
Proof.
  split; reflexivity.
Qed.




(* ===================================================================== *)
(** ** The retry summary (generateRetryReport)                            *)
(* ===================================================================== *)

Lemma strict_eq_string (x : jsval) (s : string) :
  strict_eq x (Some (JStr s)) = true <-> x = Some (JStr s).
Proof.
  destruct x as [[|b|z|s'|l|kvs]|]; cbn; try (split; [discriminate|congruence]).
  rewrite String.eqb_eq. split; congruence.
Qed.

Lemma recovered_names now (original retry : list FailedTest) (s : string) :
  Some (JStr s) ∈ map scenarioName (details_recovered (retryReport now original retry))
  <-> Some (JStr s) ∈ map scenarioName original
      /\ Some (JStr s) ∉ map scenarioName retry.
Proof.
  cbn [retryReport details_recovered].
  rewrite !list_elem_of_In, !in_map_iff. split.
  - intros (t & Hn & Ht). apply filter_In in Ht as [Ht Hb].
    split; [eauto|]. intros (t' & Hn' & Ht').
    apply negb_true_iff in Hb. apply not_true_iff_false in Hb. apply Hb.
    apply existsb_exists. exists t'. split; [exact Ht'|].
    rewrite Hn. by apply strict_eq_string.
  - intros [(t & Hn & Ht) Hnot]. exists t. split; [exact Hn|].
    apply filter_In. split; [exact Ht|].
    apply negb_true_iff, not_true_iff_false.
    intros (t' & Ht' & He)%existsb_exists. apply Hnot.
    exists t'. split; [|exact Ht'].
    rewrite Hn in He. by apply strict_eq_string.
Qed.

Lemma forallb_seqZ (f : Z -> bool) (a len x : Z) :
  forallb f (seqZ a len) = true -> a <= x < a + len -> f x = true.
Proof.
  intros H Hx. rewrite forallb_forall in H. apply H.
  apply list_elem_of_In, elem_of_seqZ. lia.
Qed.

Lemma rates_checked_below_160 :
  forallb (fun n => forallb (fun m => rate_agrees n m) (seqZ 0 (n + 1))) (seqZ 1 159)
  = true.
Proof. vm_compute. reflexivity. Qed.

Lemma success_rate_hundredths (n m h : Z) :
  rate_hundredths n m = Some h -> success_rate n m = show_hundredths h.
Proof.
  unfold rate_hundredths, success_rate.
  destruct (double_mul _ _) as [s|s| |[|] mant e]; try discriminate.
  - intros [= <-]. reflexivity.
  - intros [= <-]. reflexivity.
Qed.

Lemma success_rate_exact_below_160 (n m : Z) :
  0 < n < 160 -> 0 <= m <= n -> success_rate n m = exact_rate_half_up n m.
Proof.
  intros Hn Hm.
  assert (rate_agrees n m = true) as H.
  { apply (forallb_seqZ (fun m => rate_agrees n m) 0 (n + 1) m); [|lia].
    apply (forallb_seqZ
             (fun n => forallb (fun m => rate_agrees n m) (seqZ 0 (n + 1)))
             1 159 n); [|lia].
    exact rates_checked_below_160. }
  unfold rate_agrees in H.
  destruct (rate_hundredths n m) as [h|] eqn:Hh; [|discriminate].
  apply Z.eqb_eq in H. subst h. by apply success_rate_hundredths.
Qed.

(** C3, as amended.  For a retry session with [n] original failures and [m]
    still failing, the summary has [recovered = n - m]; the recovered names
    are the original failing scenario names that do not appear among the
    still-failing names; [successRate] is [toFixed(2)] of the double-precision
    value of [(n - m) / n * 100], which is [(n - m) / n * 100] rounded to two
    decimals (halves upwards) whenever [0 < n < 160] and [m <= n]. *)
Theorem retry_report_summary now (original retry : list FailedTest) :
  let r := retryReport now original retry in
  let n := Z.of_nat (length original) in
  let m := Z.of_nat (length retry) in
  originalFailures r = n /\ stillFailing r = m /\ recovered r = n - m
  /\ successRate r
     = toFixed2
         (double_mul
            (double_div (double_sub (to_double n) (to_double m)) (to_double n))
            (to_double 100))
  /\ (0 < n < 160 -> m <= n -> successRate r = exact_rate_half_up n m)
  /\ (forall s : string,
        Some (JStr s) ∈ map scenarioName (details_recovered r)
        <-> Some (JStr s) ∈ map scenarioName original
            /\ Some (JStr s) ∉ map scenarioName retry).
Proof.
  cbv zeta. do 4 (split; [reflexivity|]). split.
  - intros Hn Hm. cbn [retryReport successRate].
    apply success_rate_exact_below_160; lia.
  - intros s. apply recovered_names.
Qed.

Lemma retry_report_summary_witness :
  let a := named "Search for user A" "src/features/search.feature" in
  let b := named "Navigate to repos B" "src/features/repos.feature" in
  let c := named "Follow user C" "src/features/search.feature" in
  let r := retryReport "t0" [a; b; c] [b] in
  recovered r = 2
  /\ successRate r = "66.67"
  /\ (Some (JStr "Search for user A") ∈ map scenarioName (details_recovered r)).
Proof.
  cbv zeta.
  destruct (retry_report_summary "t0"
              [named "Search for user A" "src/features/search.feature";
               named "Navigate to repos B" "src/features/repos.feature";
               named "Follow user C" "src/features/search.feature"]
              [named "Navigate to repos B" "src/features/repos.feature"])
    as (_ & _ & Hrec & _ & Hrate & Hnames).
  split; [exact Hrec|]. split.
  - rewrite Hrate; [reflexivity| cbn; lia | cbn; lia].
  - apply Hnames. split.
    + cbn. apply list_elem_of_here.
    + cbn. intros H%list_elem_of_In. cbn in H. destruct H as [H|[]]. discriminate H.
Defined.

(** C3, as stated, fails: with 160 original failures of which 73 still fail,
    [(160 - 73) / 160 * 100] is 54.375, which rounds to 54.38 (halves upwards,
    and halves to even alike), while the summary holds 54.37. *)
Lemma retry_report_rate_counterexample :
  let t := named "Search for user A" "src/features/search.feature" in
  successRate (retryReport "t0" (replicate 160 t) (replicate 73 t)) = "54.37"
  /\ exact_rate_half_up 160 73 = "54.38"
  /\ exact_rate_half_even 160 73 = "54.38".
Proof.
  cbv zeta. repeat split; vm_compute; reflexivity.
Qed.

(* ===================================================================== *)
(** ** The failed-test registry (saveFailedTest, clearFailedTests)        *)
(* ===================================================================== *)

Lemma existsSync_file w p t : files w !! p = Some t -> existsSync w p = true.
Proof.
  intros H. unfold existsSync. rewrite H. apply orb_true_iff. left.
  apply bool_decide_eq_true. eauto.
Qed.

Lemma getFailedTests_registry w L :
  registry w = Some L ->
  (getFailedTests w).1 = Ok (JArr L) /\ files (getFailedTests w).2 = files w.
Proof.
  unfold registry, getFailedTests. intros H. eff_unfold.
  destruct (files w !! FAILED_TESTS_FILE) as [[v|]|] eqn:Hf; try discriminate.
  - destruct v; try discriminate. injection H as ->.
    rewrite (existsSync_file _ _ _ Hf). cbv beta iota.
    unfold readFileSync. rewrite Hf. cbn. eauto.
  - injection H as <-.
    destruct (existsSync w FAILED_TESTS_FILE); cbv beta iota; [|eauto].
    unfold readFileSync. rewrite Hf. cbn. eauto.
Qed.

(** Writing the registry, from a world in which it can be written and after
    the directory was made if need be. *)
Lemma write_registry (w : world) (t : text) :
  registry_writable w ->
  let w1 := if existsSync w FAILED_TESTS_DIR then w else mkdirSync w FAILED_TESTS_DIR in
  writeFileSync_checked w1 FAILED_TESTS_FILE t = Ok (writeFileSync w1 FAILED_TESTS_FILE t).
Proof.
  intros Hw. cbv zeta. unfold writeFileSync_checked.
  set (w1 := if existsSync w FAILED_TESTS_DIR then w else mkdirSync w FAILED_TESTS_DIR).
  assert (files w1 = files w) as Hfiles by (unfold w1; by destruct (existsSync _ _)).
  rewrite Hfiles.
  destruct Hw as [Hfile|[Hdir Hparent]].
  { by rewrite bool_decide_eq_true_2. }
  case_bool_decide; [reflexivity|].
  assert (FAILED_TESTS_FILE ∉ dirs w1) as Hdir1.
  { unfold w1. destruct (existsSync _ _); [exact Hdir|].
    cbn. intros [H1|H1]%elem_of_union; [|by apply Hdir].
    apply elem_of_singleton in H1. discriminate H1. }
  rewrite bool_decide_eq_false_2 by exact Hdir1.
  change (path_dirname FAILED_TESTS_FILE) with FAILED_TESTS_DIR.
  assert (is_directory w1 FAILED_TESTS_DIR = true) as ->; [|reflexivity].
  unfold is_directory. rewrite Hfiles, Hparent.
  rewrite (bool_decide_eq_false_2 (is_Some None)) by (by intros [? ?]).
  cbn [negb]. rewrite andb_true_r. apply orb_true_iff. right.
  apply bool_decide_eq_true. unfold w1.
  destruct (existsSync w FAILED_TESTS_DIR) eqn:He.
  - unfold existsSync in He. rewrite Hparent in He.
    rewrite (bool_decide_eq_false_2 (is_Some None)) in He by (by intros [? ?]).
    by apply bool_decide_eq_true in He.
  - cbn. apply elem_of_union. left. by apply elem_of_singleton.
Qed.

(** Reading the registry changes no file and no directory. *)
Lemma getFailedTests_world (w : world) :
  files (getFailedTests w).2 = files w /\ dirs (getFailedTests w).2 = dirs w.
Proof.
  unfold getFailedTests. eff_unfold.
  destruct (existsSync w FAILED_TESTS_FILE); cbv beta iota; [|by split].
  destruct (readFileSync w FAILED_TESTS_FILE) as [content|]; cbn;
    [destruct (JSON_parse content)|]; cbn; by split.
Qed.

Lemma saveFailedTest_written w L t :
  (getFailedTests w).1 = Ok (JArr L) ->
  registry_writable w ->
  (saveFailedTest t w).1 = Ok tt
  /\ files (saveFailedTest t w).2
     = <[FAILED_TESTS_FILE := Some (JArr (L ++ [to_json t]))]> (files w).
Proof.
  intros Hg Hw. destruct (getFailedTests_world w) as [Hw' Hd'].
  unfold saveFailedTest. eff_unfold.
  destruct (getFailedTests w) as [r w'] eqn:Hget. cbn in Hg, Hw', Hd'. subst r.
  cbn [as_array].
  assert (registry_writable w') as Hwr.
  { unfold registry_writable. by rewrite Hw', Hd'. }
  pose proof (write_registry w' (JSON_stringify (JArr (L ++ [to_json t]))) Hwr) as Hwrite.
  cbv zeta in Hwrite.
  destruct (existsSync w' FAILED_TESTS_DIR); rewrite Hwrite;
    destruct (to_string_value (scenarioName t)); cbn; by rewrite Hw'.
Qed.

Lemma saveFailedTest_registry w L t :
  registry w = Some L ->
  registry_writable w ->
  (saveFailedTest t w).1 = Ok tt
  /\ files (saveFailedTest t w).2
     = <[FAILED_TESTS_FILE := Some (JArr (L ++ [to_json t]))]> (files w).
Proof.
  intros H Hw. destruct (getFailedTests_registry w L H) as (Hg & _).
  by apply saveFailedTest_written.
Qed.

(** C7.  [saveFailedTest] appends: when the registry on disk holds the list
    [L] (the empty one when the file is absent) and can be written (it is a
    regular file; or it is absent, no directory stands in its place and
    [test-results] is no regular file), after the call it holds exactly [L]
    followed by the new record with its six fields, reading it back yields
    that list, and no other file has changed; a second call adds its record
    behind the first, whether or not the two name the same scenario, so
    nothing is deduplicated and no earlier entry is removed or changed. *)
Theorem save_failed_test_appends (w : world) (L : list json)
    (name file ln message : json) (time : string) (n : Z) :
  registry w = Some L ->
  registry_writable w ->
  let t := failed_test name file ln message time n in
  let w1 := (saveFailedTest t w).2 in
  registry w1 = Some (L ++ [registry_entry name file ln message time n])
  /\ (getFailedTests w1).1 = Ok (JArr (L ++ [registry_entry name file ln message time n]))
  /\ (forall p, p <> FAILED_TESTS_FILE -> files w1 !! p = files w !! p)
  /\ forall (name' file' ln' message' : json) (time' : string) (n' : Z),
       registry (saveFailedTest (failed_test name' file' ln' message' time' n') w1).2
       = Some (L ++ [registry_entry name file ln message time n;
                     registry_entry name' file' ln' message' time' n']).
Proof.
  intros H Hw. cbv zeta.
  destruct (saveFailedTest_registry w L (failed_test name file ln message time n) H Hw)
    as [_ Hf].
  change (to_json (failed_test name file ln message time n))
    with (registry_entry name file ln message time n) in Hf.
  set (w1 := (saveFailedTest (failed_test name file ln message time n) w).2) in *.
  assert (registry w1 = Some (L ++ [registry_entry name file ln message time n])) as H1.
  { unfold registry. rewrite Hf, lookup_insert_eq. reflexivity. }
  assert (registry_writable w1) as Hw1.
  { left. rewrite Hf, lookup_insert_eq. eauto. }
  split; [exact H1|]. split; [|split].
  - by destruct (getFailedTests_registry _ _ H1) as (Hg & _).
  - intros p Hp. rewrite Hf. by rewrite lookup_insert_ne.
  - intros name' file' ln' message' time' n'.
    destruct (saveFailedTest_registry _ _ (failed_test name' file' ln' message' time' n')
                H1 Hw1) as [_ Hf'].
    unfold registry. rewrite Hf', lookup_insert_eq, <- app_assoc. reflexivity.
Qed.

Lemma save_failed_test_appends_witness :
  let t :=
    failed_test (JStr "Search for user A") (JStr "src/features/search.feature")
      (JNum 9) (JStr "TimeoutError: 30000ms") "2024-12-01T21:30:15.000Z" 1 in
  registry (saveFailedTest t (saveFailedTest t (World ∅ ∅ [])).2).2
  = Some [JObj [("scenarioName", JStr "Search for user A");
                ("featureFile", JStr "src/features/search.feature");
                ("line", JNum 9);
                ("error", JStr "TimeoutError: 30000ms");
                ("timestamp", JStr "2024-12-01T21:30:15.000Z");
                ("attempt", JNum 1)];
           JObj [("scenarioName", JStr "Search for user A");
                ("featureFile", JStr "src/features/search.feature");
                ("line", JNum 9);
                ("error", JStr "TimeoutError: 30000ms");
                ("timestamp", JStr "2024-12-01T21:30:15.000Z");
                ("attempt", JNum 1)]].
Proof.
  cbv zeta.
  destruct (save_failed_test_appends (World ∅ ∅ []) []
              (JStr "Search for user A") (JStr "src/features/search.feature")
              (JNum 9) (JStr "TimeoutError: 30000ms") "2024-12-01T21:30:15.000Z" 1)
    as (_ & _ & _ & H).
  - reflexivity.
  - right. split; [|reflexivity].
    apply (bool_decide_unpack _). vm_compute. exact I.
  - apply H.
Defined.

(** Where the registry cannot be written, [saveFailedTest] returns as usual
    and has written nothing: here a directory stands in the place of the
    registry, and there [test-results] is a regular file. *)
Lemma save_failed_test_unwritable (t : FailedTest) :
  let blocked := World ∅ {[FAILED_TESTS_DIR; FAILED_TESTS_FILE]} [] in
  let below_a_file := World {[FAILED_TESTS_DIR := None]} ∅ [] in
  registry blocked = Some []
  /\ (saveFailedTest t blocked).1 = Ok tt
  /\ files (saveFailedTest t blocked).2 = ∅
  /\ registry below_a_file = Some []
  /\ (saveFailedTest t below_a_file).1 = Ok tt
  /\ files (saveFailedTest t below_a_file).2 = files below_a_file.
Proof.
  cbv zeta. repeat split; vm_compute; reflexivity.
Qed.

Lemma clearFailedTests_files w :
  (clearFailedTests w).1 = Ok tt
  /\ files (clearFailedTests w).2 = delete FAILED_TESTS_FILE (files w)
  /\ dirs (clearFailedTests w).2 = dirs w.
Proof.
  unfold clearFailedTests. eff_unfold.
  destruct (files w !! FAILED_TESTS_FILE) as [t|] eqn:Hf.
  - rewrite (existsSync_file _ _ _ Hf). cbv beta iota.
    unfold unlinkSync. rewrite Hf. cbn. auto.
  - destruct (existsSync w FAILED_TESTS_FILE); cbv beta iota.
    + unfold unlinkSync. rewrite Hf. cbn. by rewrite delete_id.
    + cbn. by rewrite delete_id.
Qed.

Lemma is_file_lookup w p : is_file w p = false -> files w !! p = None.
Proof.
  unfold is_file. intros H%bool_decide_eq_false.
  destruct (files w !! p); [|reflexivity]. exfalso. eauto.
Qed.

Lemma clear_failed_tests_files w :
  files (clear_failed_tests w)
  = delete RETRY_REPORT_FILE (delete FAILED_TESTS_FILE (files w))
  /\ dirs (clear_failed_tests w) = dirs w
  /\ console (clear_failed_tests w) = console w.
Proof.
  unfold clear_failed_tests.
  destruct (is_file w FAILED_TESTS_FILE) eqn:H1;
    [|rewrite (delete_id _ _ (is_file_lookup _ _ H1))].
  - destruct (is_file (rm w FAILED_TESTS_FILE) RETRY_REPORT_FILE) eqn:H2;
      [done|]. by rewrite (delete_id _ _ (is_file_lookup _ _ H2)).
  - destruct (is_file w RETRY_REPORT_FILE) eqn:H2;
      [done|]. by rewrite (delete_id _ _ (is_file_lookup _ _ H2)).
Qed.

Lemma clear_failed_tests_absent w :
  files w !! FAILED_TESTS_FILE = None ->
  files w !! RETRY_REPORT_FILE = None ->
  clear_failed_tests w = w.
Proof.
  intros H1 H2. unfold clear_failed_tests, is_file.
  rewrite H1. cbn. rewrite H2. reflexivity.
Qed.

(** C8, as amended.  Both clearing operations are total and idempotent on
    the files they manage.  [clearFailedTests] (RetryHelpers) completes
    without an error from any state, removes the failed-test registry and
    nothing else (the retry summary file stays as it was), and a second call
    changes no file.  [clear_failed_tests] (the retry script) removes the
    registry and the retry summary, and a second call changes nothing. *)
Theorem clear_is_total_and_idempotent (w : world) :
  let w1 := (clearFailedTests w).2 in
  let s1 := clear_failed_tests w in
  (clearFailedTests w).1 = Ok tt
  /\ files w1 = delete FAILED_TESTS_FILE (files w)
  /\ files w1 !! FAILED_TESTS_FILE = None
  /\ files w1 !! RETRY_REPORT_FILE = files w !! RETRY_REPORT_FILE
  /\ (clearFailedTests w1).1 = Ok tt
  /\ files (clearFailedTests w1).2 = files w1
  /\ files s1 !! FAILED_TESTS_FILE = None
  /\ files s1 !! RETRY_REPORT_FILE = None
  /\ clear_failed_tests s1 = s1.
Proof.
  cbv zeta.
  destruct (clearFailedTests_files w) as (Hr & Hf & Hd).
  destruct (clearFailedTests_files (clearFailedTests w).2) as (Hr' & Hf' & Hd').
  destruct (clear_failed_tests_files w) as (Sf & Sd & Sc).
  assert (files (clear_failed_tests w) !! FAILED_TESTS_FILE = None) as S1.
  { rewrite Sf. rewrite lookup_delete_ne by done. apply lookup_delete_eq. }
  assert (files (clear_failed_tests w) !! RETRY_REPORT_FILE = None) as S2.
  { rewrite Sf. apply lookup_delete_eq. }
  repeat split; try assumption.
  - rewrite Hf. apply lookup_delete_eq.
  - rewrite Hf. by rewrite lookup_delete_ne.
  - rewrite Hf', Hf. by rewrite delete_delete_eq.
  - by apply clear_failed_tests_absent.
Qed.

(** C8, as stated, fails for [clearFailedTests]: with a registry and a retry
    summary on disk, the summary file is still there after the call. *)
Lemma clear_failed_tests_keeps_summary_counterexample :
  let w :=
    World {[FAILED_TESTS_FILE := Some (JArr []);
            RETRY_REPORT_FILE := Some (JObj [])]} ∅ [] in
  (clearFailedTests w).1 = Ok tt
  /\ files (clearFailedTests w).2 !! RETRY_REPORT_FILE = Some (Some (JObj [])).
Proof.
  split; reflexivity.
Qed.

(* ===================================================================== *)
(** ** The recommended worker count (getRecommendedWorkerCount)           *)
(* ===================================================================== *)

Lemma getWorkerCount_override m s :
  first_set (getenv m "CUCUMBER_WORKERS") (getenv m "PLAYWRIGHT_WORKERS") = Some s ->
  s <> "" ->
  getWorkerCount m
  = match parseInt10 s with
    | Some count => Z.max 1 count
    | None => getOptimalWorkerCount m
    end.
Proof.
  intros Ho Hs. unfold getWorkerCount. rewrite Ho. cbn [is_set default].
  destruct (String.eqb s "") eqn:He; [by apply String.eqb_eq in He|reflexivity].
Qed.

(** C6, as amended.  Outside CI and without a worker-count override, the
    recommended worker count is
    [min (max 1 (floor (cpuCount * 0.5))) (floor (totalMemoryGB / 0.5)) 8],
    so it never exceeds 8, and it is positive when the machine has at least
    half a gigabyte of memory; 8 CPUs and 16 GB give 4.  Outside CI, an override
    ([CUCUMBER_WORKERS], else [PLAYWRIGHT_WORKERS]) in ASCII text that parses
    as an integer [k] of at most 2^53 in absolute value yields [max 1 k],
    whatever the computed value and also above 8, and an override in ASCII text
    that does not parse yields the computed value.  Under CI the count is 2
    unless [CI_WORKERS] is set, and [max 1 k] when that is ASCII text that
    parses as such a [k]. *)
Theorem recommended_worker_count (m : machine) :
  let override :=
    first_set (getenv m "CUCUMBER_WORKERS") (getenv m "PLAYWRIGHT_WORKERS") in
  (isCI m = false -> is_set override = false ->
   getRecommendedWorkerCount m
   = Some (Z.min (Z.min (Z.max 1 (cpuCount m / 2)) (totalmem m / 2 ^ 29)) 8))
  /\ (isCI m = false -> is_set override = false -> 2 ^ 29 <= totalmem m ->
      exists k, getRecommendedWorkerCount m = Some k /\ 1 <= k <= 8)
  /\ (forall s k, isCI m = false -> override = Some s -> s <> "" ->
      ascii_text s -> parseInt10 s = Some k -> Z.abs k <= 2 ^ 53 ->
      getRecommendedWorkerCount m = Some (Z.max 1 k)
      /\ (1 <= k -> getRecommendedWorkerCount m = Some k))
  /\ (forall s, isCI m = false -> override = Some s -> s <> "" ->
      ascii_text s -> parseInt10 s = None ->
      getRecommendedWorkerCount m = Some (getOptimalWorkerCount m))
  /\ (isCI m = true -> is_set (getenv m "CI_WORKERS") = false ->
      getRecommendedWorkerCount m = Some 2)
  /\ (forall s k, isCI m = true -> getenv m "CI_WORKERS" = Some s -> s <> "" ->
      ascii_text s -> parseInt10 s = Some k -> Z.abs k <= 2 ^ 53 ->
      getRecommendedWorkerCount m = Some (Z.max 1 k)).
Proof.
  cbv zeta. unfold getRecommendedWorkerCount.
  split; [|split; [|split; [|split; [|split]]]].
  - intros -> Ho. unfold getWorkerCount. by rewrite Ho.
  - intros -> Ho Hm. unfold getWorkerCount. rewrite Ho.
    eexists. split; [reflexivity|]. unfold getOptimalWorkerCount.
    assert (1 <= totalmem m / 2 ^ 29) by (apply Z.div_le_lower_bound; lia).
    lia.
  - intros s k -> Ho Hs _ Hp _. rewrite (getWorkerCount_override m s Ho Hs), Hp.
    split; [reflexivity|]. intros Hk. f_equal. lia.
  - intros s -> Ho Hs _ Hp. by rewrite (getWorkerCount_override m s Ho Hs), Hp.
  - intros -> Hc. unfold getCIWorkerCount. by rewrite Hc.
  - intros s k -> Hc Hs _ Hp _. unfold getCIWorkerCount. rewrite Hc.
    cbn [is_set default].
    destruct (String.eqb s "") eqn:He; [by apply String.eqb_eq in He|].
    cbn [negb id]. by rewrite Hp.
Qed.

Lemma recommended_worker_count_witness :
  getRecommendedWorkerCount
    {| cpuCount := 8; totalmem := 16 * 2 ^ 30; freemem := 4 * 2 ^ 30; env := ∅ |}
  = Some 4
  /\ getRecommendedWorkerCount
       {| cpuCount := 8; totalmem := 16 * 2 ^ 30; freemem := 4 * 2 ^ 30;
          env := {["PLAYWRIGHT_WORKERS" := "6"]} |}
     = Some 6.
Proof.
  split.
  - destruct (recommended_worker_count
                {| cpuCount := 8; totalmem := 16 * 2 ^ 30; freemem := 4 * 2 ^ 30;
                   env := ∅ |}) as (H & _).
    rewrite H; reflexivity.
  - destruct (recommended_worker_count
                {| cpuCount := 8; totalmem := 16 * 2 ^ 30; freemem := 4 * 2 ^ 30;
                   env := {["PLAYWRIGHT_WORKERS" := "6"]} |}) as (_ & _ & H & _).
    apply (H "6" 6); try reflexivity; [discriminate| |lia|lia].
    apply (bool_decide_unpack _). vm_compute. exact I.
Defined.

(** C6, as stated, fails: on a machine with 8 CPUs and 16 GB that is not
    under CI, the override [CUCUMBER_WORKERS=16] makes the recommended count
    16, which exceeds 8; and on a machine with 4 CPUs and 256 MB, without any
    override, the recommended count is 0, which is not positive. *)
Lemma recommended_worker_count_counterexample :
  let m :=
    {| cpuCount := 8; totalmem := 16 * 2 ^ 30; freemem := 4 * 2 ^ 30;
       env := {["CUCUMBER_WORKERS" := "16"]} |} in
  let small :=
    {| cpuCount := 4; totalmem := 2 ^ 28; freemem := 2 ^ 27; env := ∅ |} in
  isCI m = false /\ getRecommendedWorkerCount m = Some 16 /\ 8 < 16
  /\ isCI small = false /\ getRecommendedWorkerCount small = Some 0.
Proof.
  cbv zeta. repeat split; reflexivity.
Qed.

(* ===================================================================== *)
(** ** Loading an environment (EnvironmentManager.loadEnvironment)        *)
(* ===================================================================== *)

Import EnvironmentManager.

Lemma loadConfigFile_unloadable w p :
  unloadable w p -> exists e, loadConfigFile w p = Throw e.
Proof.
  unfold loadConfigFile. intros [H|H].
  - rewrite H. cbn. eauto.
  - rewrite (existsSync_file _ _ _ H). cbn. unfold readFileSync. rewrite H.
    cbn. eauto.
Qed.

Lemma load_body_unloadable dirname env st :
  unloadable (io st) (config_path dirname "base")
  \/ unloadable (io st) (config_path dirname env) ->
  exists e, load_body dirname env st = (Throw e, st).
Proof.
  unfold load_body. intros [H|H].
  - destruct (loadConfigFile_unloadable _ _ H) as [e ->]. eauto.
  - destruct (loadConfigFile_unloadable _ _ H) as [e ->].
    destruct (loadConfigFile (io st) (config_path dirname "base")); eauto.
Qed.

(** C9.  [loadEnvironment] is not atomic on failure: when the base file or
    the file of the requested environment is missing or is not JSON, the call
    throws and leaves the cached configuration as it was (so [getConfig] still
    yields a configuration loaded before), while [getCurrentEnvironment]
    returns the name of the environment that failed to load, that name having
    been assigned before any file is read. *)
Theorem load_environment_failure (dirname : string) (environment : option string)
    (st : state) :
  let env := resolve environment (process_env st) in
  unloadable (io st) (config_path dirname "base")
  \/ unloadable (io st) (config_path dirname env) ->
  exists e st',
    loadEnvironment dirname environment st = (Throw e, st')
    /\ config st' = config st
    /\ getCurrentEnvironment st' = env
    /\ files (io st') = files (io st)
    /\ forall c, config st = Some c -> getConfig dirname st' = (Ok c, st').
Proof.
  cbv zeta. intros H. unfold loadEnvironment.
  set (env := resolve environment (process_env st)).
  set (st0 := State (config st) env (process_env st) (io st)).
  destruct (load_body_unloadable dirname env st0 H) as [e ->].
  eexists _, _. split; [reflexivity|]. cbn.
  repeat split. intros c Hc. unfold getConfig. cbn. by rewrite Hc.
Qed.

Lemma load_environment_failure_witness :
  let loaded := JObj [("environment", JObj [("name", JStr "Development")])] in
  let st := State (Some loaded) "dev" ∅ (World ∅ ∅ []) in
  let st' := (loadEnvironment "/app/src/config" (Some "staging") st).2 in
  is_throw (loadEnvironment "/app/src/config" (Some "staging") st).1 = true
  /\ getCurrentEnvironment st' = "staging"
  /\ getConfig "/app/src/config" st' = (Ok loaded, st').
Proof.
  cbv zeta.
  destruct (load_environment_failure "/app/src/config" (Some "staging")
              (State (Some (JObj [("environment", JObj [("name", JStr "Development")])]))
                 "dev" ∅ (World ∅ ∅ [])))
    as (e & st' & Hl & Hc & He & _ & Hg).
  - left. left. reflexivity.
  - rewrite Hl. cbn [fst snd]. split; [reflexivity|]. split; [exact He|].
    apply Hg. reflexivity.
Defined.

(** Besides the two failures above there is a third way for the call to
    throw: both files are JSON but the merged configuration has no
    [environment] entry, and the line that prints its name throws after the
    cache has been overwritten. *)
Example load_environment_shape_failure :
  let loaded := JObj [("environment", JObj [("name", JStr "Development")])] in
  let w :=
    World {["/app/environments/base.json" := Some (JObj []);
            "/app/environments/staging.json" := Some (JObj [])]} ∅ [] in
  let st := State (Some loaded) "dev" ∅ w in
  let st' := (loadEnvironment "/app" (Some "staging") st).2 in
  is_throw (loadEnvironment "/app" (Some "staging") st).1 = true
  /\ config st' = Some (JObj [])
  /\ getCurrentEnvironment st' = "staging".
Proof.
  cbv zeta. repeat split; reflexivity.
Qed.

(* ===================================================================== *)
(** ** Splitting scenarios across workers                                 *)
(* ===================================================================== *)

Section Split.

#[local] Open Scope nat_scope.

Context {T : Type}.
Implicit Types (l : list T) (w n c j : nat).

Lemma succ_div_mod n w :
  0 < w ->
  (n mod w + 1 < w /\ (n + 1) / w = n / w /\ (n + 1) mod w = n mod w + 1)
  \/ (n mod w + 1 = w /\ (n + 1) / w = n / w + 1 /\ (n + 1) mod w = 0).
Proof.
  intros Hw.
  pose proof (Nat.div_mod_eq n w) as Hn.
  pose proof (Nat.mod_upper_bound n w ltac:(lia)) as Hr.
  destruct (decide (n mod w + 1 < w)) as [Hlt|Hge].
  - left. split; [exact Hlt|]. split.
    + symmetry. apply (Nat.div_unique _ _ _ (n mod w + 1)); lia.
    + symmetry. apply (Nat.mod_unique _ _ (n / w)); lia.
  - right. split; [lia|]. split.
    + symmetry. apply (Nat.div_unique _ _ _ 0); lia.
    + symmetry. apply (Nat.mod_unique _ _ (n / w + 1)); lia.
Qed.

Lemma dealt_snoc l x w :
  dealt (l ++ [x]) w = deal w (dealt l w) (length l, x).
Proof.
  unfold dealt. rewrite length_app. cbn [length].
  rewrite seq_app. cbn [seq].
  rewrite zip_with_app by (by rewrite length_seq).
  rewrite fold_left_app. reflexivity.
Qed.

Lemma dealt_invariant l w :
  0 < w ->
  length (dealt l w) = w
  /\ forall c, c < w -> exists chunk, dealt l w !! c = Some chunk /\ chunk_ok l w c chunk.
Proof.
  intros Hw. induction l as [|x l IH] using rev_ind.
  - split; [apply length_replicate|]. intros c Hc. exists [].
    split; [by apply lookup_replicate_2|]. split.
    + cbn. rewrite Nat.Div0.div_0_l, Nat.Div0.mod_0_l. by case_decide; [lia|].
    + intros j. by rewrite !lookup_nil.
  - destruct IH as [Hlen IH]. rewrite dealt_snoc. unfold deal.
    unfold chunk_ok in *.
    set (n := length l). set (c0 := n mod w).
    assert (c0 < w) as Hc0 by (apply Nat.mod_upper_bound; lia).
    destruct (IH c0 Hc0) as (chunk0 & Hl0 & Hlen0 & Hget0). rewrite Hl0.
    split; [by rewrite length_insert|].
    pose proof (Nat.div_mod_eq n w) as Hn. fold c0 in Hn.
    rewrite length_app. cbn [length]. fold n.
    fold n in Hlen0. fold c0 in Hlen0.
    rewrite decide_False in Hlen0 by lia.
    intros c Hc. destruct (decide (c = c0)) as [->|Hne].
    + exists (chunk0 ++ [x]). split.
      { apply list_lookup_insert_eq. by rewrite Hlen. }
      split.
      * rewrite length_app. cbn [length].
        destruct (succ_div_mod n w Hw) as [(H1 & H2 & H3)|(H1 & H2 & H3)];
          rewrite H2, H3; fold c0 in H1 |- *; case_decide; lia.
      * intros j. destruct (decide (j < n / w)) as [Hj|Hj].
        { rewrite lookup_app_l by lia. rewrite lookup_app_l by (fold n; nia).
          apply Hget0. }
        destruct (decide (j = n / w)) as [->|Hj'].
        { rewrite list_lookup_middle by lia.
          rewrite list_lookup_middle; [done|]. fold n. lia. }
        rewrite !lookup_ge_None_2; [done| |].
        -- rewrite length_app. cbn [length]. fold n. nia.
        -- rewrite length_app. cbn [length]. lia.
    + destruct (IH c Hc) as (chunk & Hl & Hlenc & Hget). exists chunk. split.
      { by rewrite list_lookup_insert_ne. }
      fold n in Hlenc. fold c0 in Hlenc. split.
      * destruct (succ_div_mod n w Hw) as [(H1 & H2 & H3)|(H1 & H2 & H3)];
          rewrite H2, H3; fold c0 in H1 |- *; rewrite Hlenc;
          repeat case_decide; lia.
      * intros j. rewrite Hget.
        destruct (decide (c + j * w < n)) as [Hlt|Hge].
        { by rewrite lookup_app_l. }
        assert (c + j * w <> n) as Hneq.
        { intros Heq. apply Hne. unfold c0.
          apply (Nat.mod_unique _ _ j); lia. }
        rewrite !lookup_ge_None_2; [done| |].
        -- rewrite length_app. cbn [length]. fold n. lia.
        -- fold n. lia.
Qed.

Lemma filter_prefix {A} (P : A -> Prop) `{!forall x, Decision (P x)} (L : list A) k :
  (forall i x, L !! i = Some x -> (P x <-> i < k)) ->
  filter P L = take k L.
Proof.
  revert k. induction L as [|a L IH]; intros k Hp.
  - by rewrite take_nil.
  - rewrite filter_cons. destruct k as [|k].
    + rewrite decide_False by (intros Ha; apply (Hp 0 a) in Ha; [lia|done]).
      rewrite (IH 0); [done|]. intros i x Hi. split; [|lia].
      intros Hx. apply (Hp (S i) x) in Hx; [lia|done].
    + rewrite decide_True by (apply (Hp 0 a); [done|lia]).
      cbn [take]. f_equal. apply IH. intros i x Hi.
      rewrite (Hp (S i) x Hi). lia.
Qed.

Lemma chunk_nonempty l w c chunk :
  0 < w -> c < w -> chunk_ok l w c chunk -> (0 < length chunk <-> c < length l).
Proof.
  intros Hw Hc [Hlen _]. rewrite Hlen.
  pose proof (Nat.div_mod_eq (length l) w).
  pose proof (Nat.mod_upper_bound (length l) w ltac:(lia)).
  case_decide; [lia|]. split; [|nia].
  intros Hpos. destruct (length l / w); [lia|nia].
Qed.

Lemma split_is_take l w :
  0 < w -> round_robin l w = take (length l) (dealt l w).
Proof.
  intros Hw. destruct (dealt_invariant l w Hw) as [Hlen Hinv].
  unfold round_robin.
  apply filter_prefix. intros i chunk Hi.
  assert (i < w) as Hiw by (rewrite <- Hlen; by eapply lookup_lt_Some).
  destruct (Hinv i Hiw) as (chunk' & Hi' & Hok).
  assert (chunk' = chunk) as -> by congruence.
  by apply (chunk_nonempty l w).
Qed.

Lemma concat_filter_nonempty (L : list (list T)) :
  concat (filter (fun chunk => 0 < length chunk) L) = concat L.
Proof.
  induction L as [|a L IH]; [reflexivity|].
  rewrite filter_cons. case_decide as Ha; cbn [concat]; rewrite IH; [done|].
  destruct a; [done|]. cbn in Ha. lia.
Qed.

Lemma concat_dealt l w : 0 < w -> concat (dealt l w) ≡ₚ l.
Proof.
  intros Hw. induction l as [|x l IH] using rev_ind.
  - unfold dealt. cbn. clear Hw. induction w as [|w IHw]; [done|exact IHw].
  - rewrite dealt_snoc. unfold deal.
    destruct (dealt l w !! (length l mod w)) as [chunk|] eqn:Hc.
    + rewrite insert_take_drop by (by eapply lookup_lt_Some).
      transitivity (concat (dealt l w) ++ [x]);
        [|by apply Permutation_app_tail].
      rewrite <- (take_drop_middle _ _ _ Hc) at 3.
      rewrite !concat_app. cbn [concat]. rewrite <- !app_assoc.
      do 2 apply Permutation_app_head. apply Permutation_app_comm.
    + destruct (dealt_invariant l w Hw) as [Hlen _].
      apply lookup_ge_None in Hc.
      pose proof (Nat.mod_upper_bound (length l) w ltac:(lia)). lia.
Qed.

(** Dealing round-robin to at least one worker gives a partition of the
    input. *)
Lemma round_robin_partition (scenarios : list T) (workerCount : nat) :
  1 <= workerCount ->
  let chunks := round_robin scenarios workerCount in
  concat chunks ≡ₚ scenarios
  /\ (forall i x, scenarios !! i = Some x ->
     chunks !! (i mod workerCount) ≫= (.!! (i / workerCount)) = Some x)
  /\ (forall c j x, chunks !! c ≫= (.!! j) = Some x ->
       c < workerCount /\ scenarios !! (c + j * workerCount) = Some x)
  /\ Forall (fun chunk => chunk <> []) chunks
  /\ length chunks <= workerCount
  /\ (forall p q : list T, p ∈ chunks -> q ∈ chunks -> length p <= length q + 1).
Proof.
  intros Hw. cbv zeta. split.
  { unfold round_robin.
    rewrite concat_filter_nonempty. apply concat_dealt. lia. }
  rewrite split_is_take by lia.
  destruct (dealt_invariant scenarios workerCount ltac:(lia)) as [Hlen Hinv].
  set (n := length scenarios).
  assert (0 < workerCount) as Hw0 by lia.
  split; [|split; [|split; [|split]]].
  - intros i x Hi. pose proof (lookup_lt_Some _ _ _ Hi) as Hin. fold n in Hin.
    pose proof (Nat.div_mod_eq i workerCount) as Hdm.
    pose proof (Nat.mod_upper_bound i workerCount ltac:(lia)) as Hr.
    rewrite lookup_take_lt by lia.
    destruct (Hinv (i mod workerCount) Hr) as (chunk & -> & _ & Hget). cbn.
    rewrite Hget, <- Hi. f_equal. lia.
  - intros c j x Hx.
    destruct (take n (dealt scenarios workerCount) !! c) as [chunk|] eqn:Hc; [|done].
    cbn in Hx. apply lookup_take_Some in Hc as [Hc Hcn].
    assert (c < workerCount) as Hcw by (rewrite <- Hlen; by eapply lookup_lt_Some).
    split; [exact Hcw|].
    destruct (Hinv c Hcw) as (chunk' & Hc' & _ & Hget).
    assert (chunk' = chunk) as -> by congruence. by rewrite <- Hget.
  - apply Forall_forall. intros chunk [i [Hi Hin]]%elem_of_take.
    assert (i < workerCount) as Hiw by (rewrite <- Hlen; by eapply lookup_lt_Some).
    destruct (Hinv i Hiw) as (chunk' & Hi' & Hok).
    assert (chunk' = chunk) as -> by congruence.
    apply (chunk_nonempty _ _ _ _ Hw0 Hiw) in Hok.
    intros ->. destruct Hok as [_ Hok]. specialize (Hok Hin). cbn in Hok. lia.
  - rewrite length_take. lia.
  - intros p q [i1 [H1 _]]%elem_of_take [i2 [H2 _]]%elem_of_take.
    assert (i1 < workerCount) as Hw1 by (rewrite <- Hlen; by eapply lookup_lt_Some).
    assert (i2 < workerCount) as Hw2 by (rewrite <- Hlen; by eapply lookup_lt_Some).
    destruct (Hinv i1 Hw1) as (p' & E1 & L1 & _).
    destruct (Hinv i2 Hw2) as (q' & E2 & L2 & _).
    assert (p' = p) as -> by congruence.
    assert (q' = q) as -> by congruence.
    rewrite L1, L2. repeat case_decide; lia.
Qed.
End Split.

(** An integer held by a double, as a divisor and as a length. *)
Lemma integer_value_positive (x : double) (n : Z) :
  integer_value x = Some n -> 1 <= n ->
  exists m e,
    x = S754_finite false m e
    /\ ((0 <= e /\ n = Z.pos m * 2 ^ e) \/ (e < 0 /\ Z.pos m = n * 2 ^ (- e))).
Proof.
  destruct x as [s|s| |s m e]; cbn [integer_value]; try discriminate.
  { intros [= <-]. lia. }
  intros H Hn. exists m, e.
  destruct (0 <=? e) eqn:He.
  - apply Z.leb_le in He. injection H as <-.
    destruct s; cbn [signed] in Hn |- *.
    + pose proof (Z.pow_pos_nonneg 2 e ltac:(lia) He). lia.
    + split; [reflexivity|]. left. lia.
  - apply Z.leb_gt in He.
    destruct (Z.pos m mod 2 ^ (- e) =? 0) eqn:Hm; [|discriminate].
    apply Z.eqb_eq in Hm. injection H as <-.
    pose proof (Z.pow_pos_nonneg 2 (- e) ltac:(lia) ltac:(lia)) as Hp.
    destruct s; cbn [signed] in Hn |- *.
    + pose proof (Z.div_lt_upper_bound (Z.neg m) (2 ^ (- e)) 0 Hp ltac:(lia)). lia.
    + split; [reflexivity|]. right. split; [exact He|].
      pose proof (Z.div_mod (Z.pos m) (2 ^ (- e)) ltac:(lia)). lia.
Qed.

Lemma integer_remainder_integer (i n : Z) (x : double) :
  integer_value x = Some n -> 1 <= n -> integer_remainder i x = Some (i mod n).
Proof.
  intros H Hn.
  destruct (integer_value_positive x n H Hn) as (m & e & -> & [[He ->]|[He Hm]]).
  - cbn [integer_remainder]. by rewrite (proj2 (Z.leb_le 0 e) He).
  - cbn [integer_remainder]. rewrite (proj2 (Z.leb_gt 0 e) He).
    pose proof (Z.pow_pos_nonneg 2 (- e) ltac:(lia) ltac:(lia)) as Hp.
    rewrite Hm. rewrite Zmult_mod_distr_r.
    rewrite Z.mod_mul by lia. cbn [Z.eqb]. by rewrite Z.div_mul by lia.
Qed.

Lemma ToLength_integer (n : Z) (x : double) :
  integer_value x = Some n -> 1 <= n < 2 ^ 53 -> ToLength x = n.
Proof.
  intros H Hn.
  destruct (integer_value_positive x n H ltac:(lia)) as (m & e & -> & [[He ->]|[He Hm]]).
  - cbn [ToLength]. rewrite (proj2 (Z.leb_le 0 e) He). lia.
  - cbn [ToLength]. rewrite (proj2 (Z.leb_gt 0 e) He).
    pose proof (Z.pow_pos_nonneg 2 (- e) ltac:(lia) ltac:(lia)) as Hp.
    rewrite Hm, Z.div_mul by lia. lia.
Qed.

(** For a worker count that is an integer which an array can have as its
    length, the chunks are those of the round-robin deal. *)
Lemma split_integer {T} (scenarios : list T) (workerCount : double) (n : nat) :
  integer_value workerCount = Some (Z.of_nat n) ->
  (1 <= n)%nat -> Z.of_nat n < 2 ^ 32 ->
  splitScenariosAcrossWorkers scenarios workerCount = Ok (round_robin scenarios n).
Proof.
  intros H Hn Hmax. unfold splitScenariosAcrossWorkers.
  rewrite (ToLength_integer (Z.of_nat n) workerCount H) by lia.
  rewrite (proj2 (Z.leb_gt _ _) Hmax), Nat2Z.id.
  unfold round_robin, dealt. do 2 f_equal.
  generalize (replicate n (@nil T)) as chunks.
  generalize (zip (seq 0 (length scenarios)) scenarios) as entries.
  induction entries as [|[index scenario] entries IH]; intros chunks; [reflexivity|].
  cbn [fold_left]. rewrite IH. f_equal.
  unfold push_scenario, deal.
  rewrite (integer_remainder_integer _ _ _ H) by lia.
  by rewrite <- Nat2Z.inj_mod, Nat2Z.id.
Qed.

(** C10, as amended.  For every list of scenarios and every worker count
    that is an integer from 1 to 2^32 - 1, [splitScenariosAcrossWorkers]
    returns a partition of the input: the chunks together hold the input
    elements, each as often as the input does, and they are dealt round-robin
    by position: the scenario at input position [i] is found in chunk
    [i mod workerCount] at position [i / workerCount], and conversely the
    element at position [j] of chunk [c] is the scenario at input position
    [c + j * workerCount], so that every input element lies in exactly one
    chunk and the input order is kept inside each chunk; no returned chunk is
    empty, at most [workerCount] chunks are returned, and the sizes of any two
    chunks differ by at most one. *)
Theorem split_scenarios_partition {T} (scenarios : list T) (workerCount : double)
    (n : nat) :
  integer_value workerCount = Some (Z.of_nat n) ->
  (1 <= n)%nat -> Z.of_nat n < 2 ^ 32 ->
  exists chunks,
    splitScenariosAcrossWorkers scenarios workerCount = Ok chunks
    /\ concat chunks ≡ₚ scenarios
    /\ (forall i x, scenarios !! i = Some x ->
        chunks !! (i mod n)%nat ≫= (.!! (i / n)%nat) = Some x)
    /\ (forall c j x, chunks !! c ≫= (.!! j) = Some x ->
        (c < n)%nat /\ scenarios !! (c + j * n)%nat = Some x)
    /\ Forall (fun chunk => chunk <> []) chunks
    /\ (length chunks <= n)%nat
    /\ (forall p q : list T, p ∈ chunks -> q ∈ chunks ->
        (length p <= length q + 1)%nat).
Proof.
  intros H Hn Hmax. exists (round_robin scenarios n).
  split; [by apply split_integer|].
  exact (round_robin_partition scenarios n Hn).
Qed.

Lemma split_scenarios_partition_witness :
  let scenarios := ["s0"; "s1"; "s2"; "s3"; "s4"; "s5"; "s6"] in
  exists chunks,
    splitScenariosAcrossWorkers scenarios (to_double 3) = Ok chunks
    /\ chunks = [["s0"; "s3"; "s6"]; ["s1"; "s4"]; ["s2"; "s5"]]
    /\ chunks !! (4 mod 3)%nat ≫= (.!! (4 / 3)%nat) = Some "s4"
    /\ Forall (fun chunk => chunk <> []) chunks
    /\ (length chunks <= 3)%nat.
Proof.
  cbv zeta.
  destruct (split_scenarios_partition ["s0"; "s1"; "s2"; "s3"; "s4"; "s5"; "s6"]
              (to_double 3) 3)
    as (chunks & Hsplit & _ & Hplace & _ & Hne & Hlen & _).
  - reflexivity.
  - lia.
  - reflexivity.
  - exists chunks. split; [exact Hsplit|].
    split; [|split; [by apply Hplace|split; [exact Hne|exact Hlen]]].
    vm_compute in Hsplit. by injection Hsplit as <-.
Defined.

(** C10, as stated, fails: 2.5 is a worker count of at least one, and on
    five scenarios the chunks hold the first two only, the other three being
    dropped; with 2^32 workers the call throws. *)
Lemma split_scenarios_partition_counterexample :
  let workerCount := double_div (to_double 5) (to_double 2) in
  let scenarios := ["s0"; "s1"; "s2"; "s3"; "s4"] in
  integer_le 1 workerCount = true
  /\ splitScenariosAcrossWorkers scenarios workerCount = Ok [["s0"]; ["s1"]]
  /\ ~ concat [["s0"]; ["s1"]] ≡ₚ scenarios
  /\ integer_le 1 (to_double (2 ^ 32)) = true
  /\ splitScenariosAcrossWorkers scenarios (to_double (2 ^ 32)) = Throw RangeError.
Proof.
  cbv zeta. split; [reflexivity|]. split; [reflexivity|]. split.
  - intros Hp. apply Permutation_length in Hp. discriminate Hp.
  - split; reflexivity.
Qed.

(* ===================================================================== *)
(** ** The retry invocation (generateRetryCommand)                        *)
(* ===================================================================== *)

Lemma remove_char_app c (a b : string) :
  remove_char c (a +:+ b) = remove_char c a +:+ remove_char c b.
Proof.
  induction a as [|x a IH]; [reflexivity|].
  change (String x a +:+ b) with (String x (a +:+ b)).
  cbn [remove_char]. rewrite IH. by destruct (Ascii.eqb x c).
Qed.

Lemma append_empty_r (s : string) : s +:+ "" = s.
Proof.
  induction s as [|x s IH]; [reflexivity|].
  change (String x s +:+ "") with (String x (s +:+ "")). by rewrite IH.
Qed.

Lemma to_json_featureFile (t : FailedTest) :
  prop (Some (to_json t)) "featureFile" = Ok (featureFile t).
Proof.
  destruct t as [n f l e ts a]. unfold to_json, field.
  destruct n, f, l, e; reflexivity.
Qed.

Lemma to_json_scenarioName (t : FailedTest) :
  prop (Some (to_json t)) "scenarioName" = Ok (scenarioName t).
Proof.
  destruct t as [n f l e ts a]. unfold to_json, field.
  destruct n, f, l, e; reflexivity.
Qed.

(** With one failed test on record, the invocation names its feature file
    and hands over its scenario name, without the double quotes it may hold,
    as the runner's name pattern. *)
Lemma retry_command_single (w : world) (t : FailedTest) (name file : string) :
  scenarioName t = Some (JStr name) ->
  featureFile t = Some (JStr file) ->
  files w !! FAILED_TESTS_FILE = Some (Some (JArr [to_json t])) ->
  generateRetryCommand w
  = (Ok (Some ("cucumber-js " +:+ file +:+ " --name " +:+ dquote
               +:+ remove_char dquote_char name +:+ dquote)), w).
Proof.
  intros Hn Hf Hw.
  assert (getFailedTests w = (Ok (JArr [to_json t]), w)) as Hget.
  { unfold getFailedTests. eff_unfold.
    rewrite (existsSync_file _ _ _ Hw). cbv beta iota.
    unfold readFileSync. rewrite Hw. reflexivity. }
  unfold generateRetryCommand. eff_unfold. rewrite Hget.
  cbn [length_prop length strict_eq Z.of_nat Pos.of_succ_nat Z.eqb as_array].
  cbv beta iota.
  cbn [mapM]. rewrite to_json_featureFile, to_json_scenarioName, Hn, Hf.
  unfold array_join.
  cbn [mbind res_bind bind mret res_ret fmap list_fmap map to_string_value string_of
       join_element mapM String.concat uniq fold_left existsb app].
  cbv beta iota. rewrite !remove_char_app.
  change (remove_char dquote_char dquote) with "".
  rewrite append_empty_r. reflexivity.
Qed.

(** C4, on the code where it misses the claim.  With two failed tests on
    record, [generateRetryCommand] hands the runner one name pattern, the two
    names put one after the other with a space between them: neither recorded
    name holds that pattern, so a runner that selects the scenarios whose name
    holds the pattern selects neither of them; the generator of the retry
    script puts [|] between the names, which makes the pattern an
    alternative. *)
Theorem retry_command_joins_names_with_a_space :
  let a := "Search for user A" in
  let b := "Navigate to repos B" in
  let w :=
    registry_world [named a "src/features/search.feature";
                    named b "src/features/repos.feature"] in
  let pattern := "Search for user A Navigate to repos B" in
  (generateRetryCommand w).1
  = Ok (Some ("cucumber-js src/features/search.feature src/features/repos.feature"
              +:+ " --name " +:+ dquote +:+ pattern +:+ dquote))
  /\ includes a pattern = false
  /\ includes b pattern = false
  /\ array_join "|" [Some (JStr a); Some (JStr b)]
     = Ok "Search for user A|Navigate to repos B".
Proof.
  cbv zeta. repeat split; vm_compute; reflexivity.
Qed.

(* ===================================================================== *)
(** ** The exit status of the retry script                                *)
(* ===================================================================== *)

(** The generator of the retry command prints nothing: either there is
    nothing to retry, or it dies reading [attempt]. *)
Lemma retry_command_empty (w : world) (attempt : nat) :
  retry_command w attempt = "".
Proof.
  unfold retry_command, retry_command_script.
  destruct (existsSync w FAILED_TESTS_FILE); [|reflexivity].
  destruct (readFileSync w FAILED_TESTS_FILE) as [[v|]|]; try reflexivity.
  cbn [JSON_parse mbind res_bind bind].
  destruct v as [|b|z|s|[|test tests]|kvs]; try reflexivity.
  destruct (mapM (fun test : json => prop (Some test) "scenarioName") (test :: tests))
    as [names|]; [|reflexivity].
  cbn [mbind res_bind bind]. by destruct (array_join "|" names).
Qed.

Section ScriptFacts.

Variable environment_loader : string -> world -> Z.
Variable eval : string -> world -> Z * world.
Variable now : string.

(** With a generator that prints nothing, the loop ends in its first
    round: with status 0, or with the status of the environment loader when
    that fails. *)
Lemma retry_loop_without_command (o : options) (remaining attempt : nat) (w : world) :
  retry_loop environment_loader eval retry_command o remaining attempt w
  = if (0 <? remaining)%nat && negb (environment_loader (ENVIRONMENT o) w =? 0)
    then (Exit (environment_loader (ENVIRONMENT o) w), w)
    else (Return 0, w).
Proof.
  destruct remaining as [|k]; [reflexivity|].
  cbn [retry_loop]. rewrite retry_command_empty.
  by destruct (environment_loader (ENVIRONMENT o) w =? 0).
Qed.

(** Whatever command is generated, a run in which every attempt of the test
    runner fails ends with status 0. *)
Lemma retry_loop_absorbs_failures (generate : world -> nat -> string) (o : options)
    (remaining attempt : nat) (w : world) :
  (forall env w', environment_loader env w' = 0) ->
  (forall cmd w', (eval cmd w').1 <> 0) ->
  (retry_loop environment_loader eval generate o remaining attempt w).1 = Return 0.
Proof.
  intros Hl He. revert attempt w.
  induction remaining as [|k IH]; intros attempt w; [reflexivity|].
  cbn [retry_loop]. rewrite Hl. cbn [Z.eqb negb].
  destruct (negb (String.eqb (generate w attempt) "")); [|reflexivity].
  pose proof (He (generate w attempt) w) as Hne.
  destruct (eval (generate w attempt) w) as [status w1]. cbn in Hne.
  destruct (status =? 0) eqn:Hs; [apply Z.eqb_eq in Hs; contradiction|].
  apply IH.
Qed.

(** Once the report is there, [extract_failed_tests] returns to [main]. *)
Lemma extract_failed_tests_returns (o : options) (w : world) :
  is_file w (REPORT_PATH o) = true ->
  exists status w1, extract_failed_tests eval now o w = (Return status, w1).
Proof.
  intros Hfile. unfold extract_failed_tests. rewrite Hfile. cbn [negb].
  destruct (plain_path (REPORT_PATH o)); cbn [negb].
  - destruct (content ← readFileSync w (REPORT_PATH o);
              reportData ← JSON_parse content; scan_report now reportData)
      as [[|t l]|e]; eauto.
    destruct (writeFileSync_checked _ _ _); eauto.
  - destruct (eval _ w) as [status w1]; eauto.
Qed.

(** The exit status of the script when statistics are not asked for and
    the environment loads: 1 when there is no report, 0 in every other case. *)
Lemma main_exit_status (o : options) (w : world) :
  SHOW_STATS o = false ->
  (forall env w', environment_loader env w' = 0) ->
  (main environment_loader eval now o w).1
  = let w0 := if CLEAR_FAILED o then clear_failed_tests w else w in
    if is_file w0 (REPORT_PATH o) then 0 else 1.
Proof.
  intros Hs Hl. unfold main. rewrite Hs. cbv zeta.
  set (w0 := if CLEAR_FAILED o then clear_failed_tests w else w).
  assert (forall w1, (retry_failed_tests environment_loader eval o w1).1 = Return 0)
    as Hretry.
  { intros w1. unfold retry_failed_tests.
    destruct (negb (is_file w1 FAILED_TESTS_FILE)); [reflexivity|].
    rewrite retry_loop_without_command, Hl. cbn [Z.eqb negb].
    by rewrite andb_false_r. }
  destruct (is_file w0 (REPORT_PATH o)) eqn:Hfile.
  2: { unfold extract_failed_tests. rewrite Hfile. reflexivity. }
  destruct (extract_failed_tests_returns o w0 Hfile) as (status & w1 & ->).
  specialize (Hretry w1).
  destruct (retry_failed_tests environment_loader eval o w1) as [[s|s] w2];
    cbn in Hretry; destruct status; cbn; congruence.
Qed.

End ScriptFacts.

(** C5, evaluated on the script where it fails the claim.  The last report
    lists five scenarios of which two fail; the environment loads; the
    defaults allow three attempts.  Whatever the test runner would do, the
    script ends with exit status 0 while the registry it leaves lists both
    scenarios as failing: the generator of the retry command prints nothing,
    so that no attempt is run. *)
Theorem retry_script_exits_zero_while_failing
    (eval : string -> world -> Z * world) (now : string) :
  let result := main (fun _ _ => 0) eval now defaults sample_world in
  result.1 = 0
  /\ registry result.2 = Some (map to_json (failures now sample_report))
  /\ map scenarioName (failures now sample_report)
     = [Some (JStr "Search for user A"); Some (JStr "Navigate to repos B")]
  /\ retry_command result.2 1 = "".
Proof.
  cbv zeta. repeat split; reflexivity.
Qed.

(* ===================================================================== *)
(** ** Retrying with backoff (retryWithBackoff)                          *)
(* ===================================================================== *)

Import RetryPolicy.

Lemma flat_map_seq_shift {A} (f : nat -> list A) (a n : nat) :
  flat_map f (seq (S a) n) = flat_map (fun i => f (S i)) (seq a n).
Proof.
  revert a. induction n as [|n IH]; intros a; [reflexivity|].
  cbn [seq flat_map]. by rewrite IH.
Qed.

(** Comparing an integer with a double that holds an integer. *)
Lemma compare_integer_value (a n : Z) (x : double) :
  integer_value x = Some n -> compare_integer a x = Some (a ?= n).
Proof.
  destruct x as [s|s| |s m e]; cbn [integer_value compare_integer]; try discriminate.
  { by intros [= <-]. }
  destruct (0 <=? e) eqn:He; [by intros [= <-]|].
  apply Z.leb_gt in He.
  destruct (Z.pos m mod 2 ^ (- e) =? 0) eqn:Hm; [|discriminate].
  apply Z.eqb_eq in Hm. intros [= <-]. f_equal.
  pose proof (Z.pow_pos_nonneg 2 (- e) ltac:(lia) ltac:(lia)) as Hp.
  assert (signed s m mod 2 ^ (- e) = 0) as Hs.
  { destruct s; cbn [signed]; [|exact Hm].
    change (Z.neg m) with (- Z.pos m). by apply Z.mod_opp_l_z; [lia|]. }
  pose proof (Z.div_mod (signed s m) (2 ^ (- e)) ltac:(lia)) as Hd.
  rewrite Hs, Z.add_0_r in Hd. rewrite Hd at 1.
  rewrite (Z.mul_comm (2 ^ (- e))).
  destruct (Z.compare_spec a (signed s m / 2 ^ (- e))) as [H|H|H].
  - apply Z.compare_eq_iff. by rewrite H.
  - apply Z.compare_lt_iff. nia.
  - apply Z.compare_gt_iff. nia.
Qed.

(** An integer below one that is at most [x] is below [x]. *)
Lemma compare_integer_below (a b : Z) (x : double) :
  a < b -> integer_le b x = true -> compare_integer a x = Some Lt.
Proof.
  intros Hab. unfold integer_le.
  destruct x as [s|s| |s m e]; cbn [compare_integer]; try discriminate.
  - destruct (Z.compare_spec b 0); try discriminate; intros _; f_equal;
      apply Z.compare_lt_iff; lia.
  - by destruct s.
  - destruct (0 <=? e) eqn:He.
    + destruct (Z.compare_spec b (signed s m * 2 ^ e)); try discriminate; intros _;
        f_equal; apply Z.compare_lt_iff; lia.
    + apply Z.leb_gt in He.
      pose proof (Z.pow_pos_nonneg 2 (- e) ltac:(lia) ltac:(lia)) as Hp.
      destruct (Z.compare_spec (b * 2 ^ (- e)) (signed s m)); try discriminate;
        intros _; f_equal; apply Z.compare_lt_iff; nia.
Qed.

Section BackoffFacts.

Context {St T E : Type}.
Variable operation : St -> (T + E) * St.
Variables maxRetries baseDelay : double.

Lemma calls_length (n : nat) (st : St) :
  length (calls operation n st).1 = n.
Proof.
  revert st. induction n as [|n IH]; intros st; [reflexivity|].
  cbn [calls]. destruct (operation st) as [r st1]. specialize (IH st1).
  destruct (calls operation n st1) as [rs st2]. cbn in *. by rewrite IH.
Qed.

Lemma calls_S (n : nat) (st : St) :
  calls operation (S n) st
  = (((operation st).1 :: (calls operation n (operation st).2).1),
     (calls operation n (operation st).2).2).
Proof.
  cbn [calls]. destruct (operation st) as [r st1]. cbn [fst snd].
  destruct (calls operation n st1); reflexivity.
Qed.

Lemma calls_snoc (n : nat) (st : St) :
  calls operation (S n) st
  = ((calls operation n st).1 ++ [(operation (calls operation n st).2).1],
     (operation (calls operation n st).2).2).
Proof.
  revert st. induction n as [|n IH]; intros st.
  - cbn. by destruct (operation st).
  - rewrite calls_S, IH. by rewrite (calls_S n st).
Qed.

Lemma pauses_shift (attempt : Z) (n : nat) :
  flat_map (fun i => pause maxRetries baseDelay (attempt + 1 + Z.of_nat i)) (seq 0 n)
  = flat_map (fun i => pause maxRetries baseDelay (attempt + Z.of_nat (S i))) (seq 0 n).
Proof.
  apply flat_map_ext. intros i.
  by replace (attempt + 1 + Z.of_nat i) with (attempt + Z.of_nat (S i)) by lia.
Qed.

(** The pauses that follow [k] failed attempts, the first of which is
    numbered [attempt], when one more attempt at least is allowed after
    them. *)
Lemma backoff_loop_failures (k fuel : nat) (attempt : Z) (lastError : option E)
    (st : St) (done : list effect) (errs : list E) (st' : St) :
  calls operation k st = (map inr errs, st') ->
  integer_le (attempt + Z.of_nat k) maxRetries = true ->
  attempt + Z.of_nat k <= 2 ^ 53 ->
  backoff_loop operation maxRetries baseDelay (k + fuel) attempt lastError st done
  = backoff_loop operation maxRetries baseDelay fuel (attempt + Z.of_nat k)
      (match last errs with Some e => Some e | None => lastError end) st'
      (done ++ flat_map (fun i => pause maxRetries baseDelay (attempt + Z.of_nat i))
                 (seq 0 k)).
Proof.
  revert attempt lastError st done errs.
  induction k as [|k IH]; intros attempt lastError st done errs Hcalls Hle Hmax.
  - cbn in Hcalls. destruct errs; [|discriminate]. injection Hcalls as <-.
    cbn. by rewrite Z.add_0_r, app_nil_r.
  - cbn [calls] in Hcalls. destruct (operation st) as [r st1] eqn:Hop.
    destruct (calls operation k st1) as [rs st2] eqn:Hrest.
    destruct errs as [|e errs]; [discriminate|].
    cbn [map] in Hcalls. injection Hcalls as -> -> ->.
    cbn [Nat.add backoff_loop].
    pose proof (compare_integer_below attempt (attempt + Z.of_nat (S k)) maxRetries
                  ltac:(lia) Hle) as Hlt.
    unfold integer_le, integer_eq. rewrite Hlt, Hop. cbv zeta.
    unfold increment. rewrite (proj2 (Z.ltb_lt attempt (2 ^ 53))) by lia.
    rewrite (IH (attempt + 1) (Some e) st1 _ errs Hrest);
      [|by replace (attempt + 1 + Z.of_nat k) with (attempt + Z.of_nat (S k)) by lia
       |lia].
    f_equal.
    + lia.
    + destruct errs as [|e' errs]; [reflexivity|].
      change (last (e :: e' :: errs)) with (last (e' :: errs)).
      by destruct (last (e' :: errs)) eqn:Hl; [|apply last_None in Hl].
    + rewrite <- app_assoc. f_equal.
      cbn [seq flat_map]. rewrite flat_map_seq_shift, Z.add_0_r, pauses_shift.
      reflexivity.
Qed.

Lemma pauses_from_one (n : nat) :
  flat_map (fun i => pause maxRetries baseDelay (1 + Z.of_nat i)) (seq 0 n)
  = pauses maxRetries baseDelay n.
Proof.
  apply flat_map_ext. intros i.
  by replace (1 + Z.of_nat i) with (Z.of_nat (S i)) by lia.
Qed.

(** The loop from any test on, while the counter is exact: the operation is
    called [j] times, one after the other.  The loop ends by its test, with
    a pause after each of the calls, or by a call (that succeeded, or was the
    one numbered [maxRetries]), with a pause after each call but that one. *)
Lemma backoff_loop_calls (fuel : nat) (attempt : Z) (lastError : option E)
    (st : St) (done : list effect) result :
  attempt + Z.of_nat fuel <= 2 ^ 53 + 1 ->
  backoff_loop operation maxRetries baseDelay fuel attempt lastError st done
  = Some result ->
  exists j : nat,
    (j <= fuel)%nat
    /\ result.1.2 = (calls operation j st).2
    /\ ((integer_le (attempt + Z.of_nat j) maxRetries = false
         /\ result.2
            = done ++ flat_map (fun i => pause maxRetries baseDelay (attempt + Z.of_nat i))
                        (seq 0 j)
         /\ (j = 0%nat -> result.1.1 = inr lastError)
         /\ ((0 < j)%nat ->
             integer_le (attempt + Z.of_nat j - 1) maxRetries = true
             /\ integer_eq (attempt + Z.of_nat j - 1) maxRetries = false
             /\ exists e, result.1.1 = inr (Some e)))
        \/ ((0 < j)%nat
            /\ integer_le (attempt + Z.of_nat j - 1) maxRetries = true
            /\ result.2
               = done ++ flat_map (fun i => pause maxRetries baseDelay (attempt + Z.of_nat i))
                           (seq 0 (j - 1)))).
Proof.
  revert attempt lastError st done result.
  induction fuel as [|fuel IH]; intros attempt lastError st done result Hmax;
    [discriminate|].
  cbn [backoff_loop].
  destruct (integer_le attempt maxRetries) eqn:Hle.
  2: { intros [= <-]. exists 0%nat. cbn [fst snd calls seq flat_map].
       rewrite app_nil_r, Z.add_0_r. split; [lia|]. split; [reflexivity|].
       left. split; [exact Hle|]. split; [reflexivity|]. split; [reflexivity|lia]. }
  destruct (operation st) as [[v|e] st1] eqn:Hop.
  { intros [= <-]. exists 1%nat. rewrite calls_S, Hop.
    cbn [fst snd calls seq flat_map Nat.sub]. rewrite !app_nil_r.
    split; [lia|]. split; [reflexivity|]. right. split; [lia|].
    split; [|reflexivity]. by replace (attempt + Z.of_nat 1 - 1) with attempt by lia. }
  destruct (integer_eq attempt maxRetries) eqn:Heq.
  { intros [= <-]. exists 1%nat. rewrite calls_S, Hop.
    cbn [fst snd calls seq flat_map Nat.sub]. rewrite !app_nil_r.
    split; [lia|]. split; [reflexivity|]. right. split; [lia|].
    split; [|reflexivity]. by replace (attempt + Z.of_nat 1 - 1) with attempt by lia. }
  cbv zeta. fold (backoff_delay baseDelay attempt).
  change [Announced attempt maxRetries (backoff_delay baseDelay attempt);
          Slept (timer_delay (backoff_delay baseDelay attempt))]
    with (pause maxRetries baseDelay attempt).
  destruct fuel as [|fuel']; [discriminate|].
  assert (increment attempt = attempt + 1) as ->.
  { unfold increment. by rewrite (proj2 (Z.ltb_lt attempt (2 ^ 53))) by lia. }
  intros Hrun.
  destruct (IH (attempt + 1) (Some e) st1 _ result ltac:(lia) Hrun)
    as (j & Hj & Hst & Hcases).
  exists (S j). split; [lia|]. split; [by rewrite Hst, calls_S, Hop|].
  assert (forall n : nat,
            (done ++ pause maxRetries baseDelay attempt)
              ++ flat_map (fun i => pause maxRetries baseDelay (attempt + 1 + Z.of_nat i))
                   (seq 0 n)
            = done ++ flat_map (fun i => pause maxRetries baseDelay (attempt + Z.of_nat i))
                        (seq 0 (S n))) as Hshift.
  { intros n. rewrite <- app_assoc. f_equal.
    cbn [seq flat_map]. by rewrite flat_map_seq_shift, Z.add_0_r, pauses_shift. }
  destruct Hcases as [(Hend & Hrun' & Hnone & Hsome)|(Hj0 & Hlast & Hrun')].
  - left. split.
    { by replace (attempt + Z.of_nat (S j)) with (attempt + 1 + Z.of_nat j) by lia. }
    split; [by rewrite Hrun', Hshift|]. split; [lia|]. intros _.
    destruct j as [|j].
    + replace (attempt + Z.of_nat 1 - 1) with attempt by lia.
      split; [exact Hle|]. split; [exact Heq|]. exists e. by apply Hnone.
    + replace (attempt + Z.of_nat (S (S j)) - 1)
        with (attempt + 1 + Z.of_nat (S j) - 1) by lia.
      apply Hsome. lia.
  - right. split; [lia|]. split.
    { by replace (attempt + Z.of_nat (S j) - 1)
        with (attempt + 1 + Z.of_nat j - 1) by lia. }
    rewrite Hrun'. replace (S j - 1)%nat with (S (j - 1)) by lia. apply Hshift.
Qed.

(** Fuel beyond [maxRetries] is enough. *)
Lemma backoff_loop_ends (fuel : nat) (attempt : Z) (lastError : option E)
    (st : St) (done : list effect) :
  (0 < fuel)%nat ->
  attempt + Z.of_nat fuel <= 2 ^ 53 + 1 ->
  integer_le (attempt + Z.of_nat fuel - 1) maxRetries = false ->
  is_Some (backoff_loop operation maxRetries baseDelay fuel attempt lastError st done).
Proof.
  revert attempt lastError st done.
  induction fuel as [|fuel IH]; intros attempt lastError st done Hpos Hmax Hle; [lia|].
  cbn [backoff_loop].
  destruct (integer_le attempt maxRetries) eqn:Hnow; [|eauto].
  destruct (operation st) as [[v|e] st1]; [eauto|].
  destruct (integer_eq attempt maxRetries); [eauto|]. cbv zeta.
  destruct fuel as [|fuel'].
  { replace (attempt + Z.of_nat 1 - 1) with attempt in Hle by lia. congruence. }
  assert (increment attempt = attempt + 1) as ->.
  { unfold increment. by rewrite (proj2 (Z.ltb_lt attempt (2 ^ 53))) by lia. }
  apply IH; [lia|lia|].
  by replace (attempt + 1 + Z.of_nat (S fuel') - 1)
    with (attempt + Z.of_nat (S (S fuel')) - 1) by lia.
Qed.

End BackoffFacts.

(** X1.  When the operation fails [k] times and then succeeds, and
    [k + 1 <= maxRetries] (an integer or not), [retryWithBackoff] resolves
    with the value of the successful attempt and leaves the operation in the
    state reached after exactly [k + 1] calls; after the failed attempt
    numbered [i] it has announced [baseDelay * Math.pow(2, i - 1)] and slept
    what the timer makes of it, and nothing else. *)
Theorem retry_with_backoff_success {St T E : Type} (operation : St -> (T + E) * St)
    (maxRetries baseDelay : double) (k fuel : nat) (st st' : St) (errs : list E)
    (v : T) :
  integer_le (Z.of_nat k + 1) maxRetries = true ->
  Z.of_nat k < 2 ^ 53 ->
  (k < fuel)%nat ->
  calls operation (S k) st = (map inr errs ++ [inl v], st') ->
  retryWithBackoff operation (Some maxRetries) (Some baseDelay) fuel st
  = Some (inl v, st', pauses maxRetries baseDelay k).
Proof.
  intros Hk Hexact Hfuel Hcalls.
  rewrite calls_snoc in Hcalls.
  destruct (calls operation k st) as [rs stk] eqn:Hfirst. cbn [fst snd] in Hcalls.
  destruct (operation stk) as [r st2] eqn:Hop. cbn [fst snd] in Hcalls.
  injection Hcalls as Hrs ->. apply app_inj_tail in Hrs as [-> ->].
  cbv [retryWithBackoff default from_option id].
  replace fuel with (k + S (fuel - k - 1))%nat by lia.
  rewrite Z.add_comm in Hk.
  rewrite (backoff_loop_failures operation maxRetries baseDelay k _ 1 None st [] errs stk
             Hfirst Hk) by lia.
  cbn [backoff_loop]. rewrite Hk, Hop. cbn [app]. by rewrite pauses_from_one.
Qed.

Lemma retry_with_backoff_success_witness :
  retryWithBackoff flaky (Some (to_double 3)) (Some (to_double 1000)) 10 0
  = Some (inl "success", 3, pauses (to_double 3) (to_double 1000) 2)
  /\ pauses (to_double 3) (to_double 1000) 2
     = [Announced 1 (to_double 3) (to_double 1000); Slept 1000;
        Announced 2 (to_double 3) (to_double 2000); Slept 2000]
  /\ total_sleep (pauses (to_double 3) (to_double 1000) 2) = 3000.
Proof.
  split; [|split; vm_compute; reflexivity].
  apply (retry_with_backoff_success flaky (to_double 3) (to_double 1000) 2 10 0 3
           ["Simulated network timeout"; "Simulated network timeout"] "success").
  - vm_compute. reflexivity.
  - lia.
  - lia.
  - reflexivity.
Defined.

(** X2.  When [maxRetries] is an integer [n >= 1] and all of the [n] attempts
    fail, [retryWithBackoff] rejects with the error of the last attempt (not
    of the first), after exactly [n] calls of the operation and [n - 1]
    pauses: nothing is slept after the last failure. *)
Theorem retry_with_backoff_exhausted {St T E : Type} (operation : St -> (T + E) * St)
    (maxRetries baseDelay : double) (n fuel : nat) (st st' : St) (errs : list E)
    (e : E) :
  integer_value maxRetries = Some (Z.of_nat n) ->
  (1 <= n)%nat ->
  Z.of_nat n <= 2 ^ 53 ->
  (n <= fuel)%nat ->
  calls operation n st = (map inr (errs ++ [e]), st') ->
  retryWithBackoff operation (Some maxRetries) (Some baseDelay) fuel st
  = Some (inr (Some e), st', pauses maxRetries baseDelay (n - 1)).
Proof.
  intros Hmax Hn Hexact Hfuel Hcalls.
  destruct n as [|m]; [lia|].
  rewrite calls_snoc in Hcalls.
  destruct (calls operation m st) as [rs stm] eqn:Hfirst. cbn [fst snd] in Hcalls.
  destruct (operation stm) as [r st2] eqn:Hop. cbn [fst snd] in Hcalls.
  injection Hcalls as Hrs ->. rewrite map_app in Hrs.
  apply app_inj_tail in Hrs as [-> ->].
  cbv [retryWithBackoff default from_option id].
  replace fuel with (m + S (fuel - m - 1))%nat by lia.
  pose proof (compare_integer_value (1 + Z.of_nat m) _ _ Hmax) as Hcmp.
  rewrite (proj2 (Z.compare_eq_iff _ _)) in Hcmp by lia.
  rewrite (backoff_loop_failures operation maxRetries baseDelay m _ 1 None st [] errs stm
             Hfirst); [|by unfold integer_le; rewrite Hcmp|lia].
  cbn [backoff_loop]. unfold integer_le, integer_eq. rewrite Hcmp, Hop.
  cbn [app]. rewrite pauses_from_one. do 3 f_equal. lia.
Qed.

Lemma retry_with_backoff_exhausted_witness :
  retryWithBackoff unreachable (Some (to_double 3)) (Some (to_double 1000)) 10 0
  = Some (inr (Some "Connection refused, attempt 3"), 3,
          pauses (to_double 3) (to_double 1000) (3 - 1)).
Proof.
  apply (retry_with_backoff_exhausted unreachable (to_double 3) (to_double 1000) 3 10 0 3
           ["Connection refused, attempt 1"; "Connection refused, attempt 2"]
           "Connection refused, attempt 3").
  - reflexivity.
  - lia.
  - lia.
  - lia.
  - vm_compute. reflexivity.
Defined.

(** X3.  Whatever the operation does and whatever number [maxRetries] is,
    [retryWithBackoff] calls the operation [j] times, one after the other,
    with [j <= maxRetries] and one pause between two calls.  It ends by a
    call, with no pause after it, or by the test of the loop: then it rejects
    and has paused after the last call too, which takes a [maxRetries] that
    is no integer; and when [1 <= maxRetries] does not hold the operation is
    not called at all and the rejection carries [undefined].  More than
    [maxRetries] iterations are never needed. *)
Theorem retry_with_backoff_calls {St T E : Type} (operation : St -> (T + E) * St)
    (maxRetries baseDelay : double) (fuel : nat) (st : St) :
  (0 < fuel)%nat ->
  Z.of_nat fuel <= 2 ^ 53 ->
  let run := retryWithBackoff operation (Some maxRetries) (Some baseDelay) fuel st in
  (forall result, run = Some result ->
     exists j : nat,
       (j <= fuel)%nat
       /\ result.1.2 = (calls operation j st).2
       /\ ((0 < j)%nat -> integer_le (Z.of_nat j) maxRetries = true)
       /\ (((0 < j)%nat /\ result.2 = pauses maxRetries baseDelay (j - 1))
           \/ (result.2 = pauses maxRetries baseDelay j
               /\ integer_le (Z.of_nat j + 1) maxRetries = false
               /\ (j = 0%nat -> result.1.1 = inr None)
               /\ ((0 < j)%nat ->
                   integer_value maxRetries = None
                   /\ exists e, result.1.1 = inr (Some e)))))
  /\ (integer_le 1 maxRetries = false -> run = Some (inr None, st, []))
  /\ (integer_le (Z.of_nat fuel) maxRetries = false -> is_Some run).
Proof.
  intros Hpos Hexact. cbv zeta. cbv [retryWithBackoff default from_option id].
  split; [|split].
  - intros result Hrun.
    destruct (backoff_loop_calls operation maxRetries baseDelay fuel 1 None st []
                result ltac:(lia) Hrun) as (j & Hj & Hst & Hcases).
    exists j. split; [exact Hj|]. split; [exact Hst|].
    destruct Hcases as [(Hend & Hrun' & Hnone & Hsome)|(Hj0 & Hlast & Hrun')].
    + split.
      { intros Hj0. destruct (Hsome Hj0) as (Hle & _).
        by replace (1 + Z.of_nat j - 1) with (Z.of_nat j) in Hle by lia. }
      right. split; [by rewrite Hrun', pauses_from_one|].
      split; [by rewrite Z.add_comm|]. split; [exact Hnone|].
      intros Hj0. destruct (Hsome Hj0) as (Hle & Hne & Herr). split; [|exact Herr].
      replace (1 + Z.of_nat j - 1) with (Z.of_nat j) in Hle, Hne by lia.
      destruct (integer_value maxRetries) as [n|] eqn:Hn; [exfalso|reflexivity].
      revert Hend Hle Hne. unfold integer_le, integer_eq.
      rewrite !(compare_integer_value _ n maxRetries Hn).
      destruct (Z.compare_spec (Z.of_nat j) n), (Z.compare_spec (1 + Z.of_nat j) n);
        try discriminate; lia.
    + split.
      { intros _. by replace (1 + Z.of_nat j - 1) with (Z.of_nat j) in Hlast by lia. }
      left. split; [exact Hj0|]. by rewrite Hrun', pauses_from_one.
  - intros Hle. destruct fuel as [|fuel']; [lia|]. cbn [backoff_loop]. by rewrite Hle.
  - intros Hle. apply backoff_loop_ends; [exact Hpos|lia|].
    by replace (1 + Z.of_nat fuel - 1) with (Z.of_nat fuel) by lia.
Qed.

Lemma retry_with_backoff_calls_witness :
  retryWithBackoff unreachable (Some (to_double 0)) (Some (to_double 1000)) 10 0
  = Some (inr None, 0, [])
  /\ retryWithBackoff unreachable (Some (double_div (to_double 5) (to_double 2)))
       (Some (to_double 1000)) 10 0
     = Some (inr (Some "Connection refused, attempt 2"), 2,
             [Announced 1 (double_div (to_double 5) (to_double 2)) (to_double 1000);
              Slept 1000;
              Announced 2 (double_div (to_double 5) (to_double 2)) (to_double 2000);
              Slept 2000]).
Proof.
  split; [|vm_compute; reflexivity].
  apply (proj1 (proj2 (retry_with_backoff_calls unreachable (to_double 0)
                         (to_double 1000) 10 0 ltac:(lia) ltac:(lia)))).
  reflexivity.
Defined.

(** The pauses of the first sixteen attempts, for a base delay of 1 to 5000
    milliseconds: the double the loop computes is the exact product
    [baseDelay * 2^(attempt - 1)], and the timer sleeps that long. *)
Lemma delays_checked :
  forallb
    (fun b =>
       forallb
         (fun i =>
            same_double (backoff_delay (to_double b) i) (to_double (b * 2 ^ (i - 1)))
            && (timer_delay (backoff_delay (to_double b) i) =? b * 2 ^ (i - 1)))
         (seqZ 1 16))
    (seqZ 1 5000) = true.
Proof. vm_compute. reflexivity. Qed.

Lemma backoff_delay_exact (b i : Z) :
  1 <= b <= 5000 -> 1 <= i <= 16 ->
  same_double (backoff_delay (to_double b) i) (to_double (b * 2 ^ (i - 1))) = true
  /\ timer_delay (backoff_delay (to_double b) i) = b * 2 ^ (i - 1).
Proof.
  intros Hb Hi.
  pose proof (forallb_seqZ _ 1 16 i (forallb_seqZ _ 1 5000 b delays_checked ltac:(lia))
                ltac:(lia)) as H.
  cbv beta in H. apply andb_true_iff in H as [H1 H2]. by apply Z.eqb_eq in H2.
Qed.

(* ===================================================================== *)
(** ** Errors worth a retry (shouldRetryTest)                            *)
(* ===================================================================== *)

Lemma prefix_append (p s : string) :
  String.prefix p s = true <-> exists b, s = p +:+ b.
Proof.
  revert s. induction p as [|x p IH]; intros s.
  - destruct s; (split; [intros _; eauto|reflexivity]).
  - destruct s as [|y s].
    + split; [discriminate|]. intros [b Hb]. discriminate Hb.
    + cbn [String.prefix]. destruct (Ascii.ascii_dec x y) as [->|Hne].
      * rewrite IH. split; intros [b Hb]; exists b.
        -- by rewrite Hb.
        -- by injection Hb.
      * split; [discriminate|]. intros [b Hb]. injection Hb as -> _. contradiction.
Qed.

Lemma includes_append (s sub : string) :
  includes s sub = true <-> exists a b, s = a +:+ sub +:+ b.
Proof.
  induction s as [|x s IH].
  - cbn [includes]. rewrite orb_false_r, prefix_append. split.
    + intros [b Hb]. by exists "", b.
    + intros ([|y a] & b & Hb); [by exists b|discriminate].
  - cbn [includes]. rewrite orb_true_iff, prefix_append, IH. split.
    + intros [[b Hb]|(a & b & Hb)].
      * by exists "", b.
      * exists (String x a), b. by rewrite Hb.
    + intros ([|y a] & b & Hb).
      * left. by exists b.
      * right. injection Hb as -> Hb. by exists a, b.
Qed.

Lemma toLowerCase_append (a b : string) :
  toLowerCase (a +:+ b) = toLowerCase a +:+ toLowerCase b.
Proof.
  induction a as [|x a IH]; [reflexivity|].
  cbn [toLowerCase]. change (String x a +:+ b) with (String x (a +:+ b)).
  cbn [toLowerCase]. by rewrite IH.
Qed.

Lemma toLowerCase_split (s a' b' : string) :
  toLowerCase s = a' +:+ b' ->
  exists a b, s = a +:+ b /\ toLowerCase a = a' /\ toLowerCase b = b'.
Proof.
  revert s. induction a' as [|x a' IH]; intros s Hs.
  - by exists "", s.
  - destruct s as [|y s]; [discriminate|].
    cbn [toLowerCase] in Hs. injection Hs as Hx Hs.
    destruct (IH s Hs) as (a & b & -> & <- & <-).
    exists (String y a), b. cbn [toLowerCase]. by rewrite Hx.
Qed.

(** X4.  For an error message in ASCII, [shouldRetryTest] answers [true]
    exactly when some part of the message is one of the six retryable
    keywords up to the case of its letters: the keyword may stand anywhere in
    the message, and upper and lower case are not told apart. *)
Theorem should_retry_test_keywords (error : string) :
  ascii_text error ->
  shouldRetryTest error = true
  <-> exists keyword before part after,
        keyword ∈ retryableErrors
        /\ error = before +:+ part +:+ after
        /\ toLowerCase part = keyword.
Proof.
  intros _. unfold shouldRetryTest. rewrite existsb_exists. split.
  - intros (keyword & Hin & Hinc). apply list_elem_of_In in Hin.
    apply includes_append in Hinc as (a' & b' & Hlow).
    apply toLowerCase_split in Hlow as (a & rest & -> & <- & Hrest).
    apply toLowerCase_split in Hrest as (m & b & -> & <- & <-).
    by exists (toLowerCase m), a, m, b.
  - intros (keyword & a & m & b & Hin & -> & <-).
    exists (toLowerCase m). split; [by apply list_elem_of_In|].
    apply includes_append. exists (toLowerCase a), (toLowerCase b).
    by rewrite !toLowerCase_append.
Qed.

Lemma should_retry_test_keywords_witness :
  ascii_text "TimeoutError: Timeout 30000ms exceeded"
  /\ shouldRetryTest "TimeoutError: Timeout 30000ms exceeded" = true.
Proof.
  assert (ascii_text "TimeoutError: Timeout 30000ms exceeded") as Hascii.
  { apply (bool_decide_unpack _). vm_compute. exact I. }
  split; [exact Hascii|].
  apply (should_retry_test_keywords "TimeoutError: Timeout 30000ms exceeded" Hascii).
  exists "timeout", "", "Timeout", "Error: Timeout 30000ms exceeded".
  split; [|split; reflexivity].
  apply list_elem_of_here.
Defined.

(* ===================================================================== *)
(** ** Retry statistics (getRetryStatistics)                             *)
(* ===================================================================== *)



Section StatisticsFacts.

Variable parseFloat : jsval -> double.


Lemma getRetryStatistics_total (w : world) :
  exists s, (getRetryStatistics parseFloat w).1 = Ok s.
Proof.
  unfold getRetryStatistics. eff_unfold.
  destruct (existsSync w RETRY_REPORT_FILE); [|cbn; eauto].
  destruct (readFileSync w RETRY_REPORT_FILE) as [[v|]|];
    [destruct v; cbn; eauto | cbn; eauto | cbn; eauto].
Qed.

End StatisticsFacts.


(** X6.  [getRetryStatistics] never throws and never writes a file; when
    the summary is absent, is not JSON, or is the JSON value [null], it
    returns the statistics that are all zero. *)
Theorem retry_statistics_never_fail (parseFloat : jsval -> double) (w : world) :
  (exists s, (getRetryStatistics parseFloat w).1 = Ok s)
  /\ files (getRetryStatistics parseFloat w).2 = files w
  /\ (files w !! RETRY_REPORT_FILE = None
      \/ files w !! RETRY_REPORT_FILE = Some None
      \/ files w !! RETRY_REPORT_FILE = Some (Some JNull) ->
      (getRetryStatistics parseFloat w).1 = Ok no_statistics).
Proof.
  split; [apply getRetryStatistics_total|].
  unfold getRetryStatistics. eff_unfold. unfold readFileSync. split.
  - destruct (existsSync w RETRY_REPORT_FILE); [|reflexivity].
    destruct (files w !! RETRY_REPORT_FILE) as [[v|]|]; [destruct v| |]; reflexivity.
  - destruct (existsSync w RETRY_REPORT_FILE); [|reflexivity].
    intros [->|[->| ->]]; reflexivity.
Qed.

Lemma retry_statistics_never_fail_witness :
  (getRetryStatistics (fun _ => S754_nan) (World {[RETRY_REPORT_FILE := None]} ∅ [])).1
  = Ok no_statistics.
Proof.
  apply (retry_statistics_never_fail (fun _ => S754_nan)
           (World {[RETRY_REPORT_FILE := None]} ∅ [])).
  right. left. vm_compute. reflexivity.
Defined.

(* ===================================================================== *)
(** ** A damaged registry (saveFailedTest)                               *)
(* ===================================================================== *)

(** X7.  [saveFailedTest] never throws.  On a registry file that is not
    JSON it starts afresh: the file is replaced by the list that holds the
    new record only.  On a registry file that holds JSON other than an array
    the file is left as it is and the record is dropped (an error is printed),
    so that reading the registry afterwards still yields the old value. *)
Theorem save_failed_test_damaged_registry (w : world) (t : FailedTest) :
  (saveFailedTest t w).1 = Ok tt
  /\ (files w !! FAILED_TESTS_FILE = Some None ->
      registry (saveFailedTest t w).2 = Some [to_json t])
  /\ (forall v : json,
        files w !! FAILED_TESTS_FILE = Some (Some v) ->
        (forall l, v <> JArr l) ->
        files (saveFailedTest t w).2 = files w
        /\ (getFailedTests (saveFailedTest t w).2).1 = Ok v).
Proof.
  split; [|split].
  - unfold saveFailedTest. eff_unfold.
    destruct (getFailedTests w) as [[v|e] w1]; [|reflexivity].
    destruct (as_array (Some v)); [|reflexivity].
    cbn. destruct (existsSync w1 FAILED_TESTS_DIR);
      match goal with |- context [writeFileSync_checked ?w2 ?p ?c] =>
        destruct (writeFileSync_checked w2 p c) end;
      try reflexivity; by destruct (to_string_value (scenarioName t)).
  - intros Hf.
    assert ((getFailedTests w).1 = Ok (JArr [])) as Hr.
    { unfold getFailedTests. eff_unfold. rewrite (existsSync_file _ _ _ Hf).
      unfold readFileSync. by rewrite Hf. }
    assert (registry_writable w) as Hw by (left; rewrite Hf; eauto).
    destruct (saveFailedTest_written w [] t Hr Hw) as [_ Hfiles].
    unfold registry. by rewrite Hfiles, lookup_insert_eq.
  - intros v Hf Hv.
    assert (getFailedTests w = (Ok v, w)) as Hget.
    { unfold getFailedTests. eff_unfold. rewrite (existsSync_file _ _ _ Hf).
      unfold readFileSync. by rewrite Hf. }
    assert ((saveFailedTest t w).2
            = print w (Error "Failed to save failed test information:")) as ->.
    { unfold saveFailedTest. eff_unfold. rewrite Hget.
      destruct v; try reflexivity. by destruct (Hv l). }
    split; [reflexivity|].
    unfold getFailedTests. eff_unfold.
    assert (existsSync (print w (Error "Failed to save failed test information:"))
              FAILED_TESTS_FILE = true) as -> by exact (existsSync_file _ _ _ Hf).
    unfold readFileSync. cbn [print files]. by rewrite Hf.
Qed.

Lemma save_failed_test_damaged_registry_witness :
  let t := {| scenarioName := Some (JStr "Search for a user");
              featureFile := Some (JStr "features/search.feature");
              line := Some (JNum 12);
              error := Some (JStr "Timeout");
              timestamp := "2024-01-01T00:00:00.000Z";
              attempt := 1 |} in
  registry (saveFailedTest t (World {[FAILED_TESTS_FILE := None]} ∅ [])).2 = Some [to_json t]
  /\ (getFailedTests
        (saveFailedTest t (World {[FAILED_TESTS_FILE := Some (JObj [])]} ∅ [])).2).1
     = Ok (JObj []).
Proof.
  cbv zeta. split.
  - apply save_failed_test_damaged_registry. vm_compute. reflexivity.
  - eapply save_failed_test_damaged_registry.
    + vm_compute. reflexivity.
    + discriminate.
Defined.

(* ===================================================================== *)
(** ** Reading the merged configuration                                  *)
(* ===================================================================== *)

Import EnvironmentAccess.

Lemma assoc_assign (k k' : string) (v : json) (o : list (string * json)) :
  assoc k (assign k' v o) = if String.eqb k k' then Some v else assoc k o.
Proof.
  induction o as [|[k0 v0] o IH].
  - cbn. by destruct (String.eqb k k').
  - cbn [assign]. destruct (String.eqb k' k0) eqn:H0.
    + apply String.eqb_eq in H0. subst k0. cbn [assoc].
      by destruct (String.eqb k k').
    + cbn [assoc]. rewrite IH. destruct (String.eqb k k0) eqn:H1; [|reflexivity].
      apply String.eqb_eq in H1. subst k0.
      destruct (String.eqb k k') eqn:H2; [|reflexivity].
      apply String.eqb_eq in H2. subst k'. by rewrite String.eqb_refl in H0.
Qed.

Lemma assoc_None (k : string) (l : list (string * json)) :
  k ∉ l.*1 -> assoc k l = None.
Proof.
  induction l as [|[k0 v0] l IH]; [reflexivity|].
  cbn. intros Hk. apply not_elem_of_cons in Hk as [Hne Hk].
  destruct (String.eqb k k0) eqn:H0; [apply String.eqb_eq in H0; congruence|].
  by apply IH.
Qed.

(** [{ ...a, ...b }]: the entries of [b] win, the others are those of [a]. *)
Lemma assoc_spread (l : list (string * json)) (o : list (string * json)) (j : string) :
  NoDup l.*1 ->
  assoc j (fold_left (fun o kv => assign kv.1 kv.2 o) l o)
  = match assoc j l with
    | Some y => Some y
    | None => assoc j o
    end.
Proof.
  revert o. induction l as [|[k v] l IH]; intros o Hnd; [reflexivity|].
  cbn [fmap list_fmap fst] in Hnd. apply NoDup_cons in Hnd as [Hk Hnd].
  cbn [fold_left assoc fst snd]. rewrite IH by done. rewrite assoc_assign.
  destruct (String.eqb j k) eqn:Hj.
  - apply String.eqb_eq in Hj. subst k. by rewrite assoc_None.
  - reflexivity.
Qed.

Lemma set_entry_assign (key : string) (value : json) (merged : list (string * json)) :
  key <> "__proto__" -> set_entry key value merged = assign key value merged.
Proof.
  intros Hk. unfold set_entry. destruct (assoc key merged); [reflexivity|].
  by rewrite (proj2 (String.eqb_neq _ _) Hk).
Qed.

(** The loop of [mergeConfigs], key by key. *)
Lemma assoc_merge_into (l : list (string * json)) (merged : list (string * json))
    (k : string) :
  NoDup l.*1 ->
  ("__proto__" ∉ l.*1) ->
  assoc k
    (fold_left
       (fun merged kv =>
          let '(key, value) := kv in
          if plain_object value
          then set_entry key (JObj (spread2 (assoc key merged) (Some value))) merged
          else set_entry key value merged) l merged)
  = match assoc k l with
    | Some v => Some (overridden (assoc k merged) v)
    | None => assoc k merged
    end.
Proof.
  revert merged. induction l as [|[k0 v0] l IH]; intros merged Hnd Hp; [reflexivity|].
  cbn [fmap list_fmap fst] in Hnd, Hp. apply NoDup_cons in Hnd as [Hk Hnd].
  apply not_elem_of_cons in Hp as [Hk0 Hp].
  cbn [fold_left assoc]. rewrite IH by done.
  rewrite !(set_entry_assign k0) by congruence.
  destruct (String.eqb k k0) eqn:Hj.
  - apply String.eqb_eq in Hj. subst k0. rewrite assoc_None by done.
    unfold overridden. destruct (plain_object v0); by rewrite assoc_assign, String.eqb_refl.
  - destruct (assoc k l); destruct (plain_object v0); by rewrite assoc_assign, Hj.
Qed.

Lemma mergeConfigs_lookup (b o : list (string * json)) (c : json) (k : string) :
  mergeConfigs (JObj b) (JObj o) = Ok c ->
  NoDup o.*1 ->
  ("__proto__" ∉ o.*1) ->
  prop (Some c) k
  = Ok match assoc k o with
       | Some v => Some (overridden (assoc k b) v)
       | None => assoc k b
       end.
Proof.
  unfold mergeConfigs. destruct (assoc "hasOwnProperty" o); [discriminate|].
  intros [= <-] Hnd Hp. cbn [prop]. f_equal.
  unfold merge_into. cbn [own_props]. by apply assoc_merge_into.
Qed.

Lemma loadConfigFile_Ok (w : world) (p : string) (v : json) :
  loadConfigFile w p = Ok v <-> files w !! p = Some (Some v).
Proof.
  unfold loadConfigFile, readFileSync. split.
  - destruct (existsSync w p); [|discriminate]. cbn.
    destruct (files w !! p) as [[v'|]|]; cbn; congruence.
  - intros H. rewrite (existsSync_file _ _ _ H), H. reflexivity.
Qed.

Lemma load_body_state (dirname env : string) (st : state) :
  let st' := (load_body dirname env st).2 in
  files (io st') = files (io st) /\ dirs (io st') = dirs (io st)
  /\ currentEnvironment st' = currentEnvironment st
  /\ process_env st' = process_env st
  /\ (config st' = config st
      \/ exists base envConfig merged,
           loadConfigFile (io st) (config_path dirname "base") = Ok base
           /\ loadConfigFile (io st) (config_path dirname env) = Ok envConfig
           /\ mergeConfigs base envConfig = Ok merged
           /\ config st' = Some merged)
  /\ forall c, (load_body dirname env st).1 = Ok c ->
       config st' = Some c
       /\ loadConfigFile (io st) (config_path dirname "base") ≫= (fun base =>
            loadConfigFile (io st) (config_path dirname env) ≫= (fun envConfig =>
              mergeConfigs base envConfig)) = Ok c.
Proof.
  cbv zeta. unfold load_body.
  destruct (loadConfigFile (io st) (config_path dirname "base")) as [base|e] eqn:Hb;
    [|cbn; repeat split; auto; discriminate].
  destruct (loadConfigFile (io st) (config_path dirname env)) as [envc|e] eqn:He;
    [|cbn; repeat split; auto; discriminate].
  destruct (mergeConfigs base envc) as [merged|e] eqn:Hm;
    [|cbn; repeat split; auto; discriminate].
  destruct (e ← prop (Some merged) "environment"; name ← prop e "name";
            to_string_value name) as [name|e] eqn:Hn.
  - cbn. repeat split; auto.
    + right. by exists base, envc, merged.
    + congruence.
    + congruence.
  - cbn. repeat split; auto; try discriminate.
    right. by exists base, envc, merged.
Qed.

Lemma resolve_nonempty (environment : option string) (penv : gmap string string) :
  resolve environment penv <> "".
Proof.
  unfold resolve, nonempty.
  destruct environment as [s|]; [destruct (String.eqb s "") eqn:Hs|].
  1,3: destruct (penv !! "TEST_ENV") as [t|]; [destruct (String.eqb t "") eqn:Ht|].
  all: cbn; try (by apply String.eqb_neq).
  all: destruct (penv !! "NODE_ENV") as [n|]; [destruct (String.eqb n "") eqn:Hn|].
  all: cbn; try (by apply String.eqb_neq); done.
Qed.

Lemma loadEnvironment_state (dirname : string) (environment : option string) (st : state) :
  let env := resolve environment (process_env st) in
  let st' := (loadEnvironment dirname environment st).2 in
  files (io st') = files (io st) /\ dirs (io st') = dirs (io st)
  /\ currentEnvironment st' = env
  /\ process_env st' = process_env st
  /\ (config st' = config st
      \/ exists base envConfig merged,
           loadConfigFile (io st) (config_path dirname "base") = Ok base
           /\ loadConfigFile (io st) (config_path dirname env) = Ok envConfig
           /\ mergeConfigs base envConfig = Ok merged
           /\ config st' = Some merged)
  /\ forall c, (loadEnvironment dirname environment st).1 = Ok c ->
       config st' = Some c
       /\ loadConfigFile (io st) (config_path dirname "base") ≫= (fun base =>
            loadConfigFile (io st) (config_path dirname env) ≫= (fun envConfig =>
              mergeConfigs base envConfig)) = Ok c.
Proof.
  cbv zeta. unfold loadEnvironment.
  set (env := resolve environment (process_env st)).
  set (st0 := State (config st) env (process_env st) (io st)).
  pose proof (load_body_state dirname env st0) as H. cbv zeta in H.
  destruct (load_body dirname env st0) as [[c|e] st1]; cbn [fst snd] in *.
  - exact H.
  - destruct H as (Hf & Hd & Hc & Hp & Hcfg & _). cbn.
    repeat split; auto; discriminate.
Qed.

(** X8.  After a successful [loadEnvironment], with both files holding JSON
    objects and no [__proto__] entry in the environment file, the accessors
    read the merge section by section, for every section and entry whose name
    is none of those inherited from [Object.prototype]: a section the
    environment file does not mention is the one of the base file; a section
    the environment file gives as an array, a string, a number or a boolean
    replaces the base section; a section it gives as an object overrides the
    base section entry by entry (an entry it has wins as a whole, whatever
    its depth, the others are those of the base section); a section it gives
    as [null] leaves the entries of the base section in place. *)
Theorem environment_overrides_base (dirname : string) (environment : option string)
    (st st' : state) (c : json) (b o : list (string * json)) :
  let env := resolve environment (process_env st) in
  loadEnvironment dirname environment st = (Ok c, st') ->
  files (io st) !! config_path dirname "base" = Some (Some (JObj b)) ->
  files (io st) !! config_path dirname env = Some (Some (JObj o)) ->
  NoDup o.*1 ->
  ("__proto__" ∉ o.*1) ->
  forall section : string,
    inherited section = false ->
    (assoc section o = None ->
     config_section dirname section st' = (Ok (assoc section b), st'))
    /\ (forall v, assoc section o = Some v -> plain_object v = false ->
        config_section dirname section st' = (Ok (Some v), st'))
    /\ (forall sub field, assoc section o = Some (JObj sub) -> NoDup sub.*1 ->
        inherited field = false ->
        config_field dirname section field st'
        = (Ok match assoc field sub with
              | Some y => Some y
              | None => assoc field (own_props (assoc section b))
              end, st'))
    /\ (forall field, assoc section o = Some JNull ->
        inherited field = false ->
        config_field dirname section field st'
        = (Ok (assoc field (own_props (assoc section b))), st')).
Proof.
  cbv zeta. intros Hload Hb Ho Hnd Hproto section _.
  pose proof (loadEnvironment_state dirname environment st) as H. cbv zeta in H.
  rewrite Hload in H. cbn [fst snd] in H.
  destruct H as (_ & _ & _ & _ & _ & H). destruct (H c eq_refl) as [Hc Hm].
  apply loadConfigFile_Ok in Hb, Ho. rewrite Hb, Ho in Hm. cbn in Hm.
  pose proof (mergeConfigs_lookup b o c section Hm Hnd Hproto) as Hsec.
  assert (forall k, config_section dirname k st' = (prop (Some c) k, st')) as Hget.
  { intros k. unfold config_section, getConfig. by rewrite Hc. }
  assert (forall k f, config_field dirname k f st'
                      = (s ← prop (Some c) k; prop s f, st')) as Hget2.
  { intros k f. unfold config_field. rewrite Hget.
    by destruct (prop (Some c) k). }
  repeat split.
  - intros Hs. by rewrite Hget, Hsec, Hs.
  - intros v Hs Hv. rewrite Hget, Hsec, Hs. unfold overridden. by rewrite Hv.
  - intros sub field Hs Hsub _. rewrite Hget2, Hsec, Hs. cbn. f_equal. f_equal.
    unfold spread2. cbn [own_props]. by apply assoc_spread.
  - intros field Hs _. by rewrite Hget2, Hsec, Hs.
Qed.

Lemma environment_overrides_base_witness :
  let st := initial ∅ sample_config_world in
  let st' := (loadEnvironment "src/config" (Some "staging") st).2 in
  (getBaseUrl "src/config" st').1 = Ok (Some (JStr "https://staging.example.com"))
  /\ (getApiUrl "src/config" st').1 = Ok (Some (JStr "https://api.github.com"))
  /\ (getTestUsers "src/config" st').1 = Ok (Some (JArr [JStr "defunkt"]))
  /\ (getDefaultUser "src/config" st').1 = Ok (Some (JStr "octocat"))
  /\ (getBrowserConfig "src/config" st').1 = Ok (Some (JObj [("headless", JBool true)])).
Proof.
  cbv zeta.
  assert (exists c st',
            loadEnvironment "src/config" (Some "staging") (initial ∅ sample_config_world)
            = (Ok c, st')) as (c & st' & Hload).
  { vm_compute. eauto. }
  rewrite Hload. cbn [snd].
  assert (forall l : list string, bool_decide (NoDup l) = true -> NoDup l) as Hnd.
  { intros l H. by apply bool_decide_eq_true in H. }
  assert (forall (k : string) (l : list string), bool_decide (k ∈ l) = false -> k ∉ l)
    as Hnot.
  { intros k l H. by apply bool_decide_eq_false in H. }
  pose proof (fun b o Hb Ho Ho' Hp =>
                environment_overrides_base "src/config" (Some "staging")
                  (initial ∅ sample_config_world) st' c b o Hload Hb Ho Ho' Hp) as H.
  cbv zeta in H.
  specialize (H (own_props (Some sample_base)) (own_props (Some sample_staging))).
  specialize (H ltac:(vm_compute; reflexivity) ltac:(vm_compute; reflexivity)
                ltac:(apply Hnd; vm_compute; reflexivity)
                ltac:(apply Hnot; vm_compute; reflexivity)).
  unfold getBaseUrl, getApiUrl, getTestUsers, getDefaultUser, getBrowserConfig.
  destruct (H "application" eq_refl) as (_ & _ & Happ & _).
  destruct (H "users" eq_refl) as (_ & _ & Husers & _).
  destruct (H "browser" eq_refl) as (Hbrowser & _).
  rewrite (Happ [("baseUrl", JStr "https://staging.example.com")] "baseUrl" eq_refl
             ltac:(apply Hnd; vm_compute; reflexivity) eq_refl).
  rewrite (Happ [("baseUrl", JStr "https://staging.example.com")] "apiUrl" eq_refl
             ltac:(apply Hnd; vm_compute; reflexivity) eq_refl).
  rewrite (Husers [("testUsers", JArr [JStr "defunkt"])] "testUsers" eq_refl
             ltac:(apply Hnd; vm_compute; reflexivity) eq_refl).
  rewrite (Husers [("testUsers", JArr [JStr "defunkt"])] "defaultUser" eq_refl
             ltac:(apply Hnd; vm_compute; reflexivity) eq_refl).
  rewrite (Hbrowser eq_refl).
  repeat split; reflexivity.
Defined.

(** The [__proto__] entry of an environment file is no section: it becomes
    the prototype of the merged configuration, whose sections are read
    where the configuration itself has none. *)
Lemma environment_prototype_entry :
  let w := World {[ config_path "src/config" "base" := Some (JObj []);
                    config_path "src/config" "dev" :=
                      Some (JObj [("__proto__",
                                   JObj [("application",
                                          JObj [("baseUrl", JStr "https://x.test")]);
                                         ("environment",
                                          JObj [("name", JStr "Prototype")])])]) ]}
                 ∅ [] in
  let st' := (loadEnvironment "src/config" (Some "dev") (initial ∅ w)).2 in
  (getBaseUrl "src/config" st').1 = Ok (Some (JStr "https://x.test")).
Proof.
  vm_compute. reflexivity.
Qed.

Section ManagerInvariant.

Variable dirname : string.
Variable penv : gmap string string.
Variable w : world.

Lemma loadEnvironment_invariant (environment : option string) (st : state) :
  manager_invariant dirname penv w st ->
  manager_invariant dirname penv w (loadEnvironment dirname environment st).2.
Proof.
  intros (Hne & Hf & Hd & Hp & Hc).
  destruct (loadEnvironment_state dirname environment st)
    as (Hf' & Hd' & He' & Hp' & Hc' & _).
  unfold manager_invariant, getCurrentEnvironment. rewrite He', Hf', Hd', Hp'.
  repeat split; auto using resolve_nonempty.
  destruct Hc' as [->|(base & envc & merged & Hb & He & Hm & ->)]; [done|].
  assert (forall p, loadConfigFile (io st) p = loadConfigFile w p) as Hsame.
  { intros p. unfold loadConfigFile, existsSync, readFileSync. by rewrite Hf, Hd. }
  rewrite !Hsame in *. by eexists _, base, envc.
Qed.

Lemma getConfig_invariant (st : state) :
  manager_invariant dirname penv w st ->
  manager_invariant dirname penv w (getConfig dirname st).2.
Proof.
  intros Hinv. unfold getConfig.
  destruct (config st) eqn:Hc; [exact Hinv|]. by apply loadEnvironment_invariant.
Qed.

Lemma config_section_state (section : string) (st : state) :
  (config_section dirname section st).2 = (getConfig dirname st).2.
Proof.
  unfold config_section. by destruct (getConfig dirname st) as [[c|e] st'].
Qed.

Lemma config_field_state (section field : string) (st : state) :
  (config_field dirname section field st).2 = (getConfig dirname st).2.
Proof.
  unfold config_field. rewrite <- (config_section_state section).
  by destruct (config_section dirname section st) as [[c|e] st'].
Qed.

Lemma perform_invariant (c : call) (st : state) :
  manager_invariant dirname penv w st ->
  manager_invariant dirname penv w (perform dirname c st).
Proof.
  intros Hinv. destruct c as [environment| |section|section field]; cbn [perform].
  - by apply loadEnvironment_invariant.
  - by apply getConfig_invariant.
  - rewrite config_section_state. by apply getConfig_invariant.
  - rewrite config_field_state. by apply getConfig_invariant.
Qed.

Lemma after_invariant (calls : list call) (st : state) :
  manager_invariant dirname penv w st ->
  manager_invariant dirname penv w (after dirname calls st).
Proof.
  revert st. induction calls as [|c calls IH]; intros st Hinv; [exact Hinv|].
  cbn [after fold_left]. apply IH. by apply perform_invariant.
Qed.

End ManagerInvariant.

(** X9.  Whatever calls are made on a fresh manager, and in whatever order,
    the current environment name is never empty, the files, the directories
    and the process environment are as they were (the manager only reads),
    and a cached configuration is always the merge of the base file with the
    file of some environment, as the two are on disk. *)
Theorem manager_invariants (dirname : string) (penv : gmap string string) (w : world)
    (calls : list call) :
  let st := after dirname calls (initial penv w) in
  getCurrentEnvironment st <> ""
  /\ files (io st) = files w /\ dirs (io st) = dirs w
  /\ process_env st = penv
  /\ match config st with
     | Some c => merge_of_files dirname w c
     | None => True
     end.
Proof.
  cbv zeta. apply after_invariant. repeat split; done.
Qed.

(* ===================================================================== *)
(** ** The environments on offer (getAvailableEnvironments)              *)
(* ===================================================================== *)

Lemma string_app_assoc (a b c : string) : (a +:+ b) +:+ c = a +:+ b +:+ c.
Proof.
  induction a as [|x a IH]; [reflexivity|].
  change (String x a +:+ b) with (String x (a +:+ b)).
  change (String x (a +:+ b) +:+ c) with (String x ((a +:+ b) +:+ c)).
  by rewrite IH.
Qed.

Lemma string_app_length (a b : string) :
  String.length (a +:+ b) = (String.length a + String.length b)%nat.
Proof.
  induction a as [|x a IH]; [reflexivity|].
  change (String x a +:+ b) with (String x (a +:+ b)). cbn. by rewrite IH.
Qed.

Lemma string_app_cancel_r (a b c : string) : a +:+ c = b +:+ c -> a = b.
Proof.
  revert b. induction a as [|x a IH]; intros [|y b] H.
  - reflexivity.
  - apply (f_equal String.length) in H. rewrite !string_app_length in H. cbn in H. lia.
  - apply (f_equal String.length) in H. rewrite !string_app_length in H. cbn in H. lia.
  - change (String x (a +:+ c) = String y (b +:+ c)) in H.
    injection H as -> H. by rewrite (IH b H).
Qed.

Lemma strip_append (pre n : string) : strip pre (pre +:+ n) = Some n.
Proof.
  induction pre as [|x pre IH]; [reflexivity|].
  change (String x pre +:+ n) with (String x (pre +:+ n)).
  cbn [strip]. by rewrite Ascii.eqb_refl.
Qed.

Lemma entry_name_child (d n : string) :
  n <> "" -> includes n "/" = false -> entry_name d (d +:+ "/" +:+ n) = Some n.
Proof.
  intros Hn Hsep. unfold entry_name.
  rewrite <- string_app_assoc, strip_append, Hsep.
  by apply String.eqb_neq in Hn as ->.
Qed.

Lemma endsWith_append (a b : string) : endsWith (a +:+ b) b = true.
Proof.
  induction a as [|x a IH].
  - change ("" +:+ b) with b. destruct b; cbn [endsWith]; by rewrite String.eqb_refl.
  - change (String x a +:+ b) with (String x (a +:+ b)).
    cbn [endsWith]. by rewrite IH, orb_true_r.
Qed.

Lemma drop_chars_append (a b : string) : drop_chars (String.length a) (a +:+ b) = b.
Proof.
  induction a as [|x a IH]; [by destruct b|]. exact IH.
Qed.

(** The pattern does not occur astride the end of a name that is followed
    by it. *)
Lemma prefix_json_append (name : string) :
  String.prefix ".json" (name +:+ ".json") = true ->
  name = "" \/ String.prefix ".json" name = true.
Proof.
  destruct name as [|c1 [|c2 [|c3 [|c4 [|c5 rest]]]]]; [by left|..];
    cbv [String.append]; fold String.append; cbn -[Ascii.ascii_dec];
    repeat (match goal with
            | |- context [Ascii.ascii_dec ?a ?b] =>
                destruct (Ascii.ascii_dec a b); [subst|]
            end; cbn -[Ascii.ascii_dec]); try discriminate; auto.
  intros _. right. by destruct rest.
Qed.

Lemma includes_cons (a : Ascii.ascii) (s sub : string) :
  includes (String a s) sub = false ->
  String.prefix sub (String a s) = false /\ includes s sub = false.
Proof.
  cbn [includes]. by intros [??]%orb_false_iff.
Qed.

Lemma remove_first_suffix (name : string) :
  includes name ".json" = false -> remove_first (name +:+ ".json") ".json" = name.
Proof.
  induction name as [|x name IH]; [reflexivity|]. intros Hinc.
  apply includes_cons in Hinc as [Hpre Hinc].
  change (String x name +:+ ".json") with (String x (name +:+ ".json")).
  cbn [remove_first].
  destruct (String.prefix ".json" (String x (name +:+ ".json"))) eqn:Hp.
  - apply (prefix_json_append (String x name)) in Hp as [Hp|Hp]; congruence.
  - by rewrite IH.
Qed.

Lemma remove_first_unfold (x : Ascii.ascii) (s pattern : string) :
  remove_first (String x s) pattern
  = if String.prefix pattern (String x s)
    then drop_chars (String.length pattern) (String x s)
    else String x (remove_first s pattern).
Proof. reflexivity. Qed.

Lemma includes_unfold (x : Ascii.ascii) (s sub : string) :
  includes (String x s) sub = String.prefix sub (String x s) || includes s sub.
Proof. reflexivity. Qed.

Lemma remove_first_cases (s pattern : string) :
  (includes s pattern = false /\ remove_first s pattern = s)
  \/ exists a b, s = a +:+ pattern +:+ b /\ remove_first s pattern = a +:+ b.
Proof.
  induction s as [|x s IH].
  - cbn [remove_first includes].
    destruct (String.prefix pattern "") eqn:Hp.
    + right. apply prefix_append in Hp as [b Hb]. exists "", b.
      destruct pattern; [|discriminate Hb]. by destruct b.
    + by left.
  - rewrite remove_first_unfold, includes_unfold.
    destruct (String.prefix pattern (String x s)) eqn:Hp.
    + right. apply prefix_append in Hp as [b Hb]. exists "", b. split; [exact Hb|].
      rewrite Hb. apply drop_chars_append.
    + destruct IH as [[Hinc Hrem]|(a & b & Hs & Hrem)].
      * left. by rewrite Hinc, Hrem.
      * right. exists (String x a), b. by rewrite Hs at 1; rewrite Hrem.
Qed.

Lemma base_not_listed (file : string) :
  endsWith file ".json" = true -> file <> "base.json" ->
  remove_first file ".json" <> "base".
Proof.
  intros Hends Hne Hrem.
  destruct (remove_first_cases file ".json") as [[_ Hsame]|(a & b & Hfile & Hab)].
  - rewrite Hsame in Hrem. subst file. discriminate Hends.
  - rewrite Hab in Hrem. subst file.
    destruct a as [|c1 [|c2 [|c3 [|c4 [|c5 a]]]]];
      cbv [String.append] in Hrem; fold String.append in Hrem;
      repeat (match type of Hrem with
              | String _ _ = String _ _ => injection Hrem as ? Hrem
              end); subst;
      try discriminate; try (by vm_compute in Hends); try (by destruct a);
      try (by destruct b); try (by apply Hne).
Qed.

Lemma config_path_entry (dirname name : string) :
  config_path dirname name = (dirname +:+ "/environments") +:+ "/" +:+ (name +:+ ".json").
Proof.
  unfold config_path. rewrite !string_app_assoc. reflexivity.
Qed.

Lemma prefix_char (c x : Ascii.ascii) (s : string) :
  String.prefix (String c "") (String x s) = bool_decide (c = x).
Proof.
  cbn -[Ascii.ascii_dec]. destruct (Ascii.ascii_dec c x) as [->|Hne].
  - rewrite bool_decide_eq_true_2 by done. by destruct s.
  - by rewrite bool_decide_eq_false_2.
Qed.

Lemma includes_char_append (c : Ascii.ascii) (a b : string) :
  includes (a +:+ b) (String c "") = includes a (String c "") || includes b (String c "").
Proof.
  induction a as [|x a IH].
  - change ("" +:+ b) with b. by destruct b.
  - change (String x a +:+ b) with (String x (a +:+ b)).
    rewrite !includes_unfold, !prefix_char, IH. by rewrite orb_assoc.
Qed.

Lemma environment_listed (entries : list string) (name : string) :
  name <> "base" -> includes name ".json" = false ->
  name +:+ ".json" ∈ entries -> name ∈ environment_names entries.
Proof.
  intros Hbase Hinc Hin. unfold environment_names.
  apply list_elem_of_In, in_map_iff. exists (name +:+ ".json"). split.
  - by apply remove_first_suffix.
  - apply filter_In. split; [by apply list_elem_of_In|].
    rewrite endsWith_append. cbn [andb]. apply negb_true_iff, String.eqb_neq.
    intros H. apply Hbase. by apply (string_app_cancel_r name "base" ".json").
Qed.

Lemma base_not_in_names (entries : list string) : "base" ∉ environment_names entries.
Proof.
  unfold environment_names. intros Hin%list_elem_of_In%in_map_iff.
  destruct Hin as (file & Hrem & Hin%filter_In). destruct Hin as [_ Hf].
  apply andb_true_iff in Hf as [Hends Hne%negb_true_iff%String.eqb_neq].
  by apply (base_not_listed file).
Qed.

(** X10.  [getAvailableEnvironments]: when the directory of the
    environments cannot be read the answer is the fixed list dev, staging,
    prod; when it can, [base] is never listed, and every environment that
    [loadEnvironment] would find a file for is listed under its name, provided
    the name is not [base] and holds neither a separator nor the text [.json];
    the function of the same name in the loader script gives the same
    list. *)
Theorem available_environments (dirname : string) (st : state) :
  let envDir := dirname +:+ "/environments" in
  let names := (getAvailableEnvironments dirname st).1 in
  (envDir ∉ dirs (io st) -> names = ["dev"; "staging"; "prod"])
  /\ (envDir ∈ dirs (io st) ->
      ("base" ∉ names)
      /\ forall name : string,
           name <> "base" -> includes name "/" = false -> includes name ".json" = false ->
           is_Some (files (io st) !! config_path dirname name) ->
           name ∈ names)
  /\ forall p : EnvironmentLoader.process,
       EnvironmentLoader.stdio p = io st ->
       (EnvironmentLoaderScript.getAvailableEnvironments dirname p).1
       = EnvironmentLoader.Done names.
Proof.
  cbv zeta. unfold getAvailableEnvironments, readdirSync. split; [|split].
  - intros Hdir. by rewrite bool_decide_eq_false_2.
  - intros Hdir. rewrite bool_decide_eq_true_2 by done. cbn [fst]. split.
    + apply base_not_in_names.
    + intros name Hbase Hsep Hjson [t Ht].
      apply environment_listed; [done..|].
      apply list_elem_of_omap. exists (config_path dirname name). split.
      * apply elem_of_app. left. apply list_elem_of_fmap.
        exists (config_path dirname name, t). split; [done|].
        by apply elem_of_map_to_list.
      * rewrite config_path_entry. apply entry_name_child.
        -- by destruct name.
        -- by rewrite includes_char_append, Hsep.
  - intros p Hp. unfold EnvironmentLoaderScript.getAvailableEnvironments, readdirSync.
    rewrite Hp. cbn [fst]. by destruct (bool_decide _).
Qed.

Lemma available_environments_witness :
  let names := (getAvailableEnvironments "src/config" (initial ∅ sample_config_world)).1 in
  ("base" ∉ names) /\ "dev" ∈ names /\ "staging" ∈ names.
Proof.
  cbv zeta.
  destruct (available_environments "src/config" (initial ∅ sample_config_world))
    as (_ & H & _).
  destruct H as [Hbase Hin]. { vm_compute. reflexivity. }
  split; [exact Hbase|].
  split; apply Hin; try discriminate; try reflexivity; vm_compute; eauto.
Defined.

(* ===================================================================== *)
(** ** The retry configuration (getRetryConfig)                          *)
(* ===================================================================== *)

Import RetrySettings.

Lemma or_else_truthy (a b : jsval) : truthy b = true -> truthy (or_else a b) = true.
Proof.
  intros Hb. unfold or_else. by destruct (truthy a) eqn:Ha.
Qed.

(** X11.  Whenever [getRetryConfig] returns, [maxRetries], [retryDelay] and
    [retryOnlyFailures] are truthy, a configured multiplier is truthy, and
    [failFast] is truthy or the boolean [false]: a configured value of 0,
    [false], [null] or the empty string is replaced by the default, so that
    [retries: 0] yields 2 retries and [retryOnlyFailures: false] yields
    [true]. *)
Theorem retry_config_defaults (dirname : string) (st st' : state) (rc : RetryConfig) :
  getRetryConfig dirname st = (Ok rc, st') ->
  truthy (maxRetries rc) = true
  /\ truthy (retryDelay rc) = true
  /\ truthy (retryOnlyFailures rc) = true
  /\ (forall v, retryTimeoutMultiplier rc = inl v -> truthy (Some v) = true)
  /\ (truthy (failFast rc) = true \/ failFast rc = Some (JBool false))
  /\ exists config test,
       getConfig dirname st = (Ok config, st')
       /\ prop (Some config) "test" = Ok test
       /\ (forall v, prop test "retries" = Ok v -> truthy v = false ->
           maxRetries rc = Some (JNum 2))
       /\ (forall v, prop test "retryOnlyFailures" = Ok v -> truthy v = false ->
           retryOnlyFailures rc = Some (JBool true)).
Proof.
  unfold getRetryConfig, test_entry.
  destruct (getConfig dirname st) as [[config|e] st1]; [|discriminate].
  destruct (prop (Some config) "test") as [test|e] eqn:Htest; [|discriminate].
  cbn [mbind res_bind bind].
  destruct (prop test "retries") as [retries|] eqn:H1; [|discriminate].
  destruct (prop test "retryDelay") as [delay|] eqn:H2; [|discriminate].
  destruct (prop test "retryOnlyFailures") as [only|] eqn:H3; [|discriminate].
  destruct (prop test "retryTimeoutMultiplier") as [mult|] eqn:H4; [|discriminate].
  destruct (prop test "failFast") as [ff|] eqn:H5; [|discriminate].
  cbn [mret res_ret]. intros [= <- <-]. cbn [maxRetries retryDelay retryOnlyFailures
    retryTimeoutMultiplier failFast].
  split; [by apply or_else_truthy|]. split; [by apply or_else_truthy|].
  split; [by apply or_else_truthy|]. split.
  { intros v. destruct mult as [m|]; [|discriminate].
    destruct (truthy (Some m)) eqn:Hm; [|discriminate]. by intros [= <-]. }
  split.
  { unfold or_else. destruct (truthy ff) eqn:Hff; [left; exact Hff|by right]. }
  exists config, test. split; [reflexivity|]. split; [exact Htest|]. split.
  - intros v Hr Hv. rewrite H1 in Hr. injection Hr as <-.
    unfold or_else. by rewrite Hv.
  - intros v Hr Hv. rewrite H3 in Hr. injection Hr as <-.
    unfold or_else. by rewrite Hv.
Qed.

Lemma retry_config_defaults_witness :
  let st := State (Some sample_base) "dev" ∅ (World ∅ ∅ []) in
  exists rc,
    getRetryConfig "src/config" st = (Ok rc, st)
    /\ maxRetries rc = Some (JNum 2)
    /\ truthy (retryOnlyFailures rc) = true.
Proof.
  cbv zeta. eexists. split; [reflexivity|]. split; [reflexivity|].
  by destruct (retry_config_defaults "src/config"
                 (State (Some sample_base) "dev" ∅ (World ∅ ∅ []))
                 (State (Some sample_base) "dev" ∅ (World ∅ ∅ [])) _ eq_refl)
    as (_ & _ & H & _).
Defined.

(* ===================================================================== *)
(** ** The environment loader script                                     *)
(* ===================================================================== *)

Import EnvironmentLoader EnvironmentLoaderScript.

(** A sequence of two evaluations that ends with a value: so does the
    first, and the second continues from where it stopped. *)
Lemma proc_bind_done {A B} (m : proc A) (k : A -> proc B) (p p' : process) (b : B) :
  (m ≫= k) p = (Done b, p') ->
  exists a p1, m p = (Done a, p1) /\ k a p1 = (Done b, p').
Proof.
  unfold mbind, proc_mbind, proc_bind.
  destruct (m p) as [[a|e|code] p1]; [eauto|discriminate|discriminate].
Qed.

(** A sequence of two evaluations that ends with [process.exit]: the exit
    is in the first, or the first ends with a value and the exit is in the
    second. *)
Lemma proc_bind_exited {A B} (m : proc A) (k : A -> proc B) (p p' : process) (code : Z) :
  (m ≫= k) p = (Exited code, p') ->
  m p = (Exited code, p')
  \/ exists a p1, m p = (Done a, p1) /\ k a p1 = (Exited code, p').
Proof.
  unfold mbind, proc_mbind, proc_bind.
  destruct (m p) as [[a|e|c] p1]; [eauto|discriminate|].
  intros [= <- <-]. by left.
Qed.

Lemma pure_not_exited {A} (r : res A) (p p' : process) (code : Z) :
  pure r p <> (Exited code, p').
Proof. unfold pure. by destruct r. Qed.

Lemma setenv_not_exited (k : string) (v : jsval) (p p' : process) (code : Z) :
  setenv k v p <> (Exited code, p').
Proof. unfold setenv. by destruct (to_string_value v). Qed.

Lemma say_not_exited (l : log_line) (p p' : process) (code : Z) :
  say l p <> (Exited code, p').
Proof. discriminate. Qed.

Lemma loadEnvironmentConfig_done (dirname env : string) (p p' : process) (c : json) :
  loadEnvironmentConfig dirname env p = (Done c, p') ->
  files (stdio p) !! config_path dirname env = Some (Some c)
  /\ exists x name text,
       prop (Some c) "environment" = Ok x /\ prop x "name" = Ok name
       /\ to_string_value name = Ok text.
Proof.
  unfold loadEnvironmentConfig. intros H.
  apply proc_bind_done in H as (present & p1 & [= <- <-] & H).
  apply proc_bind_done in H as ([] & p2 & Hpresent & H).
  destruct (existsSync (stdio p) (config_path dirname env)); cbn [negb] in Hpresent.
  2: { do 3 apply proc_bind_done in Hpresent as (? & ? & _ & Hpresent).
       discriminate Hpresent. }
  injection Hpresent as <-.
  apply proc_bind_done in H as (config & p3 & Hconfig & H).
  assert (files (stdio p) !! config_path dirname env = Some (Some config)) as Hfile.
  { unfold pure, readFileSync in Hconfig.
    destruct (files (stdio p) !! config_path dirname env) as [[c'|]|];
      cbn in Hconfig; congruence. }
  repeat (let Hstep := fresh "Hstep" in
          apply proc_bind_done in H as (? & ? & Hstep & H)).
  injection H as <- _. split; [exact Hfile|].
  match goal with
  | Hname : entry config "environment" "name" _ = (Done ?n, _),
    Htext : pure (to_string_value ?n) _ = (Done ?t, _) |- _ =>
      unfold entry, pure in Hname, Htext;
      destruct (prop (Some config) "environment") as [described|]; [|discriminate Hname];
      cbn [mbind res_bind bind] in Hname;
      destruct (prop described "name") as [name'|] eqn:Hprop; [|discriminate Hname];
      injection Hname as <- _;
      destruct (to_string_value name') as [text|] eqn:Hconv; [|discriminate Htext];
      by exists described, name', text
  end.
Qed.

Lemma assoc_app_Some (k : string) (y : json) (l l' : list (string * json)) :
  assoc k l = Some y -> assoc k (l ++ l') = Some y.
Proof.
  induction l as [|[k0 v0] l IH]; [discriminate|]. cbn.
  by destruct (String.eqb k k0).
Qed.

(** An assignment under another key leaves an entry as it is. *)
Lemma set_entry_other (k k' : string) (v y : json) (merged : list (string * json)) :
  k <> k' -> assoc k merged = Some y -> assoc k (set_entry k' v merged) = Some y.
Proof.
  intros Hk Hy. unfold set_entry.
  assert (assoc k (assign k' v merged) = Some y) as Hassign.
  { rewrite assoc_assign. by rewrite (proj2 (String.eqb_neq _ _) Hk). }
  destruct (assoc k' merged); [exact Hassign|].
  destruct (String.eqb k' "__proto__"); [|exact Hassign].
  unfold set_prototype. destruct v; try exact Hy; by apply assoc_app_Some.
Qed.

Lemma merge_into_keeps (l merged : list (string * json)) (k : string) (y : json) :
  k ∉ l.*1 ->
  assoc k merged = Some y ->
  assoc k (merge_into merged (JObj l)) = Some y.
Proof.
  unfold merge_into. cbn [own_props]. revert merged.
  induction l as [|[k0 v0] l IH]; intros merged Hk Hy; [exact Hy|].
  cbn [fmap list_fmap fst] in Hk. apply not_elem_of_cons in Hk as [Hne Hk].
  cbn [fold_left]. apply IH; [exact Hk|].
  destruct (plain_object v0); by apply set_entry_other.
Qed.

(** An entry of the override, under a key other than [__proto__], leaves
    what it overrides the earlier value with. *)
Lemma merge_into_entry (o merged : list (string * json)) (k : string) (v : json) :
  NoDup o.*1 ->
  k <> "__proto__" ->
  assoc k o = Some v ->
  exists old, assoc k (merge_into merged (JObj o)) = Some (overridden old v).
Proof.
  unfold merge_into. cbn [own_props]. revert merged.
  induction o as [|[k0 v0] o IH]; intros merged Hnd Hk Hv; [discriminate|].
  cbn [fmap list_fmap fst] in Hnd. apply NoDup_cons in Hnd as [Hk0 Hnd].
  cbn [fold_left]. cbn [assoc] in Hv.
  destruct (String.eqb k k0) eqn:Hkk.
  - apply String.eqb_eq in Hkk. subst k0. injection Hv as ->.
    exists (assoc k merged).
    apply (merge_into_keeps o _ k _ Hk0).
    rewrite !set_entry_assign by exact Hk. unfold overridden.
    destruct (plain_object v); by rewrite assoc_assign, String.eqb_refl.
  - by apply IH.
Qed.

Lemma assoc_Some_elem (k : string) (v : json) (l : list (string * json)) :
  assoc k l = Some v -> k ∈ l.*1.
Proof.
  induction l as [|[k0 v0] l IH]; [discriminate|]. cbn.
  destruct (String.eqb k k0) eqn:H0.
  - apply String.eqb_eq in H0. subst k0. intros _. apply list_elem_of_here.
  - intros H. apply list_elem_of_further. by apply IH.
Qed.

(** The script run on one argument that names an environment. *)
Lemma main_one_argument (dirname env : string) (p : process) :
  env <> "" -> env <> "--help" -> env <> "-h" ->
  main_block dirname [env] p
  = match loadEnvironmentConfig dirname env p with
    | (Done _, p') => (Done tt, p')
    | (Raised e, p') => (Raised e, p')
    | (Exited code, p') => (Exited code, p')
    end.
Proof.
  intros Hne Hhelp Hh. unfold main_block.
  assert (existsb (String.eqb "--help") [env] || existsb (String.eqb "-h") [env] = false)
    as ->.
  { cbn [existsb]. rewrite !orb_false_r.
    apply orb_false_iff; split; apply String.eqb_neq; congruence. }
  cbv [mbind proc_mbind proc_bind mret proc_mret proc_ret]. cbn [head nonempty].
  apply String.eqb_neq in Hne as ->. cbn [negb default from_option id].
  reflexivity.
Qed.

Lemma loadEnvironmentConfig_exit (dirname env : string) (p p' : process) (code : Z) :
  loadEnvironmentConfig dirname env p = (Exited code, p') -> code = 1.
Proof.
  unfold loadEnvironmentConfig. intros H.
  apply proc_bind_exited in H as [H | (present & p1 & _ & H)]; [discriminate H|].
  apply proc_bind_exited in H as [H | (? & ? & _ & H)].
  - destruct (negb present); [|discriminate H].
    do 3 (apply proc_bind_exited in H as [H | (? & ? & _ & H)]; [discriminate H|]).
    by injection H.
  - repeat (apply proc_bind_exited in H as [H | (? & ? & _ & H)];
            [ first [ by apply pure_not_exited in H
                    | by apply setenv_not_exited in H
                    | discriminate H ] | ]).
    discriminate H.
Qed.

(** X12.  An environment the loader script accepts is one the manager can
    load: when [node environment-loader.js env] ends with status 0, the base
    file is loadable and the environment file (an object without repeated
    keys) has no entry named [hasOwnProperty] and names its environment (its
    [environment] section, when an object, has a [name] entry),
    [loadEnvironment(env)] succeeds on the same files, caches what it returns
    and makes [env] the current environment.  (The script reads the
    environment file alone and wants every section in it; the manager
    completes it from the base file, the name it prints included.) *)
Theorem loader_accepts_manager_loads (dirname env : string) (p : process) (st : state)
    (base : json) :
  status dirname [env] p = 0 ->
  env <> "" -> env <> "--help" -> env <> "-h" ->
  io st = stdio p ->
  loadConfigFile (io st) (config_path dirname "base") = Ok base ->
  (forall o, files (io st) !! config_path dirname env = Some (Some (JObj o)) ->
             assoc "hasOwnProperty" o = None
             /\ NoDup o.*1
             /\ forall sub, assoc "environment" o = Some (JObj sub) ->
                   NoDup sub.*1 /\ is_Some (assoc "name" sub)) ->
  exists c st',
    loadEnvironment dirname (Some env) st = (Ok c, st')
    /\ getConfig dirname st' = (Ok c, st')
    /\ getCurrentEnvironment st' = env.
Proof.
  intros Hstatus Hne Hhelp Hh Hio Hbase Hown.
  unfold status in Hstatus. rewrite main_one_argument in Hstatus by done.
  destruct (loadEnvironmentConfig dirname env p) as [[c| |code] p'] eqn:Hload;
    cbn in Hstatus; try discriminate.
  2: { apply loadEnvironmentConfig_exit in Hload. lia. }
  apply loadEnvironmentConfig_done in Hload as (Hfile & x & name & text & Hx & Hname & Htext).
  rewrite <- Hio in Hfile.
  destruct c as [| | | | |o]; cbn in Hx; try discriminate Hx;
    injection Hx as <-; try discriminate Hname.
  destruct (assoc "environment" o) as [v|] eqn:Hv; [|discriminate Hname].
  destruct (Hown o Hfile) as (Hhas & Hnd & Hsub).
  destruct (merge_into_entry o (own_props (Some base)) "environment" v Hnd
              ltac:(discriminate) Hv) as (old & Hy).
  assert ((n ← prop (Some (overridden old v)) "name"; to_string_value n) = Ok text)
    as Hmerged.
  { unfold overridden. destruct v as [| | | | |sub]; cbn [plain_object];
      try (by rewrite Hname); [discriminate Hname|].
    destruct (Hsub sub Hv) as (Hndsub & y & Hy').
    cbn [prop] in Hname |- *. unfold spread2. cbn [own_props].
    rewrite assoc_spread by exact Hndsub. rewrite Hy' in Hname |- *.
    injection Hname as <-. exact Htext. }
  assert (nonempty (Some env) = true) as Hnonempty.
  { cbn [nonempty]. by apply String.eqb_neq in Hne as ->. }
  unfold loadEnvironment, resolve. rewrite Hnonempty. cbn [default from_option id].
  unfold load_body. cbn [io]. rewrite Hbase.
  rewrite (proj2 (loadConfigFile_Ok _ _ _) Hfile).
  unfold mergeConfigs. rewrite Hhas.
  cbn [prop]. rewrite Hy. cbn [mbind res_bind bind] in Hmerged |- *. rewrite Hmerged.
  eexists _, _. split; [reflexivity|]. split; reflexivity.
Qed.

Lemma loader_accepts_manager_loads_witness :
  status "src/config" ["dev"] (Process ∅ sample_config_world) = 0
  /\ is_throw (loadEnvironment "src/config" (Some "dev") (initial ∅ sample_config_world)).1
     = false.
Proof.
  assert (status "src/config" ["dev"] (Process ∅ sample_config_world) = 0) as Hstatus.
  { vm_compute. reflexivity. }
  split; [exact Hstatus|].
  destruct (loader_accepts_manager_loads "src/config" "dev"
              (Process ∅ sample_config_world) (initial ∅ sample_config_world)
              sample_base Hstatus)
    as (c & st' & Hload & _).
  - discriminate.
  - discriminate.
  - discriminate.
  - reflexivity.
  - vm_compute. reflexivity.
  - intros o Ho. vm_compute in Ho. injection Ho as <-.
    split; [reflexivity|]. split.
    + apply (bool_decide_eq_true_1 _). vm_compute. reflexivity.
    + intros sub [= <-]. split; [|by eexists].
      apply (bool_decide_eq_true_1 _). vm_compute. reflexivity.
  - rewrite Hload. reflexivity.
Defined.

(** Without the name the hypothesis asks for, the script can accept an
    environment the manager cannot load: the name the manager prints is then
    the one of the base file, which need not convert to text. *)
Lemma loader_accepts_manager_throws :
  let dev :=
    JObj [("environment", JObj [("description", JStr "Development")]);
          ("application",
            JObj [("baseUrl", JStr "http://localhost:3000");
                  ("searchUrl", JStr "http://localhost:3000/search");
                  ("apiUrl", JStr "http://localhost:3000/api")]);
          ("browser", JObj [("headless", JBool false)]);
          ("test", JObj [("workers", JNum 2); ("timeout", JNum 30000);
                         ("retries", JNum 1)]);
          ("logging", JObj [("level", JStr "debug")]);
          ("users", JObj [("defaultUser", JStr "octocat")])] in
  let w := World {[ config_path "src/config" "base" :=
                      Some (JObj [("environment",
                                   JObj [("name", JObj [("toString", JNum 1)])])]);
                    config_path "src/config" "dev" := Some dev ]} ∅ [] in
  status "src/config" ["dev"] (Process ∅ w) = 0
  /\ is_throw (loadEnvironment "src/config" (Some "dev") (initial ∅ w)).1 = true.
Proof.
  vm_compute. split; reflexivity.
Qed.

(* ===================================================================== *)
(** ** The retry script and the loader it runs                           *)
(* ===================================================================== *)

Lemma extract_failed_tests_report eval now o w (v : json) (r : list feature) :
  plain_path (REPORT_PATH o) = true ->
  decode v = Some r ->
  files w !! REPORT_PATH o = Some (Some v) ->
  registry_writable w ->
  extract_failed_tests eval now o w
  = match failures now r with
    | [] => (Return 0, w)
    | failedTests =>
        (Return 1,
         writeFileSync
           (if existsSync w FAILED_TESTS_DIR then w else mkdirSync w FAILED_TESTS_DIR)
           FAILED_TESTS_FILE (Some (JArr (map to_json failedTests))))
    end.
Proof.
  intros Hplain Hv Hf Hw. unfold extract_failed_tests, is_file, readFileSync.
  rewrite Hf, Hplain.
  rewrite bool_decide_eq_true_2 by eauto. cbn [negb mbind res_bind bind JSON_parse].
  rewrite (scan_report_decode now v r Hv).
  destruct (failures now r) as [|t l]; [reflexivity|].
  pose proof (write_registry w (JSON_stringify (JArr (map to_json (t :: l)))) Hw) as Hwrite.
  cbv zeta in Hwrite. by rewrite Hwrite.
Qed.

(** X13.  [extract_failed_tests], for a report path that holds no quote, no
    backslash and no line break, on a well-formed report (whatever other
    entries its objects have), finds the failures that
    [parseFailedTestsFromReport] finds.  When there is none it returns 0 and
    touches nothing, a registry left by an earlier run included; when there
    are some and the registry can be written it returns 1 and replaces the
    registry by exactly these failures, which [getFailedTests] then reads
    back. *)
Theorem extract_failed_tests_rewrites_registry
    (eval : string -> world -> Z * world) now o w (v : json) (r : list feature) :
  plain_path (REPORT_PATH o) = true ->
  decode v = Some r ->
  files w !! REPORT_PATH o = Some (Some v) ->
  registry_writable w ->
  let result := extract_failed_tests eval now o w in
  (failures now r = [] -> result = (Return 0, w))
  /\ (failures now r <> [] ->
      result.1 = Return 1
      /\ registry result.2 = Some (map to_json (failures now r))
      /\ (getFailedTests result.2).1 = Ok (JArr (map to_json (failures now r))))
  /\ (parseFailedTestsFromReport now (REPORT_PATH o) w).1 = Ok (failures now r).
Proof.
  intros Hplain Hv Hf Hw. cbv zeta.
  rewrite (extract_failed_tests_report eval now o w v r Hplain Hv Hf Hw).
  split; [|split].
  - by intros ->.
  - intros Hne. destruct (failures now r) as [|t l] eqn:Hfail; [done|].
    cbn [fst snd].
    assert (registry
              (writeFileSync
                 (if existsSync w FAILED_TESTS_DIR then w else mkdirSync w FAILED_TESTS_DIR)
                 FAILED_TESTS_FILE (Some (JArr (map to_json (t :: l)))))
            = Some (map to_json (t :: l))) as Hreg.
    { unfold registry, writeFileSync. cbn [files]. by rewrite lookup_insert_eq. }
    split; [reflexivity|]. split; [exact Hreg|].
    by destruct (getFailedTests_registry _ _ Hreg).
  - rewrite (parse_present now _ w _ Hf). cbn [JSON_parse mbind res_bind bind].
    by rewrite (scan_report_decode now v r Hv).
Qed.

Lemma extract_failed_tests_rewrites_registry_witness :
  let w := World {["reports/cucumber-report.json" := Some sample_document]} ∅ [] in
  registry (extract_failed_tests (fun _ w => (0, w)) "t0" defaults w).2
  = Some (map to_json (failures "t0" sample_document_report)).
Proof.
  cbv zeta.
  destruct (extract_failed_tests_rewrites_registry (fun _ w => (0, w)) "t0" defaults
              (World {["reports/cucumber-report.json" := Some sample_document]} ∅ [])
              sample_document sample_document_report)
    as (_ & H & _).
  - vm_compute. reflexivity.
  - vm_compute. reflexivity.
  - vm_compute. reflexivity.
  - right. split; [|vm_compute; reflexivity].
    apply (bool_decide_unpack _). vm_compute. exact I.
  - apply H. intros Hnone. vm_compute in Hnone. discriminate Hnone.
Defined.

(** A report path with an apostrophe in it: the script [node] is handed is
    not the one for a plain path, and what becomes of it is up to [node]; a
    syntax error, for one, gives status 1 and writes nothing, so that the
    failures of the report are not recorded. *)
Lemma extract_failed_tests_quoted_path :
  let o := {| ENVIRONMENT := "dev"; MAX_RETRIES := 3; RETRY_DELAY := 2;
              REPORT_PATH := "reports/it's.json";
              CLEAR_FAILED := false; SHOW_STATS := false |} in
  let w := World {["reports/it's.json" := Some sample_document]} ∅ [] in
  extract_failed_tests (fun _ w => (1, w)) "t0" o w = (Return 1, w)
  /\ registry w = Some [].
Proof.
  cbv zeta. split; vm_compute; reflexivity.
Qed.

Section ScriptStatus.

Variable environment_loader : string -> world -> Z.
Variable eval : string -> world -> Z * world.
Variable now : string.

(** What the script does once the report has been examined. *)
Lemma retry_failed_tests_status (o : options) (w : world) :
  retry_failed_tests environment_loader eval o w
  = if is_file w FAILED_TESTS_FILE && (0 <? MAX_RETRIES o)%nat
       && negb (environment_loader (ENVIRONMENT o) w =? 0)
    then (Exit (environment_loader (ENVIRONMENT o) w), w)
    else (Return 0, w).
Proof.
  unfold retry_failed_tests. destruct (is_file w FAILED_TESTS_FILE); [|reflexivity].
  cbn [negb andb]. apply retry_loop_without_command.
Qed.

End ScriptStatus.

Lemma config_path_not_registry (env : string) (w : world) (t : text) :
  existsSync
    (writeFileSync
       (if existsSync w FAILED_TESTS_DIR then w else mkdirSync w FAILED_TESTS_DIR)
       FAILED_TESTS_FILE t)
    (config_path "src/config" env)
  = existsSync w (config_path "src/config" env).
Proof.
  unfold existsSync, writeFileSync, config_path. cbn [files dirs].
  rewrite lookup_insert_ne by discriminate.
  destruct (bool_decide (is_Some (files w !! FAILED_TESTS_DIR))
            || bool_decide (FAILED_TESTS_DIR ∈ dirs w)); [reflexivity|].
  cbn [mkdirSync files dirs]. f_equal. apply bool_decide_ext.
  rewrite elem_of_union, elem_of_singleton. split; [|by right].
  intros [H|H]; [discriminate H|exact H].
Qed.

(** X14.  The retry script with the loader it runs, for a report path that
    holds no quote, no backslash and no line break: when the report lists
    failures, the registry can be written, at least one attempt is allowed and
    the configuration file of the environment does not exist, the script
    exits with status 1 before anything is retried, whatever the test runner
    would do, and leaves the registry holding the failures of the report. *)
Theorem retry_script_without_environment (penv : gmap string string)
    (eval : string -> world -> Z * world) (now : string) (o : options) (w : world)
    (v : json) (r : list feature) :
  SHOW_STATS o = false -> CLEAR_FAILED o = false ->
  plain_path (REPORT_PATH o) = true ->
  decode v = Some r ->
  files w !! REPORT_PATH o = Some (Some v) ->
  registry_writable w ->
  failures now r <> [] ->
  (0 < MAX_RETRIES o)%nat ->
  ENVIRONMENT o <> "" -> ENVIRONMENT o <> "--help" -> ENVIRONMENT o <> "-h" ->
  existsSync w (config_path "src/config" (ENVIRONMENT o)) = false ->
  let result := main (run_environment_loader penv) eval now o w in
  result.1 = 1
  /\ result.2 = (extract_failed_tests eval now o w).2
  /\ registry result.2 = Some (map to_json (failures now r)).
Proof.
  intros Hstats Hclear Hplain Hv Hf Hw Hne Hmax He Hhelp Hh Hmissing. cbv zeta.
  unfold main. rewrite Hstats, Hclear.
  rewrite (extract_failed_tests_report eval now o w v r Hplain Hv Hf Hw).
  destruct (failures now r) as [|t l] eqn:Hfail; [done|].
  rewrite retry_failed_tests_status.
  set (w1 := writeFileSync _ _ _).
  assert (registry w1 = Some (map to_json (t :: l))) as Hreg.
  { unfold registry, w1, writeFileSync. cbn [files]. by rewrite lookup_insert_eq. }
  assert (is_file w1 FAILED_TESTS_FILE = true) as ->.
  { unfold is_file, w1, writeFileSync. cbn [files]. rewrite lookup_insert_eq.
    by apply bool_decide_eq_true_2. }
  assert ((0 <? MAX_RETRIES o)%nat = true) as -> by by apply Nat.ltb_lt.
  assert (run_environment_loader penv (ENVIRONMENT o) w1 = 1) as ->.
  { unfold run_environment_loader, status. rewrite main_one_argument by done.
    unfold loadEnvironmentConfig. proc_unfold. cbn [stdio].
    unfold w1. rewrite config_path_not_registry, Hmissing. reflexivity. }
  cbn. done.
Qed.

Lemma retry_script_without_environment_witness :
  let w := World {["reports/cucumber-report.json" := Some sample_document]} ∅ [] in
  (main (run_environment_loader ∅) (fun _ w => (0, w)) "t0" defaults w).1 = 1.
Proof.
  cbv zeta.
  destruct (retry_script_without_environment ∅ (fun _ w => (0, w)) "t0" defaults
              (World {["reports/cucumber-report.json" := Some sample_document]} ∅ [])
              sample_document sample_document_report eq_refl eq_refl) as (H & _).
  - vm_compute. reflexivity.
  - vm_compute. reflexivity.
  - vm_compute. reflexivity.
  - right. split; [|vm_compute; reflexivity].
    apply (bool_decide_unpack _). vm_compute. exact I.
  - intros Hnone. vm_compute in Hnone. discriminate Hnone.
  - cbn. lia.
  - discriminate.
  - discriminate.
  - discriminate.
  - vm_compute. reflexivity.
  - exact H.
Defined.

(* ===================================================================== *)
(** ** Running without workers                                           *)
(* ===================================================================== *)

Lemma split_zero_workers {T} (scenarios : list T) :
  splitScenariosAcrossWorkers scenarios (to_double 0) = Ok [].
Proof.
  unfold splitScenariosAcrossWorkers.
  change (ToLength (to_double 0)) with 0. cbn [Z.leb Z.compare Z.to_nat replicate].
  change (2 ^ 32 <=? 0) with false. cbv iota. f_equal.
  assert (forall l : list (nat * T),
            fold_left (push_scenario (to_double 0)) l [] = []) as ->; [|done].
  induction l as [|[i x] l IH]; [reflexivity|]. exact IH.
Qed.

(** X20.  On a machine with less than half a gigabyte of memory, outside
    continuous integration and without an override, the recommended worker
    count is 0, and splitting any list of scenarios across 0 workers returns
    no chunk at all: every scenario is dropped. *)
Theorem no_workers_no_chunks {T} (m : machine) (scenarios : list T) :
  0 <= totalmem m < 2 ^ 29 ->
  isCI m = false ->
  is_set (getenv m "CUCUMBER_WORKERS") = false ->
  is_set (getenv m "PLAYWRIGHT_WORKERS") = false ->
  getRecommendedWorkerCount m = Some 0
  /\ splitScenariosAcrossWorkers scenarios (to_double 0) = Ok [].
Proof.
  intros Hmem Hci Hc Hp. split; [|apply split_zero_workers].
  unfold getRecommendedWorkerCount, getWorkerCount, first_set.
  rewrite Hci, Hc, Hp. f_equal. unfold getOptimalWorkerCount.
  rewrite (Z.div_small (totalmem m)) by lia. lia.
Qed.

Lemma no_workers_no_chunks_witness :
  getRecommendedWorkerCount sample_small_machine = Some 0
  /\ splitScenariosAcrossWorkers ["a.feature:3"; "a.feature:9"; "b.feature:4"]
       (to_double 0)
     = Ok [].
Proof.
  apply (no_workers_no_chunks sample_small_machine
           ["a.feature:3"; "a.feature:9"; "b.feature:4"]).
  - cbn. lia.
  - reflexivity.
  - reflexivity.
  - reflexivity.
Defined.

(* ===================================================================== *)
(** ** Time estimates and validation of a worker count                   *)
(* ===================================================================== *)

Import ParallelReport.

Lemma same_double_eq (x y : double) : same_double x y = true -> x = y.
Proof.
  destruct x as [s|s| |s m e], y as [s'|s'| |s' m' e']; cbn; try discriminate.
  - by intros ->%Bool.eqb_prop.
  - by intros ->%Bool.eqb_prop.
  - done.
  - intros [[->%Bool.eqb_prop ->%Pos.eqb_eq]%andb_true_iff ->%Z.eqb_eq]%andb_true_iff.
    done.
Qed.

Lemma estimates_checked :
  forallb (fun t => forallb (fun w => estimate_agrees t w) (seqZ 1 16)) (seqZ 1 120) = true.
Proof. vm_compute. reflexivity. Qed.

(** X15.  For 1 to 120 scenarios and 1 to 16 workers the estimate computed
    on doubles is the exact one: thirty seconds a scenario in sequence, thirty
    seconds for each scenario of the busiest worker in parallel, and the
    saving in percent rounded to the nearest integer, which lies between 0
    and 99. *)
Theorem time_reduction_estimate (t w : Z) :
  1 <= t <= 120 -> 1 <= w <= 16 ->
  let r := calculateTimeReduction (to_double t) (to_double w) in
  sequentialTime r = to_double (30 * t)
  /\ parallelTime r = to_double (30 * rounds t w)
  /\ estimatedReduction r = to_double (exact_reduction t w)
  /\ 0 <= exact_reduction t w < 100.
Proof.
  intros Ht Hw. cbv zeta.
  assert (estimate_agrees t w = true) as H.
  { apply (forallb_seqZ (fun w => estimate_agrees t w) 1 16 w); [|lia].
    apply (forallb_seqZ
             (fun t => forallb (fun w => estimate_agrees t w) (seqZ 1 16)) 1 120 t);
      [|lia].
    exact estimates_checked. }
  unfold estimate_agrees in H. cbv zeta in H.
  apply andb_true_iff in H as [H H5]. apply andb_true_iff in H as [H H4].
  apply andb_true_iff in H as [H H3]. apply andb_true_iff in H as [H1 H2].
  apply same_double_eq in H1, H2, H3. apply Z.leb_le in H4. apply Z.ltb_lt in H5.
  auto.
Qed.

Lemma time_reduction_estimate_witness :
  estimatedReduction (calculateTimeReduction (to_double 10) (to_double 4)) = to_double 70
  /\ parallelTime (calculateTimeReduction (to_double 10) (to_double 4)) = to_double 90.
Proof.
  destruct (time_reduction_estimate 10 4) as (_ & Hpar & Hest & _); [lia|lia|].
  split; [exact Hest|exact Hpar].
Defined.

(** X16.  For no scenario at all the estimated reduction is [NaN], whatever
    the worker count (a number, an infinity or [NaN]). *)
Theorem time_reduction_of_nothing (s : bool) (workerCount : double) :
  estimatedReduction (calculateTimeReduction (S754_zero s) workerCount) = S754_nan.
Proof.
  destruct workerCount as [s'|s'| |s' m e], s; try destruct s'; reflexivity.
Qed.

Lemma number_gt_nan_l (y : double) : number_gt S754_nan y = false.
Proof. by destruct y as [[|]|[|]| |[|] m e]. Qed.

Lemma number_eq_nan_l (y : double) : number_eq S754_nan y = false.
Proof. by destruct y as [[|]|[|]| |[|] m e]. Qed.

Lemma double_mul_nan_l (y : double) : double_mul S754_nan y = S754_nan.
Proof. by destruct y as [[|]|[|]| |[|] m e]. Qed.

Lemma validateWorkerConfig_nan (os_platform : string) (m : machine) :
  validateWorkerConfig os_platform m S754_nan
  = {| isValid := true; warnings := []; recommendations := [] |}.
Proof.
  unfold validateWorkerConfig. cbv zeta.
  by rewrite double_mul_nan_l, !number_gt_nan_l, number_eq_nan_l.
Qed.

(** X17.  [validateWorkerConfig] gives one recommendation for each warning;
    the configuration is invalid exactly when half a gigabyte for each worker
    exceeds the free memory, which is exactly when the warning about memory
    is given: more workers than CPU cores, more than eight workers and a
    single worker are warned about but never invalidate; a worker count that
    is [NaN] is valid and draws no warning. *)
Theorem validate_worker_config_shape (os_platform : string) (m : machine)
    (workerCount : double) :
  let v := validateWorkerConfig os_platform m workerCount in
  let free := freeMemoryGB (getSystemInfo os_platform m) in
  length (warnings v) = length (recommendations v)
  /\ isValid v = negb (number_gt (double_mul workerCount half) free)
  /\ (isValid v = false <-> ExceedsFreeMemory (double_mul workerCount half) free ∈ warnings v)
  /\ (workerCount = S754_nan ->
      v = {| isValid := true; warnings := []; recommendations := [] |}).
Proof.
  cbv zeta. unfold validateWorkerConfig. cbv zeta.
  set (info := getSystemInfo os_platform m).
  split; [|split; [|split]].
  - destruct (number_gt workerCount (to_double (cpuCount info)));
      destruct (number_gt (double_mul workerCount half) (freeMemoryGB info));
      destruct (number_gt workerCount (to_double 8));
      destruct (number_eq workerCount (to_double 1)); reflexivity.
  - destruct (number_gt workerCount (to_double (cpuCount info)));
      destruct (number_gt (double_mul workerCount half) (freeMemoryGB info));
      destruct (number_gt workerCount (to_double 8));
      destruct (number_eq workerCount (to_double 1)); reflexivity.
  - destruct (number_gt (double_mul workerCount half) (freeMemoryGB info)) eqn:H2.
    + split; [intros _|].
      * destruct (number_gt workerCount (to_double (cpuCount info)));
          destruct (number_gt workerCount (to_double 8));
          destruct (number_eq workerCount (to_double 1));
          apply list_elem_of_In; cbn; tauto.
      * intros _.
        destruct (number_gt workerCount (to_double (cpuCount info)));
          destruct (number_gt workerCount (to_double 8));
          destruct (number_eq workerCount (to_double 1)); reflexivity.
    + split.
      * destruct (number_gt workerCount (to_double (cpuCount info)));
          destruct (number_gt workerCount (to_double 8));
          destruct (number_eq workerCount (to_double 1)); discriminate.
      * intros Hin. exfalso. apply list_elem_of_In in Hin.
        destruct (number_gt workerCount (to_double (cpuCount info)));
          destruct (number_gt workerCount (to_double 8));
          destruct (number_eq workerCount (to_double 1));
          cbn in Hin; intuition discriminate.
  - intros ->. apply validateWorkerConfig_nan.
Qed.

(** X18.  On a continuous integration machine whose [CI_WORKERS] is set to
    an ASCII text that is no number, the recommended worker count is [NaN],
    and [validateWorkerConfig] accepts it as valid without a warning. *)
Theorem nan_recommendation_validates (os_platform : string) (m : machine) :
  isCI m = true ->
  is_set (getenv m "CI_WORKERS") = true ->
  ascii_text (default "" (getenv m "CI_WORKERS")) ->
  parseInt10 (default "" (getenv m "CI_WORKERS")) = None ->
  getRecommendedWorkerCount m = None
  /\ validateWorkerConfig os_platform m (number (getRecommendedWorkerCount m))
     = {| isValid := true; warnings := []; recommendations := [] |}.
Proof.
  intros Hci Hset _ Hnan.
  assert (getRecommendedWorkerCount m = None) as ->.
  { unfold getRecommendedWorkerCount, getCIWorkerCount. by rewrite Hci, Hset, Hnan. }
  split; [reflexivity|].
  by apply (validateWorkerConfig_nan os_platform m).
Qed.

Lemma nan_recommendation_validates_witness :
  validateWorkerConfig "linux" sample_ci_machine
    (number (getRecommendedWorkerCount sample_ci_machine))
  = {| isValid := true; warnings := []; recommendations := [] |}.
Proof.
  destruct (nan_recommendation_validates "linux" sample_ci_machine) as [_ H].
  - vm_compute. reflexivity.
  - vm_compute. reflexivity.
  - apply (bool_decide_unpack _). vm_compute. exact I.
  - vm_compute. reflexivity.
  - exact H.
Defined.

(* ===================================================================== *)
(** ** The worker count of the parallel test script                      *)
(* ===================================================================== *)

Import ParallelScript.

Lemma digits_Some (s : string) (acc : Z) :
  exists v, digits s (Some acc) = Some v.
Proof.
  revert acc. induction s as [|a s IH]; intros acc; [by exists acc|].
  cbn [digits]. destruct (digit a); [apply IH|by exists acc].
Qed.

Lemma all_digits_parseInt (s : string) :
  all_digits s = true -> parseInt10 s = Some (decimal s) /\ s <> "".
Proof.
  unfold all_digits. intros [Hne Hall]%andb_true_iff.
  destruct s as [|a s]; [discriminate|]. split; [|discriminate].
  cbn [String.list_ascii_of_string forallb] in Hall.
  apply andb_true_iff in Hall as [Ha _]. apply bool_decide_eq_true in Ha as [d Hd].
  assert (48 <= code a <= 57) as Hcode.
  { unfold digit in Hd. destruct ((48 <=? code a) && (code a <=? 57)) eqn:Hc;
      [|discriminate]. lia. }
  unfold parseInt10, decimal. cbn [skip_spaces].
  assert (is_space a = false) as ->.
  { unfold is_space. apply orb_false_iff. split; [apply andb_false_iff; right|]; lia. }
  assert ((code a =? 45) = false) as -> by lia.
  assert ((code a =? 43) = false) as -> by lia.
  cbn [digits]. rewrite Hd.
  destruct (digits_Some s (10 * default 0 None + d)) as [v ->]. reflexivity.
Qed.

(** X19.  [validate_workers] of the parallel test script accepts exactly the
    strings of decimal digits whose value is between 1 and 10, or is too
    large for [test] to read; a count it accepts that [test] can read, once
    exported as [CUCUMBER_WORKERS], is the count [getWorkerCount] returns, so
    that 9 and 10 workers pass although the computed count is capped at
    8. *)
Theorem validated_worker_count (arg : string) (m : machine) :
  (validate_workers arg = Return 0
   <-> all_digits arg = true
       /\ (1 <= decimal arg <= 10 \/ INTMAX < decimal arg))
  /\ (validate_workers arg = Return 0 ->
      decimal arg <= INTMAX ->
      getenv m "CUCUMBER_WORKERS" = Some arg ->
      getWorkerCount m = decimal arg /\ 1 <= getWorkerCount m <= 10).
Proof.
  assert (validate_workers arg = Return 0
          <-> all_digits arg = true
              /\ (1 <= decimal arg <= 10 \/ INTMAX < decimal arg)) as Hiff.
  { unfold validate_workers, test_lt, test_gt.
    destruct (all_digits arg); cbn [negb orb]; [|split; [discriminate|by intros [? _]]].
    destruct (decimal arg <=? INTMAX) eqn:Hmax; cbn [andb].
    - destruct (decimal arg <? 1) eqn:H1; cbn [orb];
        [split; [discriminate|intros [_ H]; lia]|].
      destruct (10 <? decimal arg) eqn:H10;
        [split; [discriminate|intros [_ H]; lia]|].
      split; [intros _; split; [done|lia]|done].
    - split; [intros _; split; [done|lia]|done]. }
  split; [exact Hiff|].
  intros Hok Hmax Henv. apply Hiff in Hok as [Hdigits Hrange].
  destruct (all_digits_parseInt arg Hdigits) as [Hparse Hne].
  assert (getWorkerCount m = decimal arg) as Hcount.
  { assert (is_set (Some arg) = true) as Hset.
    { cbn [is_set]. by apply String.eqb_neq in Hne as ->. }
    unfold getWorkerCount, first_set. rewrite Henv, Hset. cbv zeta. rewrite Hset.
    cbn [default from_option id]. rewrite Hparse. lia. }
  split; [exact Hcount|]. rewrite Hcount. lia.
Qed.

Lemma validated_worker_count_witness :
  let m := {| ParallelHelpers.cpuCount := 4;
              ParallelHelpers.totalmem := 2 ^ 33;
              ParallelHelpers.freemem := 2 ^ 32;
              ParallelHelpers.env := {["CUCUMBER_WORKERS" := "10"]} |} in
  validate_workers "10" = Return 0 /\ getWorkerCount m = 10.
Proof.
  cbv zeta.
  assert (validate_workers "10" = Return 0) as H.
  { apply validated_worker_count; [exact sample_small_machine|].
    split; [reflexivity|]. left. vm_compute. split; discriminate. }
  split; [exact H|].
  match goal with |- getWorkerCount ?m = _ =>
    destruct (proj2 (validated_worker_count "10" m) H) as [-> _]
  end.
  - vm_compute. discriminate.
  - reflexivity.
  - reflexivity.
Defined.

